(** * ballistica.cc: bootstrap orchestrator, clock tracker, fatal-error
      protocol and build-integrity classifier

    A shallow embedding of [src/ballistica/ballistica.cc] and the properties
    its specification states about it.

    - Part 1 Data model: the globals, the records behind them.
    - Part 2 [GetRealTime].
    - Part 3 [IsUnmodifiedBlessedBuild].
    - Part 4 The thread-affinity predicates [InGameThread] and friends.
    - Part 5 An execution monad (state, trace, C++ exceptions, process
             termination), [FatalError] and [BallisticaMain].
    - Part 6 The vocabulary of the properties, and
             [GetUniqueSessionIdentifier].
    - Parts 7 and up: the theorems. *)

From Stdlib Require Import ZArith String Bool List Lia.
From Stdlib Require DecimalString DecimalPos DecimalFacts.
Import ListNotations.
Local Open Scope string_scope.
Local Open Scope list_scope.
Local Open Scope Z_scope.

Set Implicit Arguments.

(* ================================================================== *)
(** * Part 1: data model *)
(* ================================================================== *)

(** Modelled from the spec: the type [millisecs_t] is declared in
    [ballistica/types.h], which is not part of this file; the spec only says
    "milliseconds".  It is taken here as a signed 64-bit integer: a value is
    a [Z] between [-2^63] and [2^63 - 1] ([Int64Clock.in_range]), and
    wherever [GetRealTime] computes with it the wrap-around is written out
    ([Int64Clock.wrap]). *)
Definition millisecs_t := Z.

(** An operating-system thread identity ([std::thread::id]). *)
Definition os_thread_id := nat.

(** [enum class ThreadIdentifier], as far as this file uses it, plus the
    identifiers of the platform's auxiliary threads. *)
Inductive ThreadIdentifier :=
| kMain | kMedia | kAudio | kGame | kNetworkWrite | kBGDynamics | kStdin.

Inductive ThreadType := kStandard | kMainType.

(** A [Thread] object: what it was created as, and the OS thread it wraps
    or has spawned. *)
Record Thread := mkThread {
  identifier : ThreadIdentifier;
  type : ThreadType;
  thread_id : os_thread_id
}.

(** Every module ([Game], [GraphicsServer], [AudioServer], [MediaServer],
    [NetworkWriteModule], [BGDynamicsServer]) is used here only through
    [thread()], the thread it was added to. *)
Record Module_ := mkModule { thread : Thread }.

(** The fields of [AppGlobals] that this file reads or writes. *)
Record AppGlobals := mkAppGlobals {
  is_bootstrapped : bool;
  pausable_threads : list Thread;
  main_thread_id : os_thread_id;
  real_time : millisecs_t;
  last_real_time_ticks : millisecs_t;
  user_ran_commands : bool;
  calced_blessing_hash : string;
  return_value : Z
}.

(** Writes to single fields of the record. *)
Definition set_is_bootstrapped (b : bool) (g : AppGlobals) : AppGlobals :=
  let '(mkAppGlobals _ threads main rt last cmds hash rv) := g in
  mkAppGlobals b threads main rt last cmds hash rv.

Definition push_back_pausable (t : Thread) (g : AppGlobals) : AppGlobals :=
  let '(mkAppGlobals boot threads main rt last cmds hash rv) := g in
  mkAppGlobals boot (threads ++ [t]) main rt last cmds hash rv.

Definition set_clock (rt last : millisecs_t) (g : AppGlobals) : AppGlobals :=
  let '(mkAppGlobals boot threads main _ _ cmds hash rv) := g in
  mkAppGlobals boot threads main rt last cmds hash rv.

(** The part of [Platform] and of [App] that this file reads. *)
Record Platform := mkPlatform { using_custom_app_python_dir : bool }.
Record App := mkApp { UsesEventLoop : bool }.

(** The standalone globals of the file.  A null pointer is [None]. *)
Record Globals := mkGlobals {
  g_main_thread : option Thread;
  g_app_globals : option AppGlobals;
  g_app : option App;
  g_account : bool;          (* only its existence matters here *)
  g_utils : bool;
  g_game : option Module_;
  g_bg_dynamics_server : option Module_;
  g_platform : option Platform;
  g_graphics_server : option Module_;
  g_media_server : option Module_;
  g_audio_server : option Module_;
  g_network_write_module : option Module_
}.

(** All globals are brace-initialised to null. *)
Definition null_globals : Globals :=
  mkGlobals None None None false false None None None None None None None.

(** Build-time configuration: [g_buildconfig.debug_build()], the macro
    [BA_HEADLESS_BUILD], whether [assert] is compiled in, and the constant
    [kBlessingHash] that a build script writes into the file. *)
Record BuildConfig := mkBuildConfig {
  debug_build : bool;
  headless_build : bool;
  asserts_enabled : bool;
  blessing_hash : option string
}.

(** [const char* kBlessingHash = nullptr;] as the file has it. *)
Definition kBlessingHash : option string := None.

(* ================================================================== *)
(** * Part 2: GetRealTime *)
(* ================================================================== *)

(** ** Signed 64-bit words *)
Module Int64Clock.

Definition min_signed : Z := - 2 ^ 63.
Definition max_signed : Z := 2 ^ 63 - 1.
Definition in_range (x : Z) : Prop := min_signed <= x <= max_signed.

(** Reduction of an integer to the signed 64-bit value with the same
    low 64 bits. *)
Definition wrap (x : Z) : Z := (x + 2 ^ 63) mod 2 ^ 64 - 2 ^ 63.

End Int64Clock.

(** ** The function *)

(** [GetRealTime()], given the value [t] that [g_platform->GetTicks()]
    returned; the result is the value returned and the updated globals
    record.  The subtraction of line 191 and the addition of line 205 are
    64-bit: their results are reduced by [wrap]. *)
Definition GetRealTime (t : millisecs_t) (g : AppGlobals)
  : millisecs_t * AppGlobals :=
  if negb (t =? last_real_time_ticks g) then
    let passed := Int64Clock.wrap (t - last_real_time_ticks g) in
    let passed :=
      if passed <? 0 then 0
      else if passed >? 250 then 250 else passed in
    let g' := set_clock (Int64Clock.wrap (real_time g + passed)) t g in
    (real_time g', g')
  else (real_time g, g).

(** Successive calls, one per raw-tick reading; the values returned. *)
Fixpoint GetRealTime_calls (ticks : list millisecs_t) (g : AppGlobals)
  : list millisecs_t :=
  match ticks with
  | [] => []
  | t :: rest =>
      let (r, g') := GetRealTime t g in r :: GetRealTime_calls rest g'
  end.

(** The globals record after the same calls. *)
Fixpoint GetRealTime_state (ticks : list millisecs_t) (g : AppGlobals)
  : AppGlobals :=
  match ticks with
  | [] => g
  | t :: rest => GetRealTime_state rest (snd (GetRealTime t g))
  end.

(** A freshly constructed record as far as the clock goes: both
    [real_time] and [last_real_time_ticks] are zero. *)
Definition initial_clock (g : AppGlobals) : Prop :=
  real_time g = 0 /\ last_real_time_ticks g = 0.

Definition fresh_app_globals (main : os_thread_id) : AppGlobals :=
  mkAppGlobals false [] main 0 0 false "" 0.

(** The property of section 8 of the spec on a list of results:
    [result[n+1] >= result[n]] and [result[n+1] - result[n] <= 250]. *)
Definition steps_within (bound : Z) (results : list millisecs_t) : Prop :=
  forall n : nat, (S n < length results)%nat ->
    nth n results 0 <= nth (S n) results 0 /\
    nth (S n) results 0 - nth n results 0 <= bound.

(** ** The reading of the spec *)

(** The spec describes the tracker on numbers without a width: "clamp
    negative deltas to zero", "clamp deltas above 250 to 250", "add the
    clamped delta to the accumulator".  [GetRealTime_exact] is that
    description on exact integers; it is the reference [GetRealTime] is
    compared with, not the embedding of the code. *)
Definition GetRealTime_exact (t : Z) (g : AppGlobals) : Z * AppGlobals :=
  if negb (t =? last_real_time_ticks g) then
    let passed := t - last_real_time_ticks g in
    let passed :=
      if passed <? 0 then 0
      else if passed >? 250 then 250 else passed in
    let g' := set_clock (real_time g + passed) t g in
    (real_time g', g')
  else (real_time g, g).

Fixpoint GetRealTime_exact_calls (ticks : list Z) (g : AppGlobals)
  : list Z :=
  match ticks with
  | [] => []
  | t :: rest =>
      let (r, g') := GetRealTime_exact t g in
      r :: GetRealTime_exact_calls rest g'
  end.

(* ================================================================== *)
(** * Part 3: IsUnmodifiedBlessedBuild *)
(* ================================================================== *)

(** The C++ idiom [p && p->field] on a pointer [p]: false on null, without
    touching the object. *)
Definition ptr_and {A : Type} (p : option A) (field : A -> bool) : bool :=
  match p with
  | Some a => field a
  | None => false
  end.

Definition string_empty (s : string) : bool :=
  match s with
  | EmptyString => true
  | String _ _ => false
  end.

(** The five [return] statements of [IsUnmodifiedBlessedBuild], in the
    order of the text. *)
Inductive BlessingRule :=
| RuleDebugBuild
| RuleUserRanCommands
| RuleCustomPythonDir
| RuleNoEmbeddedHash
| RuleHashComparison.

(** [IsUnmodifiedBlessedBuild()] together with the [return] statement that
    produced the value.  [blessing_hash cfg] stands for [kBlessingHash]. *)
Definition blessing_verdict (cfg : BuildConfig) (s : Globals)
  : BlessingRule * bool :=
  if debug_build cfg then (RuleDebugBuild, false)
  else if ptr_and (g_app_globals s) user_ran_commands
  then (RuleUserRanCommands, false)
  else if ptr_and (g_platform s) using_custom_app_python_dir
  then (RuleCustomPythonDir, false)
  else
    match blessing_hash cfg with
    | None => (RuleNoEmbeddedHash, false)
    | Some hash =>
        (RuleHashComparison,
         negb (ptr_and (g_app_globals s)
                 (fun g => negb (string_empty (calced_blessing_hash g))
                           && negb (calced_blessing_hash g =? hash)%string)))
    end.

Definition IsUnmodifiedBlessedBuild (cfg : BuildConfig) (s : Globals) : bool :=
  snd (blessing_verdict cfg s).

(** This file as it stands: whatever the other build settings are, the
    embedded hash is [kBlessingHash]. *)
Definition this_build (debug headless asserts : bool) : BuildConfig :=
  mkBuildConfig debug headless asserts kBlessingHash.

(** ** The policy as section 4.5 of the spec words it *)

(** What the policy looks at.  [computed_hash] is [None] as long as the
    runtime hash "has not yet been computed". *)
Record PolicyFacts := mkPolicyFacts {
  fact_debug : bool;
  fact_ran_commands : bool;
  fact_custom_script_dir : bool;
  fact_embedded_hash : option string;
  fact_computed_hash : option string
}.

(** A rule either decides ([Some verdict]) or does not match ([None]). *)
Definition PolicyRule := PolicyFacts -> option bool.

Definition rule1 : PolicyRule :=
  fun f => if fact_debug f then Some false else None.
Definition rule2 : PolicyRule :=
  fun f => if fact_ran_commands f then Some false else None.
Definition rule3 : PolicyRule :=
  fun f => if fact_custom_script_dir f then Some false else None.
Definition rule4 : PolicyRule :=
  fun f => match fact_embedded_hash f with
           | None => Some false
           | Some _ => None
           end.
Definition rule5 : PolicyRule :=
  fun f => match fact_embedded_hash f, fact_computed_hash f with
           | Some e, Some c => Some (c =? e)%string
           | Some _, None => Some true
           | None, _ => None
           end.

Definition policy : list (BlessingRule * PolicyRule) :=
  [ (RuleDebugBuild, rule1); (RuleUserRanCommands, rule2);
    (RuleCustomPythonDir, rule3); (RuleNoEmbeddedHash, rule4);
    (RuleHashComparison, rule5) ].

(** "First matching rule wins, evaluated in order." *)
Fixpoint first_match (rules : list (BlessingRule * PolicyRule))
  (f : PolicyFacts) : option (BlessingRule * bool) :=
  match rules with
  | [] => None
  | (name, r) :: rest =>
      match r f with
      | Some verdict => Some (name, verdict)
      | None => first_match rest f
      end
  end.

(** The facts of a program state.  Before [g_app_globals] exists no
    developer command has run and no hash has been computed; an empty
    [calced_blessing_hash] is a hash not yet computed. *)
Definition facts_of (cfg : BuildConfig) (s : Globals) : PolicyFacts :=
  mkPolicyFacts
    (debug_build cfg)
    (ptr_and (g_app_globals s) user_ran_commands)
    (ptr_and (g_platform s) using_custom_app_python_dir)
    (blessing_hash cfg)
    (match g_app_globals s with
     | None => None
     | Some g => if string_empty (calced_blessing_hash g) then None
                 else Some (calced_blessing_hash g)
     end).

(* ================================================================== *)
(** * Part 4: thread-affinity predicates *)
(* ================================================================== *)

(** Evaluating an expression either yields a value or dereferences a null
    pointer. *)
Inductive Eval (A : Type) :=
| Value (a : A)
| NullDereference.
Arguments NullDereference {A}.

(** [p->...]: the object behind [p]. *)
Definition arrow {A B : Type} (p : option A) (k : A -> Eval B) : Eval B :=
  match p with
  | Some a => k a
  | None => NullDereference
  end.

(** [p && e] on a pointer [p]: [e] is evaluated only when [p] is not
    null. *)
Definition ptr_andalso {A : Type} (p : option A) (e : Eval bool) : Eval bool :=
  match p with
  | Some _ => e
  | None => Value false
  end.

(** Modelled from the spec: [Thread::IsCurrent()] is defined in
    [ballistica/core/thread.cc], which is not part of this file; "true iff
    the calling execution context is this thread".  [cur] is the calling
    thread, [std::this_thread::get_id()]. *)
Definition IsCurrent (t : Thread) (cur : os_thread_id) : bool :=
  Nat.eqb cur (thread_id t).

Definition InGameThread (s : Globals) (cur : os_thread_id) : Eval bool :=
  ptr_andalso (g_game s)
    (arrow (g_game s) (fun m => Value (IsCurrent (thread m) cur))).

Definition InMainThread (s : Globals) (cur : os_thread_id) : Eval bool :=
  ptr_andalso (g_app_globals s)
    (arrow (g_app_globals s) (fun g => Value (Nat.eqb cur (main_thread_id g)))).

Definition InGraphicsThread (s : Globals) (cur : os_thread_id) : Eval bool :=
  ptr_andalso (g_graphics_server s)
    (arrow (g_graphics_server s) (fun m => Value (IsCurrent (thread m) cur))).

Definition InAudioThread (s : Globals) (cur : os_thread_id) : Eval bool :=
  ptr_andalso (g_audio_server s)
    (arrow (g_audio_server s) (fun m => Value (IsCurrent (thread m) cur))).

Definition InBGDynamicsThread (cfg : BuildConfig) (s : Globals)
  (cur : os_thread_id) : Eval bool :=
  if negb (headless_build cfg) then
    ptr_andalso (g_bg_dynamics_server s)
      (arrow (g_bg_dynamics_server s)
         (fun m => Value (IsCurrent (thread m) cur)))
  else Value false.

Definition InMediaThread (s : Globals) (cur : os_thread_id) : Eval bool :=
  ptr_andalso (g_media_server s)
    (arrow (g_media_server s) (fun m => Value (IsCurrent (thread m) cur))).

Definition InNetworkWriteThread (s : Globals) (cur : os_thread_id)
  : Eval bool :=
  ptr_andalso (g_network_write_module s)
    (arrow (g_network_write_module s)
       (fun m => Value (IsCurrent (thread m) cur))).

(** The seven predicates under one name, each with the global it tests and
    the OS thread that global designates. *)
Inductive AffinityPredicate :=
| PInGameThread | PInMainThread | PInGraphicsThread | PInAudioThread
| PInBGDynamicsThread | PInMediaThread | PInNetworkWriteThread.

Definition run_predicate (p : AffinityPredicate) (cfg : BuildConfig)
  (s : Globals) (cur : os_thread_id) : Eval bool :=
  match p with
  | PInGameThread => InGameThread s cur
  | PInMainThread => InMainThread s cur
  | PInGraphicsThread => InGraphicsThread s cur
  | PInAudioThread => InAudioThread s cur
  | PInBGDynamicsThread => InBGDynamicsThread cfg s cur
  | PInMediaThread => InMediaThread s cur
  | PInNetworkWriteThread => InNetworkWriteThread s cur
  end.

(** The thread a predicate is about, once its global is set: the thread
    the module was added to, or the recorded main thread. *)
Definition designated_thread (p : AffinityPredicate) (s : Globals)
  : option os_thread_id :=
  let of_module (m : option Module_) :=
    option_map (fun m => thread_id (thread m)) m in
  match p with
  | PInGameThread => of_module (g_game s)
  | PInMainThread => option_map main_thread_id (g_app_globals s)
  | PInGraphicsThread => of_module (g_graphics_server s)
  | PInAudioThread => of_module (g_audio_server s)
  | PInBGDynamicsThread => of_module (g_bg_dynamics_server s)
  | PInMediaThread => of_module (g_media_server s)
  | PInNetworkWriteThread => of_module (g_network_write_module s)
  end.

(* ================================================================== *)
(** * Part 5: FatalError and BallisticaMain *)
(* ================================================================== *)

(** ** Writes to the globals *)

Definition set_g_main_thread (v : option Thread) (s : Globals) : Globals :=
  mkGlobals v (g_app_globals s) (g_app s) (g_account s) (g_utils s)
    (g_game s) (g_bg_dynamics_server s) (g_platform s) (g_graphics_server s)
    (g_media_server s) (g_audio_server s) (g_network_write_module s).

Definition set_g_app_globals (v : option AppGlobals) (s : Globals) : Globals :=
  mkGlobals (g_main_thread s) v (g_app s) (g_account s) (g_utils s)
    (g_game s) (g_bg_dynamics_server s) (g_platform s) (g_graphics_server s)
    (g_media_server s) (g_audio_server s) (g_network_write_module s).

Definition set_g_app (v : option App) (s : Globals) : Globals :=
  mkGlobals (g_main_thread s) (g_app_globals s) v (g_account s) (g_utils s)
    (g_game s) (g_bg_dynamics_server s) (g_platform s) (g_graphics_server s)
    (g_media_server s) (g_audio_server s) (g_network_write_module s).

Definition set_g_account (v : bool) (s : Globals) : Globals :=
  mkGlobals (g_main_thread s) (g_app_globals s) (g_app s) v (g_utils s)
    (g_game s) (g_bg_dynamics_server s) (g_platform s) (g_graphics_server s)
    (g_media_server s) (g_audio_server s) (g_network_write_module s).

Definition set_g_utils (v : bool) (s : Globals) : Globals :=
  mkGlobals (g_main_thread s) (g_app_globals s) (g_app s) (g_account s) v
    (g_game s) (g_bg_dynamics_server s) (g_platform s) (g_graphics_server s)
    (g_media_server s) (g_audio_server s) (g_network_write_module s).

Definition set_g_game (v : option Module_) (s : Globals) : Globals :=
  mkGlobals (g_main_thread s) (g_app_globals s) (g_app s) (g_account s)
    (g_utils s) v (g_bg_dynamics_server s) (g_platform s)
    (g_graphics_server s) (g_media_server s) (g_audio_server s)
    (g_network_write_module s).

Definition set_g_bg_dynamics_server (v : option Module_) (s : Globals)
  : Globals :=
  mkGlobals (g_main_thread s) (g_app_globals s) (g_app s) (g_account s)
    (g_utils s) (g_game s) v (g_platform s) (g_graphics_server s)
    (g_media_server s) (g_audio_server s) (g_network_write_module s).

Definition set_g_platform (v : option Platform) (s : Globals) : Globals :=
  mkGlobals (g_main_thread s) (g_app_globals s) (g_app s) (g_account s)
    (g_utils s) (g_game s) (g_bg_dynamics_server s) v (g_graphics_server s)
    (g_media_server s) (g_audio_server s) (g_network_write_module s).

Definition set_g_graphics_server (v : option Module_) (s : Globals)
  : Globals :=
  mkGlobals (g_main_thread s) (g_app_globals s) (g_app s) (g_account s)
    (g_utils s) (g_game s) (g_bg_dynamics_server s) (g_platform s) v
    (g_media_server s) (g_audio_server s) (g_network_write_module s).

Definition set_g_media_server (v : option Module_) (s : Globals) : Globals :=
  mkGlobals (g_main_thread s) (g_app_globals s) (g_app s) (g_account s)
    (g_utils s) (g_game s) (g_bg_dynamics_server s) (g_platform s)
    (g_graphics_server s) v (g_audio_server s) (g_network_write_module s).

Definition set_g_audio_server (v : option Module_) (s : Globals) : Globals :=
  mkGlobals (g_main_thread s) (g_app_globals s) (g_app s) (g_account s)
    (g_utils s) (g_game s) (g_bg_dynamics_server s) (g_platform s)
    (g_graphics_server s) (g_media_server s) v (g_network_write_module s).

Definition set_g_network_write_module (v : option Module_) (s : Globals)
  : Globals :=
  mkGlobals (g_main_thread s) (g_app_globals s) (g_app s) (g_account s)
    (g_utils s) (g_game s) (g_bg_dynamics_server s) (g_platform s)
    (g_graphics_server s) (g_media_server s) (g_audio_server s) v.

(** ** Calls that leave this file, and what a run records *)

(** The template argument of [Thread::AddModule<T>()]. *)
Inductive ModuleKind :=
| Game_ | NetworkWriteModule_ | MediaServer_ | GraphicsServer_ | AudioServer_.

(** Every call [BallisticaMain] and [FatalError] make into code that is
    defined elsewhere. *)
Inductive Call :=
| new_AppGlobals
| Platform_Create
| Platform_PostInit
| new_Account
| new_Utils
| Scene_Init
| new_Thread (id : ThreadIdentifier) (ty : ThreadType)
| Platform_CreateApp
| Thread_AddModule (on : ThreadIdentifier) (m : ModuleKind)
| Platform_CreateAuxiliaryModules
| Game_PushApplyConfigCall
| App_OnBootstrapComplete
| Platform_OnBootstrapComplete
| App_UsesEventLoop
| Thread_RunEventLoop (single_cycle : bool)
| App_PrimeEventPump
| FatalError_ReportFatalError (message : string)
    (in_top_level_exception_handler : bool)
| FatalError_HandleFatalError (exit_cleanly : bool)
    (in_top_level_exception_handler : bool)
| Platform_WillExitMain (errored : bool).

Inductive Event :=
| Called (c : Call)
| Assigned_is_bootstrapped (b : bool).

(** A trace entry: what happened, and whether the program was bootstrapped
    when it happened ([g_app_globals] set and its [is_bootstrapped]
    true). *)
Record Entry := mkEntry {
  event : Event;
  bootstrapped_then : bool
}.

Definition Trace := list Entry.

Definition bootstrapped_now (s : Globals) : bool :=
  ptr_and (g_app_globals s) is_bootstrapped.

(** What a C++ [throw] carries, as far as [catch (const std::exception&)]
    can tell. *)
Inductive Thrown :=
| StdException (what : string)
| OtherException.

(** Ways the process ends inside a call. *)
Inductive ProcessEnd :=
| Exit (code : Z)
| Abort
| NullPointerFault.

(** What [FatalError::HandleFatalError] does when it does not throw: it
    returns [handled], or it brings the process down itself. *)
Inductive HandlerOutcome :=
| Handled (handled : bool)
| BringsDown (how : ProcessEnd).

(** The result of running a piece of code: it completes with a value, an
    exception is propagating, or the process has ended. *)
Inductive Res (A : Type) :=
| Normal (a : A) (s : Globals) (tr : Trace)
| Raised (e : Thrown) (s : Globals) (tr : Trace)
| Ended (how : ProcessEnd) (s : Globals) (tr : Trace).
Arguments Raised {A}.
Arguments Ended {A}.

(** Everything the code of this file does not decide: the build, the
    environment, and the behaviour of the collaborators it calls. *)
Record World := mkWorld {
  build : BuildConfig;
  (** [getenv("BA_CRASH_TEST")] *)
  BA_CRASH_TEST : option string;
  (** whether a call throws, and what *)
  raises : Call -> option Thrown;
  (** what a call writes into [*g_app_globals] *)
  touches : Call -> AppGlobals -> AppGlobals;
  (** what [HandleFatalError] does with its two arguments *)
  handler : bool -> bool -> HandlerOutcome;
  (** the objects the constructors and factories build *)
  the_app_globals : AppGlobals;
  the_platform : Platform;
  the_app : App;
  (** the OS thread behind each [Thread] *)
  os_thread : ThreadIdentifier -> os_thread_id
}.

Section Program.

Variable w : World.

(** ** The execution monad *)

Definition M (A : Type) : Type := Globals -> Trace -> Res A.

Definition ret {A : Type} (a : A) : M A := fun s tr => Normal a s tr.

Definition bind {A B : Type} (m : M A) (k : A -> M B) : M B :=
  fun s tr =>
    match m s tr with
    | Normal a s' tr' => k a s' tr'
    | Raised e s' tr' => Raised e s' tr'
    | Ended how s' tr' => Ended how s' tr'
    end.

Notation "x <- m ;; k" := (bind m (fun x => k))
  (at level 61, m at next level, right associativity).
Notation "m ;; k" := (bind m (fun _ => k))
  (at level 61, right associativity).

Definition gets {A : Type} (f : Globals -> A) : M A :=
  fun s tr => Normal (f s) s tr.

Definition modify (f : Globals -> Globals) : M unit :=
  fun s tr => Normal tt (f s) tr.

Definition log (e : Event) : M unit :=
  fun s tr => Normal tt s (tr ++ [mkEntry e (bootstrapped_now s)]).

(** [*p] for a global pointer [p]. *)
Definition deref {A : Type} (p : Globals -> option A) : M A :=
  fun s tr =>
    match p s with
    | Some a => Normal a s tr
    | None => Ended NullPointerFault s tr
    end.

(** [throw e;] and [exit(code)]. *)
Definition throw {A : Type} (e : Thrown) : M A := fun s tr => Raised e s tr.
Definition exit {A : Type} (code : Z) : M A :=
  fun s tr => Ended (Exit code) s tr.

(** [try { body } catch (const std::exception& exc) { handle exc }]:
    only exceptions derived from [std::exception] are caught. *)
Definition try_catch {A : Type} (body : M A) (handle : string -> M A)
  : M A :=
  fun s tr =>
    match body s tr with
    | Raised (StdException what) s' tr' => handle what s' tr'
    | r => r
    end.

(** The globals after a call into code outside this file: the callee
    may have written into the globals record, if there is one. *)
Definition touched (c : Call) (s : Globals) : Globals :=
  set_g_app_globals (option_map (touches w c) (g_app_globals s)) s.

(** A call into code outside this file: it is recorded, the callee may
    write into the globals record, and it returns or throws. *)
Definition call (c : Call) : M unit :=
  fun s tr =>
    let tr' := tr ++ [mkEntry (Called c) (bootstrapped_now s)] in
    match raises w c with
    | Some e => Raised e (touched c s) tr'
    | None => Normal tt (touched c s) tr'
    end.

(** [if (b) { m }] and [if (b) { m1 } else { m2 }]. *)
Definition if_then (b : bool) (m : M unit) : M unit :=
  fun s tr => if b then m s tr else Normal tt s tr.

Definition if_then_else {A : Type} (b : bool) (m1 m2 : M A) : M A :=
  fun s tr => if b then m1 s tr else m2 s tr.

(** [if (T* p = e) { m p }]: the body runs when the pointer is not
    null. *)
Definition if_pointer {A : Type} (p : option A) (m : A -> M unit)
  : M unit :=
  fun s tr =>
    match p with
    | Some a => m a s tr
    | None => Normal tt s tr
    end.

(** [assert(b)]: aborts when assertions are compiled in and [b] is
    false. *)
Definition assert (b : bool) : M unit :=
  fun s tr =>
    if asserts_enabled (build w) && negb b then Ended Abort s tr
    else Normal tt s tr.

(** ** The error reporter *)

Definition ReportFatalError (message : string) (in_top_level : bool)
  : M unit :=
  call (FatalError_ReportFatalError message in_top_level).

Definition HandleFatalError (exit_cleanly in_top_level : bool) : M bool :=
  call (FatalError_HandleFatalError exit_cleanly in_top_level) ;;
  fun s tr =>
    match handler w exit_cleanly in_top_level with
    | Handled handled => Normal handled s tr
    | BringsDown how => Ended how s tr
    end.

(** [auto FatalError(const std::string& message) -> void] *)
Definition FatalError (message : string) : M unit :=
  ReportFatalError message false ;;
  exit_cleanly <- gets (fun s =>
                          negb (IsUnmodifiedBlessedBuild (build w) s)) ;;
  handled <- HandleFatalError exit_cleanly false ;;
  assert handled.

(** ** Constructors and factories *)

Definition new_AppGlobals_ : M AppGlobals :=
  call new_AppGlobals ;; ret (the_app_globals w).

Definition Platform_Create_ : M Platform :=
  call Platform_Create ;; ret (the_platform w).

Definition new_Thread_ (id : ThreadIdentifier) (ty : ThreadType)
  : M Thread :=
  call (new_Thread id ty) ;; ret (mkThread id ty (os_thread w id)).

(** Modelled from the spec: the module constructors run by
    [Thread::AddModule<T>()] are not part of this file; "attach exactly
    one module per thread", each global subsystem pointer "becomes valid
    only after its creating phase completes". *)
Definition register_module (m : ModuleKind) (t : Thread) : M unit :=
  modify
    match m with
    | Game_ => set_g_game (Some (mkModule t))
    | NetworkWriteModule_ => set_g_network_write_module (Some (mkModule t))
    | MediaServer_ => set_g_media_server (Some (mkModule t))
    | GraphicsServer_ => set_g_graphics_server (Some (mkModule t))
    | AudioServer_ => set_g_audio_server (Some (mkModule t))
    end.

Definition AddModule (t : Thread) (m : ModuleKind) : M unit :=
  call (Thread_AddModule (identifier t) m) ;; register_module m t.

(** Modelled from the spec: [Platform::CreateApp()] is not part of this
    file; it "spins up g_app" (the comment at the call). *)
Definition CreateApp : M unit :=
  call Platform_CreateApp ;; modify (set_g_app (Some (the_app w))).

(** Modelled from the spec: [Platform::CreateAuxiliaryModules()] is not
    part of this file; the dynamics thread "is absent entirely on
    stripped-down builds" (bg-dynamics in non-headless builds, says the
    comment at the call). *)
Definition CreateAuxiliaryModules : M unit :=
  call Platform_CreateAuxiliaryModules ;;
  if_then (negb (headless_build (build w)))
    (modify (set_g_bg_dynamics_server
               (Some (mkModule (mkThread kBGDynamics kStandard
                                  (os_thread w kBGDynamics)))))).

(** [g_app_globals->pausable_threads.push_back(t)] *)
Definition push_back_pausable_thread (t : Thread) : M unit :=
  g <- deref g_app_globals ;;
  modify (set_g_app_globals (Some (push_back_pausable t g))).

(** [g_app_globals->is_bootstrapped = b] *)
Definition assign_is_bootstrapped (b : bool) : M unit :=
  g <- deref g_app_globals ;;
  modify (set_g_app_globals (Some (set_is_bootstrapped b g))) ;;
  log (Assigned_is_bootstrapped b).

(** [p->f()] for a global pointer [p] and a member function outside this
    file. *)
Definition call_on {A : Type} (p : Globals -> option A) (c : Call)
  : M unit :=
  _ <- deref p ;; call c.

(** ** BallisticaMain *)

Definition crash_test_message : string := "Fatal-Error-Test".

Definition unhandled_prefix : string :=
  "Unhandled exception in BallisticaMain(): ".

(** The [catch] block of [BallisticaMain]. *)
Definition top_level_handler (what : string) : M unit :=
  let error_msg := (unhandled_prefix ++ what)%string in
  ReportFatalError error_msg true ;;
  exit_cleanly <- gets (fun s =>
                          negb (IsUnmodifiedBlessedBuild (build w) s)) ;;
  handled <- HandleFatalError exit_cleanly true ;;
  if_then (negb handled)
    (if_then_else exit_cleanly (exit 1) (throw (StdException what))).

(** The [try] block of [BallisticaMain], cut at the banners of the
    source: the crash test, phase 1 up to the assignment of
    [is_bootstrapped] that ends it, phase 2 and phase 3/4. *)
Definition crash_test : M unit :=
  if_pointer (BA_CRASH_TEST w) (fun crashenv =>
    if_then (crashenv =? "1")%string (FatalError crash_test_message)).

Definition provision_globals : M unit :=
  ag <- new_AppGlobals_ ;; modify (set_g_app_globals (Some ag)) ;;
  p <- Platform_Create_ ;; modify (set_g_platform (Some p)) ;;
  call_on g_platform Platform_PostInit ;;
  call new_Account ;; modify (set_g_account true) ;;
  call new_Utils ;; modify (set_g_utils true) ;;
  call Scene_Init ;;
  main_thread <- new_Thread_ kMain kMainType ;;
  modify (set_g_main_thread (Some main_thread)) ;;
  _ <- deref g_platform ;; CreateApp ;;
  media_thread <- new_Thread_ kMedia kStandard ;;
  push_back_pausable_thread media_thread ;;
  audio_thread <- new_Thread_ kAudio kStandard ;;
  push_back_pausable_thread audio_thread ;;
  game_thread <- new_Thread_ kGame kStandard ;;
  push_back_pausable_thread game_thread ;;
  network_write_thread <- new_Thread_ kNetworkWrite kStandard ;;
  push_back_pausable_thread network_write_thread ;;
  AddModule game_thread Game_ ;;
  AddModule network_write_thread NetworkWriteModule_ ;;
  AddModule media_thread MediaServer_ ;;
  g_main_thread' <- deref g_main_thread ;;
  AddModule g_main_thread' GraphicsServer_ ;;
  AddModule audio_thread AudioServer_ ;;
  _ <- deref g_platform ;; CreateAuxiliaryModules.

Definition phase2 : M unit :=
  call_on g_game Game_PushApplyConfigCall ;;
  call_on g_app App_OnBootstrapComplete ;;
  call_on g_platform Platform_OnBootstrapComplete.

Definition phase3_4 : M unit :=
  app <- deref g_app ;;
  call App_UsesEventLoop ;;
  if_then_else (UsesEventLoop app)
    (call_on g_main_thread (Thread_RunEventLoop false))
    (call_on g_app App_PrimeEventPump).

Definition bootstrap_and_run : M unit :=
  crash_test ;;
  provision_globals ;; assign_is_bootstrapped true ;;
  phase2 ;;
  phase3_4.

(** [auto BallisticaMain(int argc, char** argv) -> int] *)
Definition BallisticaMain : M Z :=
  try_catch bootstrap_and_run top_level_handler ;;
  call_on g_platform (Platform_WillExitMain false) ;;
  g <- deref g_app_globals ;;
  ret (return_value g).

End Program.

(** ** Running the program from process start *)

Inductive Outcome :=
| Returns (v : Z)
| Throws (e : Thrown)
| Ends (how : ProcessEnd).

Definition outcome (r : Res Z) : Outcome :=
  match r with
  | Normal v _ _ => Returns v
  | Raised e _ _ => Throws e
  | Ended how _ _ => Ends how
  end.

(** The same for a block of any type. *)
Inductive Fate :=
| Completes
| Rethrows (e : Thrown)
| ProcessEnds (how : ProcessEnd).

Definition fate {A : Type} (r : Res A) : Fate :=
  match r with
  | Normal _ _ _ => Completes
  | Raised e _ _ => Rethrows e
  | Ended how _ _ => ProcessEnds how
  end.

Definition final_globals {A : Type} (r : Res A) : Globals :=
  match r with
  | Normal _ s _ | Raised _ s _ | Ended _ s _ => s
  end.

Definition trace {A : Type} (r : Res A) : Trace :=
  match r with
  | Normal _ _ tr | Raised _ _ tr | Ended _ _ tr => tr
  end.

Definition events {A : Type} (r : Res A) : list Event :=
  map event (trace r).

(** The process: [BallisticaMain] entered with every global null. *)
Definition run (w : World) : Res Z := BallisticaMain w null_globals [].

(* ================================================================== *)
(** * Part 6: vocabulary of the properties *)
(* ================================================================== *)

(** ** Clock *)

(** Raw-tick readings [0, 100, 99, 5000] of section 8 of the spec. *)
Definition sample_ticks : list millisecs_t := [0; 100; 99; 5000].

(** A freshly constructed globals record, main thread 1. *)
Definition sample_app_globals : AppGlobals := fresh_app_globals 1%nat.

(** ** Classifier *)

(** The runtime hash of a state, [None] while it "has not yet been
    computed". *)
Definition runtime_hash (s : Globals) : option string :=
  match g_app_globals s with
  | None => None
  | Some g => if string_empty (calced_blessing_hash g) then None
              else Some (calced_blessing_hash g)
  end.

(** ** Thread-affinity predicates *)

(** The global a predicate tests is still null. *)
Definition subsystem_missing (p : AffinityPredicate) (s : Globals) : bool :=
  match designated_thread p s with
  | Some _ => false
  | None => true
  end.

(** ** Traces *)

(** Kinds of events. *)
Definition is_thread_or_module (e : Event) : bool :=
  match e with
  | Called (new_Thread _ _)
  | Called (Thread_AddModule _ _)
  | Called Platform_CreateAuxiliaryModules => true
  | _ => false
  end.

(** The calls that post a message to another thread; in this file there
    is one, [g_game->PushApplyConfigCall()]. *)
Definition is_cross_thread_message (e : Event) : bool :=
  match e with
  | Called Game_PushApplyConfigCall => true
  | _ => false
  end.

Definition is_bootstrapped_set (e : Event) : bool :=
  match e with
  | Assigned_is_bootstrapped true => true
  | _ => false
  end.

Definition is_fatal_report (e : Event) : bool :=
  match e with
  | Called (FatalError_ReportFatalError _ _) => true
  | _ => false
  end.

Definition is_event_loop (e : Event) : bool :=
  match e with
  | Called (Thread_RunEventLoop _) => true
  | _ => false
  end.

Definition is_prime_event_pump (e : Event) : bool :=
  match e with
  | Called App_PrimeEventPump => true
  | _ => false
  end.

(** How often a kind of event occurs. *)
Definition count (kind : Event -> bool) (l : list Event) : nat :=
  length (filter kind l).

(** The calls of phase 1 in the order of the text. *)
Definition provisioning_calls : list Call :=
  [ new_AppGlobals; Platform_Create; Platform_PostInit; new_Account;
    new_Utils; Scene_Init; new_Thread kMain kMainType; Platform_CreateApp;
    new_Thread kMedia kStandard; new_Thread kAudio kStandard;
    new_Thread kGame kStandard; new_Thread kNetworkWrite kStandard;
    Thread_AddModule kGame Game_;
    Thread_AddModule kNetworkWrite NetworkWriteModule_;
    Thread_AddModule kMedia MediaServer_;
    Thread_AddModule kMain GraphicsServer_;
    Thread_AddModule kAudio AudioServer_;
    Platform_CreateAuxiliaryModules ].

(** Among them, the thread creations and module attachments. *)
Definition creation_events : list Event :=
  filter is_thread_or_module (map Called provisioning_calls).

(** A computation [emits] a class of entries when whatever it does, from
    any state, it only appends entries of that class to the trace. *)
Definition emits {A : Type} (class : Entry -> bool) (m : M A) : Prop :=
  forall s tr, exists ext,
    trace (m s tr) = tr ++ ext /\ forallb class ext = true.

(** Entries that may come before [is_bootstrapped] is set: anything but
    the assignment itself and a cross-thread message. *)
Definition before_class (e : Entry) : bool :=
  negb (is_bootstrapped_set (event e))
  && negb (is_cross_thread_message (event e)).

(** Entries that may come after it: no thread creation or module
    attachment, no second assignment, and messages only with the flag
    true. *)
Definition after_class (e : Entry) : bool :=
  negb (is_thread_or_module (event e))
  && negb (is_bootstrapped_set (event e))
  && (if is_cross_thread_message (event e) then bootstrapped_then e
      else true).

(** Entries that may come anywhere. *)
Definition quiet_class (e : Entry) : bool :=
  negb (is_thread_or_module (event e))
  && negb (is_bootstrapped_set (event e))
  && negb (is_cross_thread_message (event e)).

(** A trace is [ordered] when it is all "before", or a "before" part that
    holds every thread creation and module attachment of phase 1, the
    assignment, and an "after" part. *)
Definition ordered (tr : Trace) : Prop :=
  forallb before_class tr = true
  \/ exists pre flag aft,
       tr = pre ++ flag :: aft
       /\ forallb before_class pre = true
       /\ incl creation_events (map event pre)
       /\ event flag = Assigned_is_bootstrapped true
       /\ forallb after_class aft = true.

(** The calls of the steady-state phase: the query [UsesEventLoop()] and
    the two branches. *)
Definition is_steady_state (e : Event) : bool :=
  match e with
  | Called App_UsesEventLoop => true
  | _ => is_event_loop e || is_prime_event_pump e
  end.

Definition no_steady_state_class (e : Entry) : bool :=
  negb (is_steady_state (event e)).

(** The steady-state calls of a trace, in order. *)
Definition steady_state_calls (tr : Trace) : list Event :=
  filter is_steady_state (map event tr).

(** The branch [BallisticaMain] takes for an application. *)
Definition steady_state_branch (app : App) : Call :=
  if UsesEventLoop app then Thread_RunEventLoop false
  else App_PrimeEventPump.

(** What a run may show of the steady-state phase: nothing (it was not
    reached), the query alone (it threw), or the query followed by the one
    branch that [UsesEventLoop()] selects. *)
Definition steady_state_outcome (w : World) (calls : list Event) : Prop :=
  calls = []
  \/ (calls = [Called App_UsesEventLoop]
      /\ raises w App_UsesEventLoop <> None)
  \/ (calls = [Called App_UsesEventLoop;
               Called (steady_state_branch (the_app w))]
      /\ raises w App_UsesEventLoop = None).

(** Entries whose [HandleFatalError] calls all pass [exit_cleanly] true. *)
Definition exits_cleanly_class (e : Entry) : bool :=
  match event e with
  | Called (FatalError_HandleFatalError exit_cleanly _) => exit_cleanly
  | _ => true
  end.

(** ** Collaborators *)

(** Modelled from the spec: [FatalError::HandleFatalError] is defined in
    [ballistica/core/fatal_error.cc], which is not part of this file.  The
    "handle" step gets "a chance to intercept" and "returns whether it did
    so"; "if unhandled, the orchestrator applies the exit-cleanly decision
    itself" at the top-level boundary, while a fatal error raised through
    [FatalError] follows the "same reporting/exit policy, asserted to always
    be handled by the time control returns": there the step applies the
    decision itself, a clean [exit] with a non-zero code or an abnormal
    termination. *)
Definition spec_handler (intercepts : bool -> bool -> bool)
  (exit_cleanly in_top_level : bool) : HandlerOutcome :=
  if intercepts exit_cleanly in_top_level then Handled true
  else if in_top_level then Handled false
  else BringsDown (if exit_cleanly then Exit 1 else Abort).

(** No collaborator throws. *)
Definition nothing_raises : Call -> option Thrown := fun _ => None.

(** No collaborator writes into the globals record. *)
Definition nothing_touched : Call -> AppGlobals -> AppGlobals :=
  fun _ g => g.

Definition sample_threads (id : ThreadIdentifier) : os_thread_id :=
  match id with
  | kMain => 1 | kMedia => 2 | kAudio => 3 | kGame => 4
  | kNetworkWrite => 5 | kBGDynamics => 6 | kStdin => 7
  end%nat.

(** A release build of this file in which nothing goes wrong. *)
Definition quiet_world (crashenv : option string) (event_loop : bool)
  : World :=
  mkWorld (this_build false false false) crashenv nothing_raises
    nothing_touched (spec_handler (fun _ _ => false))
    sample_app_globals (mkPlatform false) (mkApp event_loop) sample_threads.

(** The failure of section 8 of the spec: screen creation, which runs
    inside the main thread's event loop, throws. *)
Definition screen_creation_fails : Call -> option Thrown :=
  fun c => match c with
           | Thread_RunEventLoop _ => Some (StdException "screen creation")
           | _ => None
           end.

(** A world in which screen creation fails, for a given embedded hash and
    a given answer of the handle step at the top-level boundary. *)
Definition failing_world (hash : option string) (handled : bool) : World :=
  mkWorld (mkBuildConfig false false false hash) None
    screen_creation_fails nothing_touched
    (spec_handler (fun _ in_top_level => in_top_level && handled))
    sample_app_globals (mkPlatform false) (mkApp true) sample_threads.

(** ** The fatal-error protocol *)

(** Any entry. *)
Definition any_class (e : Entry) : bool := true.

(** The state in which the [catch] block consults the classifier: the one
    the failure was caught in, after the call of [ReportFatalError]. *)
Definition state_at_decision (w : World) (what : string) (s : Globals)
  : Globals :=
  touched w (FatalError_ReportFatalError (unhandled_prefix ++ what) true) s.

(** A failure [what] reaches the top-level boundary in state [s], it is
    reported, and the "handle" step does not intercept it. *)
Definition unintercepted_failure (w : World) (what : string) (s : Globals)
  : Prop :=
  let exit_cleanly :=
    negb (IsUnmodifiedBlessedBuild (build w) (state_at_decision w what s)) in
  (exists tr,
      bootstrap_and_run w null_globals [] = Raised (StdException what) s tr)
  /\ raises w (FatalError_ReportFatalError (unhandled_prefix ++ what) true)
     = None
  /\ raises w (FatalError_HandleFatalError exit_cleanly true) = None
  /\ handler w exit_cleanly true = Handled false.

(** The exit decision as the spec words it: a blessed build exits cleanly
    with [exit(1)], any other build re-raises the failure. *)
Definition spec_exit_decision (blessed : bool) (what : string) : Outcome :=
  if blessed then Ends (Exit 1) else Throws (StdException what).

(** The exit decision with the polarity of the code
    ([exit_cleanly = !IsUnmodifiedBlessedBuild()]). *)
Definition code_exit_decision (blessed : bool) (what : string) : Outcome :=
  if blessed then Throws (StdException what) else Ends (Exit 1).

(** The spec's sentence about a world. *)
Definition claimed_exit_decision (w : World) : Prop :=
  forall what s,
    unintercepted_failure w what s ->
    outcome (run w)
    = spec_exit_decision
        (IsUnmodifiedBlessedBuild (build w) (state_at_decision w what s))
        what.

(** The [exit_cleanly] arguments a trace shows. *)
Definition passes_exit_cleanly (ec : bool) (r : list Event) : Prop :=
  exists top, In (Called (FatalError_HandleFatalError ec top)) r.

(** What a run records when the crash test is off and no collaborator
    throws: phase 1, the assignment, phase 2, the steady-state query and
    branch, and the exit notification. *)
Definition undisturbed_events (w : World) : list Event :=
  map Called provisioning_calls
  ++ [ Assigned_is_bootstrapped true;
       Called Game_PushApplyConfigCall;
       Called App_OnBootstrapComplete;
       Called Platform_OnBootstrapComplete;
       Called App_UsesEventLoop;
       Called (steady_state_branch (the_app w)) ]
  ++ [ Called (Platform_WillExitMain false) ].

(** What a run records when the crash test fires and the handle step
    brings the process down. *)
Definition crash_test_events (exit_cleanly : bool) : list Event :=
  [ Called (FatalError_ReportFatalError crash_test_message false);
    Called (FatalError_HandleFatalError exit_cleanly false) ].

(** The hypotheses of the crash test on the collaborators: the handle
    step is the one of the spec and does not intercept, and the two calls
    of the reporter return. *)
Definition reporter_brings_down (w : World) (exit_cleanly : bool) : Prop :=
  (exists intercepts,
      handler w = spec_handler intercepts
      /\ intercepts exit_cleanly false = false)
  /\ raises w (FatalError_ReportFatalError crash_test_message false) = None
  /\ raises w (FatalError_HandleFatalError exit_cleanly false) = None.

(** The part of the world [BallisticaMain] relies on to come back once
    the global state and the platform exist: no exception outside
    [std::exception], a reporter and an exit notification that return, and
    a handle step that reports a failure caught at the top level as
    handled. *)
Definition failures_are_handled (w : World) : Prop :=
  BA_CRASH_TEST w <> Some "1"
  /\ raises w new_AppGlobals = None
  /\ raises w Platform_Create = None
  /\ (forall c, raises w c <> Some OtherException)
  /\ (forall m b, raises w (FatalError_ReportFatalError m b) = None)
  /\ (forall e b, raises w (FatalError_HandleFatalError e b) = None)
  /\ raises w (Platform_WillExitMain false) = None
  /\ (forall e, handler w e true = Handled true).

(** A world in which screen creation fails and the handle step takes care
    of the failure. *)
Definition handled_failure_world : World :=
  mkWorld (this_build false false false) None screen_creation_fails
    nothing_touched (fun _ _ => Handled true)
    (mkAppGlobals false [] 1%nat 0 0 false "" 7) (mkPlatform false)
    (mkApp true) sample_threads.

(** A world in which the very first construction fails and the handle
    step still reports the failure as handled. *)
Definition early_failure_world : World :=
  mkWorld (this_build false false false) None
    (fun c => match c with
              | new_AppGlobals => Some (StdException "bad_alloc")
              | _ => None
              end)
    nothing_touched (fun _ _ => Handled true)
    sample_app_globals (mkPlatform false) (mkApp true) sample_threads.

(** ** States between the phases *)

(** Everything phase 2 and the steady-state phase dereference is set. *)
Definition ready (w : World) (s : Globals) : Prop :=
  g_app s = Some (the_app w)
  /\ g_platform s <> None
  /\ g_main_thread s <> None
  /\ g_app_globals s <> None
  /\ g_game s <> None.

(** The two globals the end of [BallisticaMain] dereferences are set. *)
Definition can_leave (s : Globals) : Prop :=
  g_platform s <> None /\ g_app_globals s <> None.

(** The events from the assignment of the flag to the steady-state
    branch. *)
Definition activation_events (w : World) : list Event :=
  [ Assigned_is_bootstrapped true;
    Called Game_PushApplyConfigCall;
    Called App_OnBootstrapComplete;
    Called Platform_OnBootstrapComplete;
    Called App_UsesEventLoop;
    Called (steady_state_branch (the_app w)) ].


(* ================================================================== *)
(** * Part 6b: further vocabulary *)
(* ================================================================== *)

(** ** Clock *)

(** Raw readings that start at [last] and move forward by at most [step]
    from one reading to the next. *)
Fixpoint steady_ticks (step : Z) (last : millisecs_t)
  (ticks : list millisecs_t) : Prop :=
  match ticks with
  | [] => True
  | t :: rest => 0 <= t - last <= step /\ steady_ticks step t rest
  end.

(** Raw readings that start at [last] and never move backward. *)
Fixpoint forward_ticks (last : millisecs_t) (ticks : list millisecs_t)
  : Prop :=
  match ticks with
  | [] => True
  | t :: rest => last <= t /\ forward_ticks t rest
  end.

(** The fields of the globals record other than the two of the clock. *)
Definition outside_clock (g : AppGlobals)
  : bool * list Thread * os_thread_id * bool * string * Z :=
  (is_bootstrapped g, pausable_threads g, main_thread_id g,
   user_ran_commands g, calced_blessing_hash g, return_value g).

(** The program state with the clock read once more. *)
Definition with_clock_read (t : millisecs_t) (s : Globals) : Globals :=
  set_g_app_globals
    (option_map (fun g => snd (GetRealTime t g)) (g_app_globals s)) s.

(** Raw ticks whose differences cannot overflow 64 bits. *)
Definition small_tick (t : Z) : Prop := - 2 ^ 62 <= t < 2 ^ 62.

(** A record whose accumulator is 100 below the largest 64-bit value. *)
Definition near_limit_globals : AppGlobals :=
  mkAppGlobals false [] 1%nat (2 ^ 63 - 101) 0 false "" 0.

(** ** Traces *)

(** A report made by the [catch] block of [BallisticaMain]. *)
Definition is_top_level_report (e : Event) : bool :=
  match e with
  | Called (FatalError_ReportFatalError _ true) => true
  | _ => false
  end.

Definition is_exit_notification (e : Event) : bool :=
  match e with
  | Called (Platform_WillExitMain _) => true
  | _ => false
  end.

(** An assignment to [is_bootstrapped] made by the code of this file, with
    either value. *)
Definition is_flag_write (e : Event) : bool :=
  match e with
  | Assigned_is_bootstrapped _ => true
  | _ => false
  end.

(** Entries other than a top-level report and the exit notification. *)
Definition inside_try_class (e : Entry) : bool :=
  negb (is_top_level_report (event e))
  && negb (is_exit_notification (event e)).

(** Entries other than the exit notification. *)
Definition before_exit_class (e : Entry) : bool :=
  negb (is_exit_notification (event e)).

(** Entries other than top-level reports. *)
Definition no_top_level_report_class (e : Entry) : bool :=
  negb (is_top_level_report (event e)).

(** Entries other than an assignment of [false] to [is_bootstrapped] by
    the code of this file. *)
Definition never_reset_class (e : Entry) : bool :=
  match event e with
  | Assigned_is_bootstrapped false => false
  | _ => true
  end.

(** ** Collaborators *)

(** The collaborators may add to the list of pausable threads, and do
    nothing else to it. *)
Definition appends_pausable_threads (w : World) : Prop :=
  forall c g, exists more,
    pausable_threads (touches w c g) = pausable_threads g ++ more.

(** [in_order l1 l2]: the elements of [l1] occur in [l2], in the order
    of [l1]. *)
Fixpoint in_order {A : Type} (l1 l2 : list A) : Prop :=
  match l1 with
  | [] => True
  | x :: rest => exists a b, l2 = a ++ x :: b /\ in_order rest b
  end.

(** The four worker threads of phase 1, in the order in which they are
    created. *)
Definition worker_threads (w : World) : list Thread :=
  [ mkThread kMedia kStandard (os_thread w kMedia);
    mkThread kAudio kStandard (os_thread w kAudio);
    mkThread kGame kStandard (os_thread w kGame);
    mkThread kNetworkWrite kStandard (os_thread w kNetworkWrite) ].

(** A world in which the event loop throws something that is not a
    [std::exception]. *)
Definition foreign_failure_world : World :=
  mkWorld (this_build false false false) None
    (fun c => match c with
              | Thread_RunEventLoop _ => Some OtherException
              | _ => None
              end)
    nothing_touched (spec_handler (fun _ _ => false))
    sample_app_globals (mkPlatform false) (mkApp true) sample_threads.

(** ** IsBootstrapped *)

(** [auto IsBootstrapped() -> bool { return g_app_globals->is_bootstrapped; }] *)
Definition IsBootstrapped (s : Globals) : Eval bool :=
  arrow (g_app_globals s) (fun g => Value (is_bootstrapped g)).

(** A release build with the crash test switched on and a handle step
    that comes back without having handled the error. *)
Definition returning_handler_world : World :=
  mkWorld (this_build false false false) (Some "1") nothing_raises
    nothing_touched (fun _ _ => Handled false)
    sample_app_globals (mkPlatform false) (mkApp true) sample_threads.

(** ** The flag once it is set *)

(** No collaborator clears [is_bootstrapped]. *)
Definition flag_survives (w : World) : Prop :=
  forall c g,
    is_bootstrapped g = true -> is_bootstrapped (touches w c g) = true.

(** Entries that do not write the flag. *)
Definition no_flag_write_class (e : Entry) : bool :=
  negb (is_flag_write (event e)).

(** Entries recorded with the flag set that do not write it. *)
Definition after_flag_class (e : Entry) : bool :=
  bootstrapped_then e && negb (is_flag_write (event e)).

(** A computation that, started with the flag set, records only such
    entries and leaves the flag set, however it ends. *)
Definition stays_bootstrapped {A : Type} (m : M A) : Prop :=
  forall s tr,
    IsBootstrapped s = Value true ->
    exists ext,
      trace (m s tr) = tr ++ ext
      /\ forallb after_flag_class ext = true
      /\ IsBootstrapped (final_globals (m s tr)) = Value true.

(** What follows the try block: the exit notification and the return. *)
Definition leave_main (w : World) : M Z :=
  bind (call_on w g_platform (Platform_WillExitMain false)) (fun _ =>
    bind (deref g_app_globals) (fun g => ret (return_value g))).

(** The try block up to the end of phase 1, and from the assignment of
    the flag on. *)
Definition before_flag (w : World) : M unit :=
  bind (crash_test w) (fun _ => provision_globals w).

Definition after_flag (w : World) : M unit :=
  bind (phase2 w) (fun _ => phase3_4 w).

(** ** The fields [BallisticaMain] leaves alone *)

(** The fields of the globals record other than [is_bootstrapped] and
    [pausable_threads]. *)
Definition kept_fields (g : AppGlobals)
  : os_thread_id * millisecs_t * millisecs_t * bool * string * Z :=
  (main_thread_id g, real_time g, last_real_time_ticks g,
   user_ran_commands g, calced_blessing_hash g, return_value g).

(** No collaborator writes them. *)
Definition collaborators_keep (w : World) : Prop :=
  forall c g, kept_fields (touches w c g) = kept_fields g.

(** They are as the constructor left them. *)
Definition as_constructed (w : World) (s : Globals) : Prop :=
  forall g,
    g_app_globals s = Some g ->
    kept_fields g = kept_fields (the_app_globals w).

(** A computation that keeps them so, however it ends, and whose value
    satisfies [V] when it returns. *)
Definition frames {A : Type} (w : World) (V : A -> Prop) (m : M A)
  : Prop :=
  forall s tr,
    as_constructed w s ->
    as_constructed w (final_globals (m s tr))
    /\ forall a s' tr', m s tr = Normal a s' tr' -> V a.

Definition anything {A : Type} (a : A) : Prop := True.

(** ** GetUniqueSessionIdentifier *)

(** The two function-local statics. *)
Record SessionStatics := mkSessionStatics {
  session_id : string;
  have_session_id : bool
}.

(** Their values when the program starts. *)
Definition initial_statics : SessionStatics := mkSessionStatics "" false.

(** What the function calls. *)
Inductive SessionCall :=
| Platform_GetCurrentMilliseconds
| srand (seed : Z)
| rand
| Platform_GetUniqueDeviceIdentifier
| Log (msg : string).

(** What the callees answer: the clock, the generator once it is seeded,
    and the platform. *)
Record SessionEnv := mkSessionEnv {
  current_milliseconds : millisecs_t;
  rand_after : Z -> Z;
  device_identifier : string
}.

(** [static_cast<unsigned int>] and [static_cast<uint32_t>]. *)
Definition to_uint32 (x : Z) : Z := x mod 2 ^ 32.

(** [std::to_string] of an unsigned value: its decimal digits. *)
Definition to_string (n : Z) : string :=
  DecimalString.NilEmpty.string_of_uint (N.to_uint (Z.to_N n)).

Definition session_warning : string :=
  "WARNING: session id longer than it should be.".

(** How a call ends: with the identifier, the statics and the calls it
    made, or with the process. *)
Inductive SessionResult :=
| SessionReturns (id : string) (st : SessionStatics)
    (calls : list SessionCall)
| SessionEnds (how : ProcessEnd) (calls : list SessionCall).

(** [auto GetUniqueSessionIdentifier() -> const std::string&].  With a
    null [g_platform], [assert(g_platform)] aborts when assertions are
    compiled in; without them the call through the pointer is the null
    dereference. *)
Definition GetUniqueSessionIdentifier (cfg : BuildConfig) (env : SessionEnv)
  (s : Globals) (st : SessionStatics) : SessionResult :=
  if negb (have_session_id st) then
    let seed := to_uint32 (current_milliseconds env) in
    let tval := to_uint32 (rand_after env seed) in
    let calls := [Platform_GetCurrentMilliseconds; srand seed; rand] in
    match g_platform s with
    | None =>
        SessionEnds (if asserts_enabled cfg then Abort else NullPointerFault)
          calls
    | Some _ =>
        let id := (device_identifier env ++ to_string tval)%string in
        SessionReturns id (mkSessionStatics id true)
          (calls ++ Platform_GetUniqueDeviceIdentifier
             :: if (100 <=? String.length id)%nat then [Log session_warning]
                else [])
    end
  else SessionReturns (session_id st) st [].

(** Successive calls: the identifiers returned and the calls made, as
    long as the process lives. *)
Fixpoint session_calls (cfg : BuildConfig)
  (asks : list (SessionEnv * Globals)) (st : SessionStatics)
  : list (string * list SessionCall) :=
  match asks with
  | [] => []
  | (env, s) :: rest =>
      match GetUniqueSessionIdentifier cfg env s st with
      | SessionReturns id st' calls =>
          (id, calls) :: session_calls cfg rest st'
      | SessionEnds _ _ => []
      end
  end.

Definition sample_session_env : SessionEnv :=
  mkSessionEnv 1700000000123 (fun seed => seed / 7) "device-1234-".

(** The globals once the platform exists. *)
Definition platform_ready : Globals :=
  set_g_platform (Some (mkPlatform false)) null_globals.

(** The same device later: another clock, another generator, and no
    platform any more. *)
Definition later_session_env : SessionEnv :=
  mkSessionEnv 1700000099999 (fun seed => seed + 1) "device-5678-".

(* ================================================================== *)
(** * Part 7: the clock tracker *)
(* ================================================================== *)

Unset Implicit Arguments.

Module Int64ClockFacts.
Import Int64Clock.


Lemma wrap_small x : in_range x -> wrap x = x.
Proof.
  unfold in_range, wrap, min_signed, max_signed. intros H.
  rewrite Z.mod_small; lia.
Qed.

(** The two clamps leave a delta between 0 and 250. *)
Lemma clamp_bounds d :
  0 <= (if d <? 0 then 0 else if d >? 250 then 250 else d) <= 250.
Proof.
  destruct (d <? 0) eqn:Hneg; [lia|].
  destruct (d >? 250) eqn:Hbig; [lia|].
  apply Z.ltb_ge in Hneg.
  rewrite Z.gtb_ltb in Hbig. apply Z.ltb_ge in Hbig. lia.
Qed.

End Int64ClockFacts.

Section Clock.

Import Int64Clock.

Implicit Types (t : millisecs_t) (g : AppGlobals).

Lemma real_time_set_clock rt last g : real_time (set_clock rt last g) = rt.
Proof. destruct g; reflexivity. Qed.

Lemma last_ticks_set_clock rt last g :
  last_real_time_ticks (set_clock rt last g) = last.
Proof. destruct g; reflexivity. Qed.

(** The value returned is the accumulator after the call. *)
Lemma GetRealTime_returns_accumulator t g :
  fst (GetRealTime t g) = real_time (snd (GetRealTime t g)).
Proof.
  unfold GetRealTime.
  destruct (negb (t =? last_real_time_ticks g)); reflexivity.
Qed.

(** Whatever the raw reading, one call moves an accumulator that has room
    for 250 forward by the clamped delta, which lies between 0 and 250. *)
Lemma GetRealTime_advance t g :
  min_signed <= real_time g <= max_signed - 250 ->
  real_time g <= fst (GetRealTime t g) <= real_time g + 250.
Proof.
  intros Hroom. unfold GetRealTime.
  destruct (negb (t =? last_real_time_ticks g)); cbn [fst]; [|lia].
  rewrite real_time_set_clock.
  pose proof (Int64ClockFacts.clamp_bounds
                (wrap (t - last_real_time_ticks g))) as Hd.
  rewrite Int64ClockFacts.wrap_small;
    unfold in_range, min_signed, max_signed in *; lia.
Qed.


Lemma GetRealTime_calls_cons t ticks g :
  GetRealTime_calls (t :: ticks) g
  = fst (GetRealTime t g) :: GetRealTime_calls ticks (snd (GetRealTime t g)).
Proof. cbn. destruct (GetRealTime t g); reflexivity. Qed.

Lemma GetRealTime_calls_length ticks g :
  length (GetRealTime_calls ticks g) = length ticks.
Proof.
  revert g; induction ticks as [|t ticks IH]; intros g; [reflexivity|].
  rewrite GetRealTime_calls_cons. cbn. now rewrite IH.
Qed.




(** The same on the spec's sample, by evaluation, as a check of the
    statement. *)
Example GetRealTime_monotone_sample :
  steps_within 250 (GetRealTime_calls sample_ticks sample_app_globals).
Proof.
  intros n Hn. cbn in Hn.
  destruct n as [|[|[|n]]]; cbn; lia.
Qed.

(** C4.  From the initial clock state (accumulator 0, last raw ticks 0)
    four calls that read the raw ticks 0, 100, 99, 5000 return 0, 100, 100
    and 350. *)
Theorem GetRealTime_sample_run g :
  initial_clock g ->
  GetRealTime_calls sample_ticks g = [0; 100; 100; 350].
Proof.
  intros [Hrt Hlast]. destruct g; cbn in Hrt, Hlast; subst.
  reflexivity.
Qed.

Lemma GetRealTime_sample_run_witness :
  initial_clock sample_app_globals /\
  GetRealTime_calls sample_ticks sample_app_globals = [0; 100; 100; 350].
Proof.
  split; [split; reflexivity|].
  apply (GetRealTime_sample_run sample_app_globals).
  split; reflexivity.
Defined.

(** In the sample the third delta is negative and the fourth is above
    the ceiling: these are the two clamps. *)
Example sample_negative_delta_clamped :
  let g2 := GetRealTime_state [0; 100] sample_app_globals in
  99 - last_real_time_ticks g2 = -1 /\
  fst (GetRealTime 99 g2) = real_time g2.
Proof. split; reflexivity. Qed.

Example sample_oversized_delta_clamped :
  let g3 := GetRealTime_state [0; 100; 99] sample_app_globals in
  5000 - last_real_time_ticks g3 = 4901 /\
  fst (GetRealTime 5000 g3) = real_time g3 + 250.
Proof. split; reflexivity. Qed.

End Clock.

(** ** The reading of the spec, and where the code agrees with it *)

Section ExactClock.

Import Int64Clock.

Implicit Types (t : Z) (g : AppGlobals).

Lemma GetRealTime_exact_returns_accumulator t g :
  fst (GetRealTime_exact t g) = real_time (snd (GetRealTime_exact t g)).
Proof.
  unfold GetRealTime_exact.
  destruct (negb (t =? last_real_time_ticks g)); reflexivity.
Qed.

Lemma GetRealTime_exact_advance t g :
  real_time g <= fst (GetRealTime_exact t g) <= real_time g + 250.
Proof.
  unfold GetRealTime_exact.
  destruct (negb (t =? last_real_time_ticks g)); cbn [fst]; [|lia].
  rewrite real_time_set_clock.
  pose proof (Int64ClockFacts.clamp_bounds (t - last_real_time_ticks g)).
  lia.
Qed.

Lemma GetRealTime_exact_calls_cons t ticks g :
  GetRealTime_exact_calls (t :: ticks) g
  = fst (GetRealTime_exact t g)
    :: GetRealTime_exact_calls ticks (snd (GetRealTime_exact t g)).
Proof. cbn. destruct (GetRealTime_exact t g); reflexivity. Qed.

(** On exact integers the sentence of the spec holds as it stands. *)
Lemma GetRealTime_exact_monotone_bounded (ticks : list Z) g :
  steps_within 250 (GetRealTime_exact_calls ticks g).
Proof.
  revert g. induction ticks as [|t ticks IH]; intros g n Hn.
  - cbn in Hn. lia.
  - rewrite GetRealTime_exact_calls_cons in *. cbn [length] in Hn.
    destruct n as [|n].
    + destruct ticks as [|u ticks]; [cbn in Hn; lia|].
      rewrite GetRealTime_exact_calls_cons. cbn [nth].
      rewrite GetRealTime_exact_returns_accumulator.
      pose proof (GetRealTime_exact_advance u
                    (snd (GetRealTime_exact t g))). lia.
    + cbn [nth]. apply IH. lia.
Qed.

(** While the subtraction of the raw ticks does not overflow and the
    accumulator has head-room, [GetRealTime] computes exactly what the
    spec describes. *)
Lemma GetRealTime_agrees t g :
  in_range (t - last_real_time_ticks g) ->
  0 <= real_time g <= max_signed - 250 ->
  GetRealTime t g = GetRealTime_exact t g.
Proof.
  intros Hsub Hroom. unfold GetRealTime, GetRealTime_exact.
  destruct (negb (t =? last_real_time_ticks g)); [|reflexivity].
  rewrite (Int64ClockFacts.wrap_small _ Hsub).
  pose proof (Int64ClockFacts.clamp_bounds (t - last_real_time_ticks g))
    as Hd.
  rewrite Int64ClockFacts.wrap_small; [reflexivity|].
  unfold in_range, min_signed, max_signed in *. lia.
Qed.

End ExactClock.

(* ================================================================== *)
(** * Part 8: the build-integrity classifier *)
(* ================================================================== *)

Section Classifier.

Implicit Types (cfg : BuildConfig) (s : Globals).

Lemma string_empty_spec (x : string) : string_empty x = true <-> x = "".
Proof. destruct x; cbn; split; congruence. Qed.

(** The function is the spec's ordered policy: the same verdict, decided
    by the same rule. *)
Lemma blessing_verdict_first_match cfg s :
  first_match policy (facts_of cfg s) = Some (blessing_verdict cfg s).
Proof.
  unfold blessing_verdict, facts_of, policy, first_match,
    rule1, rule2, rule3, rule4, rule5; cbn.
  destruct (debug_build cfg); [reflexivity|].
  destruct (ptr_and (g_app_globals s) user_ran_commands); [reflexivity|].
  destruct (ptr_and (g_platform s) using_custom_app_python_dir);
    [reflexivity|].
  destruct (blessing_hash cfg) as [hash|]; [|reflexivity].
  destruct (g_app_globals s) as [g|]; cbn; [|reflexivity].
  destruct (string_empty (calced_blessing_hash g)); cbn; [reflexivity|].
  now rewrite negb_involutive.
Qed.

(** What the last [return] computes. *)
Lemma hash_comparison_verdict cfg s hash :
  blessing_verdict cfg s = (RuleHashComparison, true) ->
  blessing_hash cfg = Some hash ->
  runtime_hash s = None \/ runtime_hash s = Some hash.
Proof.
  unfold blessing_verdict, runtime_hash.
  destruct (debug_build cfg); [discriminate|].
  destruct (ptr_and (g_app_globals s) user_ran_commands); [discriminate|].
  destruct (ptr_and (g_platform s) using_custom_app_python_dir);
    [discriminate|].
  destruct (blessing_hash cfg) as [h|]; [|discriminate].
  intros Hv Hh. injection Hh as ->. injection Hv as Hv.
  destruct (g_app_globals s) as [g|]; cbn in *; [|now left].
  destruct (string_empty (calced_blessing_hash g)); cbn in *; [now left|].
  right. apply negb_true_iff, negb_false_iff, String.eqb_eq in Hv.
  now rewrite Hv.
Qed.

(** C2.  [IsUnmodifiedBlessedBuild()] applies its rules in the fixed
    order debug build, developer commands run, custom scripting directory,
    no embedded hash, hash comparison, the first matching rule deciding:
    its verdict and the rule that gives it are those of the spec's ordered
    policy.  The first four rules answer false; the last one answers true
    exactly when the runtime hash equals the embedded one or has not been
    computed yet (it is empty, or the globals record does not exist
    yet). *)
Theorem IsUnmodifiedBlessedBuild_policy cfg s :
  first_match policy (facts_of cfg s) = Some (blessing_verdict cfg s)
  /\ (fst (blessing_verdict cfg s) <> RuleHashComparison ->
      IsUnmodifiedBlessedBuild cfg s = false)
  /\ (fst (blessing_verdict cfg s) = RuleHashComparison <->
      debug_build cfg = false
      /\ ptr_and (g_app_globals s) user_ran_commands = false
      /\ ptr_and (g_platform s) using_custom_app_python_dir = false
      /\ blessing_hash cfg <> None)
  /\ (forall hash,
        fst (blessing_verdict cfg s) = RuleHashComparison ->
        blessing_hash cfg = Some hash ->
        (IsUnmodifiedBlessedBuild cfg s = true <->
         runtime_hash s = Some hash \/ runtime_hash s = None)).
Proof.
  split; [apply blessing_verdict_first_match|].
  unfold IsUnmodifiedBlessedBuild, blessing_verdict, runtime_hash.
  destruct (debug_build cfg).
  { cbn. repeat split; try congruence; intros; intuition congruence. }
  destruct (ptr_and (g_app_globals s) user_ran_commands) eqn:Hcmd.
  { cbn. repeat split; try congruence; intros; intuition congruence. }
  destruct (ptr_and (g_platform s) using_custom_app_python_dir).
  { cbn. repeat split; try congruence; intros; intuition congruence. }
  destruct (blessing_hash cfg) as [h|].
  2:{ cbn. repeat split; try congruence; intros; intuition congruence. }
  cbn [fst snd]. split; [congruence|]. split.
  { split; intros; repeat split; congruence. }
  intros hash _ [= ->].
  destruct (g_app_globals s) as [g|]; cbn.
  2:{ split; auto. }
  destruct (string_empty (calced_blessing_hash g)) eqn:He; cbn.
  { split; auto. }
  rewrite negb_involutive, String.eqb_eq.
  split.
  - intros ->. now left.
  - intros [[= ->]|[=]]. reflexivity.
Qed.

(** The three cases section 8 of the spec lists. *)
Example blessed_before_hash_is_computed :
  IsUnmodifiedBlessedBuild
    (mkBuildConfig false false false (Some "abc"))
    (set_g_platform (Some (mkPlatform false))
       (set_g_app_globals (Some sample_app_globals) null_globals)) = true.
Proof. reflexivity. Qed.

Example unblessed_once_hash_differs :
  IsUnmodifiedBlessedBuild
    (mkBuildConfig false false false (Some "abc"))
    (set_g_app_globals
       (Some (mkAppGlobals true [] 1%nat 0 0 false "abd" 0)) null_globals)
  = false.
Proof. reflexivity. Qed.

Example debug_build_never_blessed s hash :
  IsUnmodifiedBlessedBuild (mkBuildConfig true false false hash) s = false.
Proof. reflexivity. Qed.

(** Without an embedded hash nothing is blessed. *)
Lemma unblessed_without_embedded_hash cfg s :
  blessing_hash cfg = None -> IsUnmodifiedBlessedBuild cfg s = false.
Proof.
  intros H. unfold IsUnmodifiedBlessedBuild, blessing_verdict. rewrite H.
  destruct (debug_build cfg); [reflexivity|].
  destruct (ptr_and (g_app_globals s) user_ran_commands); [reflexivity|].
  destruct (ptr_and (g_platform s) using_custom_app_python_dir);
    reflexivity.
Qed.

End Classifier.

(* ================================================================== *)
(** * Part 9: the thread-affinity predicates *)
(* ================================================================== *)

Section Affinity.

Implicit Types (p : AffinityPredicate) (cfg : BuildConfig) (s : Globals)
  (cur : os_thread_id).

(** A predicate never dereferences a null pointer. *)
Lemma run_predicate_total p cfg s cur :
  exists b, run_predicate p cfg s cur = Value b.
Proof.
  destruct p; cbn;
    unfold InGameThread, InMainThread, InGraphicsThread, InAudioThread,
      InBGDynamicsThread, InMediaThread, InNetworkWriteThread;
    try destruct (headless_build cfg); cbn;
    match goal with
    | |- context [ptr_andalso ?g _] => destruct g; cbn; eauto
    | _ => eauto
    end.
Qed.

(** Outside the headless case, a predicate with its global set compares
    the caller with the designated thread. *)
Lemma run_predicate_compares p cfg s cur t :
  designated_thread p s = Some t ->
  (p = PInBGDynamicsThread -> headless_build cfg = false) ->
  run_predicate p cfg s cur = Value (Nat.eqb cur t).
Proof.
  destruct p; cbn;
    unfold InGameThread, InMainThread, InGraphicsThread, InAudioThread,
      InBGDynamicsThread, InMediaThread, InNetworkWriteThread, IsCurrent;
    intros Hd Hh;
    try (rewrite Hh by reflexivity; cbn);
    match goal with
    | |- context [ptr_andalso ?g _] =>
        destruct g; cbn in *; [injection Hd as <-; reflexivity|discriminate]
    end.
Qed.

(** C8.  Each of [InGameThread], [InMainThread], [InGraphicsThread],
    [InAudioThread], [InMediaThread], [InNetworkWriteThread] and
    [InBGDynamicsThread] evaluates to a value without dereferencing a null
    pointer; it is true only if its global is set and the caller is the
    thread that global designates; it is false while its global is null;
    and [InBGDynamicsThread] is false on every headless build. *)
Theorem thread_affinity_predicates p cfg s cur :
  run_predicate p cfg s cur <> NullDereference
  /\ (run_predicate p cfg s cur = Value true ->
      designated_thread p s = Some cur)
  /\ (subsystem_missing p s = true ->
      run_predicate p cfg s cur = Value false)
  /\ (headless_build cfg = true ->
      InBGDynamicsThread cfg s cur = Value false).
Proof.
  repeat split.
  - destruct (run_predicate_total p cfg s cur) as [b ->]. discriminate.
  - destruct p; cbn;
      unfold InGameThread, InMainThread, InGraphicsThread, InAudioThread,
        InBGDynamicsThread, InMediaThread, InNetworkWriteThread, IsCurrent;
      try destruct (headless_build cfg); cbn; try discriminate;
      match goal with
      | |- context [ptr_andalso ?g _] =>
          destruct g; cbn; [|discriminate];
          intros [= H]; apply Nat.eqb_eq in H; now subst
      end.
  - unfold subsystem_missing.
    destruct p; cbn;
      unfold InGameThread, InMainThread, InGraphicsThread, InAudioThread,
        InBGDynamicsThread, InMediaThread, InNetworkWriteThread;
      try destruct (headless_build cfg); cbn; try reflexivity;
      match goal with
      | |- context [ptr_andalso ?g _] =>
          destruct g; cbn; [discriminate|reflexivity]
      end.
  - unfold InBGDynamicsThread. now intros ->.
Qed.

(** Before anything is constructed every predicate answers false, from
    any thread. *)
Example predicates_false_before_bootstrap p cfg cur :
  run_predicate p cfg null_globals cur = Value false.
Proof. destruct p; cbn; try reflexivity.
       unfold InBGDynamicsThread. now destruct (headless_build cfg). Qed.

End Affinity.

(* ================================================================== *)
(** * Part 10: the execution monad *)
(* ================================================================== *)

(** The classifier is used as a black box while programs are run. *)
Arguments IsUnmodifiedBlessedBuild : simpl never.
Arguments String.eqb : simpl never.
Arguments String.append : simpl never.

(** ** Symbolic execution *)

(** The scrutinee that blocks the evaluation of a term. *)
Ltac blocking_scrutinee t :=
  lazymatch t with
  | match ?x with _ => _ end => blocking_scrutinee x
  | _ => t
  end.

Ltac unfold_statements H :=
  unfold BallisticaMain, bootstrap_and_run, crash_test, provision_globals,
    phase2, phase3_4, top_level_handler, FatalError,
    ReportFatalError, HandleFatalError, new_AppGlobals_, Platform_Create_,
    new_Thread_, AddModule, register_module, CreateApp,
    CreateAuxiliaryModules, push_back_pausable_thread,
    assign_is_bootstrapped, call_on, try_catch, call, touched, assert,
    deref, gets, modify, log, exit, throw, bind, ret, if_then, if_then_else,
    if_pointer in H.

(** Runs the program on the left of [H : program = result] until it has
    finished, splitting on every decision of the world; after each split
    [close] gets the chance to discard the branch.  Branches whose outcome
    contradicts [result] are discarded at the end. *)
Ltac run_in H prepare close :=
  cbn in H; prepare;
  lazymatch type of H with
  | ?lhs = _ =>
      let h := blocking_scrutinee lhs in
      lazymatch h with
      | Normal _ _ _ => try discriminate H
      | Raised _ _ _ => try discriminate H
      | Ended _ _ _ => try discriminate H
      | _ => destruct h eqn:?;
             first [solve [close] | run_in H prepare close]
      end
  end.

Ltac run H := run_in H idtac fail.

(** Discards a branch in which the world contradicts what is assumed of
    it. *)
Ltac contradict_world :=
  idtac;
  match goal with
  | H : Some _ = None |- _ => discriminate H
  | E : raises ?w ?c = Some _, H : raises ?w ?c = None |- _ =>
      rewrite H in E; discriminate E
  | E : raises ?w _ = Some _, H : forall c, raises ?w c = None |- _ =>
      rewrite H in E; discriminate E
  | E : raises ?w _ = Some _,
    H : forall m b, raises ?w (FatalError_ReportFatalError m b) = None |- _ =>
      rewrite H in E; discriminate E
  | E : raises ?w _ = Some _,
    H : forall e b, raises ?w (FatalError_HandleFatalError e b) = None |- _ =>
      rewrite H in E; discriminate E
  | E : raises ?w ?c = Some OtherException,
    H : forall c, raises ?w c <> Some OtherException |- _ =>
      exact (False_ind _ (H c E))
  | E : (?x =? "1")%string = true, N : Some ?x <> Some "1" |- _ =>
      apply String.eqb_eq in E; subst x; contradiction
  end.

(** ** Traces only grow *)

Section Emits.

Variable w : World.
Variable class : Entry -> bool.

Lemma emits_nothing {A : Type} (m : M A) :
  (forall s tr, trace (m s tr) = tr) -> emits class m.
Proof.
  intros H s tr. exists []. now rewrite H, app_nil_r.
Qed.

Lemma emits_ret {A : Type} (a : A) : emits class (ret a).
Proof. now apply emits_nothing. Qed.

Lemma emits_gets {A : Type} (f : Globals -> A) : emits class (gets f).
Proof. now apply emits_nothing. Qed.

Lemma emits_modify f : emits class (modify f).
Proof. now apply emits_nothing. Qed.

Lemma emits_deref {A : Type} (p : Globals -> option A) :
  emits class (deref p).
Proof.
  apply emits_nothing. intros s tr. unfold deref. now destruct (p s).
Qed.

Lemma emits_exit {A : Type} code : emits class (@exit A code).
Proof. now apply emits_nothing. Qed.

Lemma emits_throw {A : Type} e : emits class (@throw A e).
Proof. now apply emits_nothing. Qed.

Lemma emits_assert b : emits class (assert w b).
Proof.
  apply emits_nothing. intros s tr. unfold assert.
  now destruct (asserts_enabled (build w) && negb b).
Qed.

Lemma emits_call c :
  (forall stamp, class (mkEntry (Called c) stamp) = true) ->
  emits class (call w c).
Proof.
  intros Hc s tr. exists [mkEntry (Called c) (bootstrapped_now s)].
  unfold call. split; [now destruct (raises w c)|].
  cbn. now rewrite Hc.
Qed.

Lemma emits_log e :
  (forall stamp, class (mkEntry e stamp) = true) -> emits class (log e).
Proof.
  intros He s tr. exists [mkEntry e (bootstrapped_now s)].
  split; [reflexivity|]. cbn. now rewrite He.
Qed.

Lemma emits_bind {A B : Type} (m : M A) (k : A -> M B) :
  emits class m -> (forall a, emits class (k a)) -> emits class (bind m k).
Proof.
  intros Hm Hk s tr. unfold bind.
  destruct (Hm s tr) as (ext1 & H1 & Hok1).
  destruct (m s tr) as [a s' tr'| |]; cbn in H1; subst;
    [|exists ext1; now split..].
  destruct (Hk a s' (tr ++ ext1)) as (ext2 & H2 & Hok2).
  exists (ext1 ++ ext2). rewrite H2, app_assoc. split; [reflexivity|].
  rewrite forallb_app. now rewrite Hok1, Hok2.
Qed.

(** What follows [gets f] only needs to behave for the values [f] can
    yield. *)
Lemma emits_bind_gets {A B : Type} (f : Globals -> A) (k : A -> M B) :
  (forall s, emits class (k (f s))) -> emits class (bind (gets f) k).
Proof. intros Hk s tr. unfold bind, gets. apply Hk. Qed.

Lemma emits_try_catch {A : Type} (body : M A) handle :
  emits class body -> (forall what, emits class (handle what)) ->
  emits class (try_catch body handle).
Proof.
  intros Hb Hh s tr. unfold try_catch.
  destruct (Hb s tr) as (ext1 & H1 & Hok1).
  destruct (body s tr) as [a s' tr'|[what|] s' tr'|]; cbn in H1; subst;
    [exists ext1; now split| |exists ext1; now split..].
  destruct (Hh what s' (tr ++ ext1)) as (ext2 & H2 & Hok2).
  exists (ext1 ++ ext2). rewrite H2, app_assoc. split; [reflexivity|].
  rewrite forallb_app. now rewrite Hok1, Hok2.
Qed.

Lemma emits_if_then b m : emits class m -> emits class (if_then b m).
Proof.
  intros Hm s tr. unfold if_then. destruct b; [apply Hm|].
  exists []. now rewrite app_nil_r.
Qed.

Lemma emits_if_then_else {A : Type} b (m1 m2 : M A) :
  emits class m1 -> emits class m2 -> emits class (if_then_else b m1 m2).
Proof.
  intros H1 H2 s tr. unfold if_then_else. destruct b; [apply H1|apply H2].
Qed.

Lemma emits_if_pointer {A : Type} (p : option A) m :
  (forall a, emits class (m a)) -> emits class (if_pointer p m).
Proof.
  intros Hm s tr. unfold if_pointer. destruct p; [apply Hm|].
  exists []. now rewrite app_nil_r.
Qed.

Lemma emits_HandleFatalError exit_cleanly top :
  (forall stamp,
      class (mkEntry (Called (FatalError_HandleFatalError exit_cleanly top))
               stamp) = true) ->
  emits class (HandleFatalError w exit_cleanly top).
Proof.
  intros Hc. unfold HandleFatalError. apply emits_bind.
  - now apply emits_call.
  - intros _. apply emits_nothing. intros s tr.
    now destruct (handler w exit_cleanly top).
Qed.

End Emits.

Create HintDb emits.

#[local] Hint Resolve emits_ret emits_gets emits_modify emits_deref
  emits_exit emits_throw emits_assert emits_call emits_log emits_bind
  emits_try_catch emits_if_then emits_if_then_else emits_if_pointer
  emits_HandleFatalError : emits.
#[local] Hint Extern 1 (_ = true) => reflexivity : emits.

(** Proves [emits class m] for a statement or a block of the program. *)
Ltac emits_block :=
  unfold BallisticaMain, bootstrap_and_run, crash_test, provision_globals,
    phase2, phase3_4, top_level_handler, FatalError,
    ReportFatalError, new_AppGlobals_, Platform_Create_, new_Thread_,
    AddModule, register_module, CreateApp, CreateAuxiliaryModules,
    push_back_pausable_thread, assign_is_bootstrapped, call_on;
  repeat first
    [ apply emits_HandleFatalError | apply emits_call | apply emits_log
    | apply emits_ret | apply emits_gets | apply emits_modify
    | apply emits_deref | apply emits_exit | apply emits_throw
    | apply emits_assert | apply emits_try_catch | apply emits_if_then_else
    | apply emits_if_then | apply emits_if_pointer | apply emits_bind
    | lazymatch goal with |- forall _, _ => intro end
    | reflexivity ].

Section Classes.

Variable w : World.

Lemma crash_test_quiet : emits quiet_class (crash_test w).
Proof. emits_block. Qed.

Lemma provision_before : emits before_class (provision_globals w).
Proof. emits_block; destruct m; emits_block. Qed.

Lemma phase3_4_quiet : emits quiet_class (phase3_4 w).
Proof. emits_block. Qed.

Lemma top_level_handler_quiet what :
  emits quiet_class (top_level_handler w what).
Proof. emits_block. Qed.


End Classes.

(* ================================================================== *)
(** * Part 11: order of the bootstrap *)
(* ================================================================== *)

Section Order.

Variable w : World.

Lemma is_bootstrapped_set_is_bootstrapped b g :
  is_bootstrapped (set_is_bootstrapped b g) = b.
Proof. destruct g; reflexivity. Qed.

Lemma forallb_weaken {A : Type} (p q : A -> bool) l :
  (forall x, p x = true -> q x = true) ->
  forallb p l = true -> forallb q l = true.
Proof.
  intros Hpq. rewrite !forallb_forall. auto.
Qed.

Lemma quiet_is_before e : quiet_class e = true -> before_class e = true.
Proof.
  unfold quiet_class, before_class.
  destruct (is_thread_or_module (event e)),
    (is_bootstrapped_set (event e)),
    (is_cross_thread_message (event e)); cbn; congruence.
Qed.

Lemma quiet_is_after e : quiet_class e = true -> after_class e = true.
Proof.
  unfold quiet_class, after_class.
  destruct (is_thread_or_module (event e)),
    (is_bootstrapped_set (event e)),
    (is_cross_thread_message (event e)); cbn; congruence.
Qed.

Lemma ordered_app_quiet tr ext :
  ordered tr -> forallb quiet_class ext = true -> ordered (tr ++ ext).
Proof.
  intros [Hb|(pre & flag & aft & -> & Hpre & Hall & Hflag & Haft)] Hq.
  - left. rewrite forallb_app, Hb.
    now apply (forallb_weaken _ _ _ quiet_is_before).
  - right. exists pre, flag, (aft ++ ext).
    rewrite <- app_assoc. cbn [List.app]. repeat split; auto.
    rewrite forallb_app, Haft.
    now apply (forallb_weaken _ _ _ quiet_is_after).
Qed.

(** A quiet computation keeps any trace ordered. *)
Lemma quiet_keeps_ordered {A : Type} (m : M A) s tr :
  emits quiet_class m -> ordered tr -> ordered (trace (m s tr)).
Proof.
  intros Hm Ho. destruct (Hm s tr) as (ext & -> & Hq).
  now apply ordered_app_quiet.
Qed.

(** The trace of [m ;; k], by cases on how [m] ends. *)
Lemma trace_bind_cases {A B : Type} (P : Trace -> Prop)
  (m : M A) (k : A -> M B) s tr :
  (forall a s' tr', m s tr = Normal a s' tr' -> P (trace (k a s' tr'))) ->
  ((forall a s' tr', m s tr <> Normal a s' tr') -> P (trace (m s tr))) ->
  P (trace (bind m k s tr)).
Proof.
  intros Hn Hx. unfold bind.
  destruct (m s tr) as [a s' tr'|e s' tr'|how s' tr'] eqn:Hm.
  - now apply Hn.
  - apply Hx. congruence.
  - apply Hx. congruence.
Qed.

(** From the assignment on: the flag is set, then the message goes out
    with the flag true, and nothing is created any more. *)
Lemma after_provisioning_ordered s tr :
  forallb before_class tr = true ->
  incl creation_events (map event tr) ->
  ordered (trace ((bind (assign_is_bootstrapped true) (fun _ =>
                   bind (phase2 w) (fun _ => phase3_4 w))) s tr)).
Proof.
  intros Hb Hall.
  remember (bind _ _ s tr) as r eqn:Hr. symmetry in Hr.
  destruct s as [mt [g|] ap acc ut game bg pf gs ms aus nw];
    unfold_statements Hr; run Hr; subst r; cbn [trace];
    rewrite <- ?app_assoc; cbn [List.app];
    try (left; assumption);
    right; eexists tr, _, _; (split; [reflexivity|]);
    cbn; rewrite ?is_bootstrapped_set_is_bootstrapped; auto.
Qed.

Lemma emits_normal {A : Type} class (m : M A) s tr a s' tr' :
  emits class m -> m s tr = Normal a s' tr' ->
  exists ext, tr' = tr ++ ext /\ forallb class ext = true.
Proof.
  intros Hm Hn. destruct (Hm s tr) as (ext & Ht & Hc).
  rewrite Hn in Ht. eauto.
Qed.

(** When phase 1 runs to its end it has made exactly its calls, in the
    order of the text. *)
Lemma provision_globals_complete s tr a s' tr' :
  provision_globals w s tr = Normal a s' tr' ->
  map event tr' = map event tr ++ map Called provisioning_calls.
Proof.
  intros H. unfold_statements H. run H.
  all: injection H as _ _ <-.
  all: rewrite <- ?app_assoc, map_app; reflexivity.
Qed.

Lemma bootstrap_and_run_ordered s tr :
  forallb before_class tr = true ->
  ordered (trace (bootstrap_and_run w s tr)).
Proof.
  intros Hb. unfold bootstrap_and_run.
  apply trace_bind_cases.
  - intros a0 s0 tr0 H0.
    destruct (emits_normal _ _ _ _ _ _ _ (crash_test_quiet w) H0)
      as (ext0 & -> & Hq0).
    assert (Hb0 : forallb before_class (tr ++ ext0) = true).
    { rewrite forallb_app, Hb.
      now apply (forallb_weaken _ _ _ quiet_is_before). }
    apply trace_bind_cases.
    + intros a1 s1 tr1 H1.
      destruct (emits_normal _ _ _ _ _ _ _ (provision_before w) H1)
        as (ext1 & E1 & Hq1).
      apply after_provisioning_ordered.
      * subst tr1. now rewrite forallb_app, Hb0.
      * rewrite (provision_globals_complete _ _ _ _ _ H1).
        unfold creation_events. intros e He.
        apply in_or_app. right. now apply filter_In in He.
    + intros _. left.
      destruct (provision_before w s0 (tr ++ ext0)) as (ext1 & -> & Hq1).
      now rewrite forallb_app, Hb0.
  - intros _. left.
    destruct (crash_test_quiet w s tr) as (ext0 & -> & Hq0).
    rewrite forallb_app, Hb.
    now apply (forallb_weaken _ _ _ quiet_is_before).
Qed.

Lemma exit_main_quiet :
  emits quiet_class
    (bind (call_on w g_platform (Platform_WillExitMain false)) (fun _ =>
     bind (deref g_app_globals) (fun g => ret (return_value g)))).
Proof. emits_block. Qed.

(** Every run of [BallisticaMain] leaves an ordered trace. *)
Lemma run_ordered : ordered (trace (run w)).
Proof.
  unfold run, BallisticaMain.
  assert (Htry : forall s,
             ordered (trace (try_catch (bootstrap_and_run w)
                               (top_level_handler w) s []))).
  { intros s. unfold try_catch.
    pose proof (bootstrap_and_run_ordered s [] eq_refl) as Ho.
    destruct (bootstrap_and_run w s []) as [a s' tr'|[what|] s' tr'|];
      cbn [trace] in *; auto.
    now apply quiet_keeps_ordered; [apply top_level_handler_quiet|]. }
  apply trace_bind_cases.
  - intros a s' tr' Hn. specialize (Htry null_globals).
    rewrite Hn in Htry.
    now apply quiet_keeps_ordered; [apply exit_main_quiet|].
  - intros _. apply Htry.
Qed.

End Order.

Section Splits.

Context {A : Type} (p : A -> bool).

(** The one element of a kind is found where it is. *)
Lemma split_at_unique pre f aft l1 x l2 :
  pre ++ f :: aft = l1 ++ x :: l2 ->
  forallb (fun y => negb (p y)) pre = true ->
  forallb (fun y => negb (p y)) aft = true ->
  p x = true ->
  l1 = pre /\ x = f /\ l2 = aft.
Proof.
  revert l1. induction pre as [|y pre IH]; intros l1 E Hpre Haft Hx.
  - destruct l1 as [|z l1]; cbn in E.
    + injection E as -> ->. auto.
    + injection E as -> ->. rewrite forallb_app in Haft. cbn in Haft.
      rewrite Hx in Haft. cbn in Haft.
      now rewrite andb_false_r in Haft.
  - cbn in Hpre. apply andb_prop in Hpre as [Hy Hpre].
    destruct l1 as [|z l1]; cbn in E.
    + injection E as -> _. rewrite Hx in Hy. discriminate.
    + injection E as -> E.
      destruct (IH l1 E Hpre Haft Hx) as (-> & -> & ->). auto.
Qed.

(** An element of a kind that does not occur up to [f] lies behind
    [f]. *)
Lemma split_behind pre f aft l1 x l2 :
  pre ++ f :: aft = l1 ++ x :: l2 ->
  forallb (fun y => negb (p y)) pre = true ->
  p f = false ->
  p x = true ->
  exists mid, l1 = pre ++ f :: mid /\ aft = mid ++ x :: l2.
Proof.
  revert l1. induction pre as [|y pre IH]; intros l1 E Hpre Hf Hx.
  - destruct l1 as [|z l1]; cbn in E.
    + injection E as -> _. congruence.
    + injection E as -> ->. now exists l1.
  - cbn in Hpre. apply andb_prop in Hpre as [Hy Hpre].
    destruct l1 as [|z l1]; cbn in E.
    + injection E as -> _. rewrite Hx in Hy. discriminate.
    + injection E as -> E.
      destruct (IH l1 E Hpre Hf Hx) as (mid & -> & ->). now exists mid.
Qed.

End Splits.

Section OrderTheorem.

Variable w : World.

Lemma before_not_flag l :
  forallb before_class l = true ->
  forallb (fun e => negb (is_bootstrapped_set (event e))) l = true.
Proof.
  apply forallb_weaken. unfold before_class. intros e H.
  now apply andb_prop in H.
Qed.

Lemma before_not_message l :
  forallb before_class l = true ->
  forallb (fun e => negb (is_cross_thread_message (event e))) l = true.
Proof.
  apply forallb_weaken. unfold before_class. intros e H.
  now apply andb_prop in H.
Qed.

Lemma after_not_flag l :
  forallb after_class l = true ->
  forallb (fun e => negb (is_bootstrapped_set (event e))) l = true.
Proof.
  apply forallb_weaken. unfold after_class. intros e H.
  apply andb_prop in H as [H _]. now apply andb_prop in H.
Qed.

Lemma forallb_negb_In {A : Type} (p : A -> bool) l x :
  forallb (fun y => negb (p y)) l = true -> In x l -> p x = false.
Proof.
  rewrite forallb_forall. intros H Hin. now apply negb_true_iff, H.
Qed.

(** C6.  In every run of [BallisticaMain], wherever [is_bootstrapped] is
    set to true, every thread creation and module attachment of phase 1
    (the five [Thread]s, the five [AddModule]s and the platform's
    auxiliary modules) has been made before, none is made after, and no
    cross-thread message has been sent before; and wherever a
    cross-thread message is sent (the apply-configuration call pushed to
    the game thread), [is_bootstrapped] is true at that moment and its
    assignment lies earlier in the run. *)
Theorem bootstrap_order :
  (forall l1 flag l2,
      trace (run w) = l1 ++ flag :: l2 ->
      event flag = Assigned_is_bootstrapped true ->
      incl creation_events (map event l1)
      /\ (forall e, In e l1 -> is_cross_thread_message (event e) = false)
      /\ (forall e, In e l2 -> is_thread_or_module (event e) = false))
  /\ (forall l1 msg l2,
        trace (run w) = l1 ++ msg :: l2 ->
        is_cross_thread_message (event msg) = true ->
        bootstrapped_then msg = true
        /\ exists flag,
             In flag l1 /\ event flag = Assigned_is_bootstrapped true).
Proof.
  destruct (run_ordered w)
    as [Hb|(pre & f & aft & E & Hpre & Hall & Hf & Haft)].
  - (* the run ended before the assignment *)
    split.
    + intros l1 flag l2 E Hflag. exfalso.
      assert (Hin : In flag (trace (run w)))
        by (rewrite E; apply in_elt).
      apply (forallb_negb_In (fun e => is_bootstrapped_set (event e)))
        with (x := flag) in Hin; [|now apply before_not_flag].
      rewrite Hflag in Hin. discriminate.
    + intros l1 msg l2 E Hmsg. exfalso.
      assert (Hin : In msg (trace (run w)))
        by (rewrite E; apply in_elt).
      apply (forallb_negb_In
               (fun e => is_cross_thread_message (event e)))
        with (x := msg) in Hin; [|now apply before_not_message].
      congruence.
  - rewrite E. split.
    + intros l1 flag l2 E' Hflag.
      destruct (split_at_unique
                  (fun e => is_bootstrapped_set (event e))
                  pre f aft l1 flag l2 E')
        as (-> & -> & ->).
      * now apply before_not_flag.
      * now apply after_not_flag.
      * now rewrite Hflag.
      * split; [assumption|]. split.
        -- intros e He.
           now apply (forallb_negb_In
                        (fun e => is_cross_thread_message (event e)) pre);
             [apply before_not_message|].
        -- intros e He. rewrite forallb_forall in Haft.
           specialize (Haft e He). unfold after_class in Haft.
           apply andb_prop in Haft as [Haft _].
           apply andb_prop in Haft as [Haft _].
           now apply negb_true_iff.
    + intros l1 msg l2 E' Hmsg.
      destruct (split_behind
                  (fun e => is_cross_thread_message (event e))
                  pre f aft l1 msg l2 E')
        as (mid & -> & ->).
      * now apply before_not_message.
      * now rewrite Hf.
      * assumption.
      * split.
        -- rewrite forallb_forall in Haft.
           specialize (Haft msg (in_elt _ _ _)). unfold after_class in Haft.
           apply andb_prop in Haft as [_ Haft].
           now rewrite Hmsg in Haft.
        -- exists f. split; [apply in_elt|assumption].
Qed.

End OrderTheorem.

(* ================================================================== *)
(** * Part 12: what the phases leave in the globals *)
(* ================================================================== *)

Section States.

Variable w : World.

(** After phase 1 every global of the file that [BallisticaMain] uses is
    set: the modules sit on their threads, the graphics server on the
    main thread. *)
Lemma provision_globals_establishes s tr a s' tr' :
  provision_globals w s tr = Normal a s' tr' ->
  g_app s' = Some (the_app w)
  /\ g_platform s' = Some (the_platform w)
  /\ g_main_thread s' = Some (mkThread kMain kMainType (os_thread w kMain))
  /\ g_app_globals s' <> None
  /\ g_game s'
     = Some (mkModule (mkThread kGame kStandard (os_thread w kGame)))
  /\ g_graphics_server s'
     = Some (mkModule (mkThread kMain kMainType (os_thread w kMain))).
Proof.
  intros H. unfold_statements H. run H.
  all: injection H as _ <- _; cbn; repeat split; discriminate.
Qed.

(** The assignment of the flag and phase 2 leave the pointers alone. *)
Lemma assign_is_bootstrapped_preserves b s tr a s' tr' :
  assign_is_bootstrapped b s tr = Normal a s' tr' ->
  g_app s' = g_app s /\ g_platform s' = g_platform s
  /\ g_main_thread s' = g_main_thread s /\ g_app_globals s' <> None.
Proof.
  intros H. destruct s. unfold_statements H. run H.
  injection H as _ <- _; cbn; repeat split; discriminate.
Qed.

Lemma phase2_preserves s tr a s' tr' :
  phase2 w s tr = Normal a s' tr' ->
  g_app_globals s <> None ->
  g_app s' = g_app s /\ g_platform s' = g_platform s
  /\ g_main_thread s' = g_main_thread s /\ g_app_globals s' <> None.
Proof.
  intros H Hg. destruct s as [mt [g|] ap acc ut game bg pf gs ms aus nw];
    [|now cbn in Hg].
  unfold_statements H. run H.
  injection H as _ <- _; cbn; repeat split; discriminate.
Qed.

End States.

(* ================================================================== *)
(** * Part 13: the steady-state branch *)
(* ================================================================== *)

Section SteadyState.

Variable w : World.

Lemma steady_state_calls_app tr ext :
  steady_state_calls (tr ++ ext)
  = steady_state_calls tr ++ steady_state_calls ext.
Proof. unfold steady_state_calls. now rewrite map_app, filter_app. Qed.

Lemma steady_state_calls_none ext :
  forallb no_steady_state_class ext = true -> steady_state_calls ext = [].
Proof.
  unfold steady_state_calls, no_steady_state_class.
  induction ext as [|e ext IH]; cbn; [reflexivity|].
  intros H. apply andb_prop in H as [He H].
  apply negb_true_iff in He. rewrite He. auto.
Qed.

(** A computation outside the steady-state phase leaves the
    steady-state calls of the trace as they are. *)
Lemma steady_state_calls_kept {A : Type} (m : M A) s tr :
  emits no_steady_state_class m ->
  steady_state_calls (trace (m s tr)) = steady_state_calls tr.
Proof.
  intros Hm. destruct (Hm s tr) as (ext & -> & Hc).
  now rewrite steady_state_calls_app, (steady_state_calls_none ext Hc),
    app_nil_r.
Qed.

Lemma crash_test_no_steady_state :
  emits no_steady_state_class (crash_test w).
Proof. emits_block. Qed.

Lemma provision_no_steady_state :
  emits no_steady_state_class (provision_globals w).
Proof. emits_block; destruct m; emits_block. Qed.

Lemma assign_no_steady_state b :
  emits no_steady_state_class (assign_is_bootstrapped b).
Proof. emits_block. Qed.

Lemma phase2_no_steady_state : emits no_steady_state_class (phase2 w).
Proof. emits_block. Qed.

Lemma top_level_handler_no_steady_state what :
  emits no_steady_state_class (top_level_handler w what).
Proof. emits_block. Qed.

Lemma exit_main_no_steady_state :
  emits no_steady_state_class
    (bind (call_on w g_platform (Platform_WillExitMain false)) (fun _ =>
     bind (deref g_app_globals) (fun g => ret (return_value g)))).
Proof. emits_block. Qed.

Lemma phase3_4_steady_state s tr :
  g_app s = Some (the_app w) ->
  g_main_thread s <> None ->
  steady_state_calls tr = [] ->
  steady_state_outcome w
    (steady_state_calls (trace (phase3_4 w s tr))).
Proof.
  intros Happ Hmain Htr.
  remember (phase3_4 w s tr) as r eqn:Hr. symmetry in Hr.
  destruct s as [[mt|] g ap acc ut game bg pf gs ms aus nw];
    [|now cbn in Hmain].
  cbn in Happ. subst ap.
  unfold steady_state_outcome, steady_state_branch.
  unfold_statements Hr. run Hr; subst r; cbn [trace];
    rewrite ?steady_state_calls_app, Htr; cbn;
    try (right; left; split; [reflexivity|congruence]);
    (right; right; split; [reflexivity|congruence]).
Qed.

End SteadyState.

Section SteadyStateTheorem.

Variable w : World.

Lemma bootstrap_and_run_steady_state s tr :
  steady_state_calls tr = [] ->
  steady_state_outcome w
    (steady_state_calls (trace (bootstrap_and_run w s tr))).
Proof.
  intros Htr. unfold bootstrap_and_run.
  assert (Hkept : forall {A : Type} (m : M A) s0 tr0,
             emits no_steady_state_class m ->
             steady_state_calls tr0 = [] ->
             steady_state_outcome w (steady_state_calls (trace (m s0 tr0)))).
  { intros A m s0 tr0 Hm H0. left.
    now rewrite (steady_state_calls_kept m s0 tr0 Hm). }
  assert (Hnormal : forall {A : Type} (m : M A) s0 tr0 a s1 tr1,
             emits no_steady_state_class m ->
             steady_state_calls tr0 = [] ->
             m s0 tr0 = Normal a s1 tr1 ->
             steady_state_calls tr1 = []).
  { intros A m s0 tr0 a s1 tr1 Hm H0 Hn.
    pose proof (steady_state_calls_kept m s0 tr0 Hm) as Hk.
    rewrite Hn in Hk. cbn [trace] in Hk. congruence. }
  apply trace_bind_cases;
    [|intros _; now apply Hkept; [apply crash_test_no_steady_state|]].
  intros a0 s0 tr0 H0.
  pose proof (Hnormal _ _ _ _ _ _ _
                (crash_test_no_steady_state w) Htr H0) as Htr0.
  apply trace_bind_cases;
    [|intros _; now apply Hkept; [apply provision_no_steady_state|]].
  intros a1 s1 tr1 H1.
  pose proof (Hnormal _ _ _ _ _ _ _
                (provision_no_steady_state w) Htr0 H1) as Htr1.
  destruct (provision_globals_establishes w _ _ _ _ _ H1)
    as (Happ & Hpf & Hmain & Hg & _).
  apply trace_bind_cases;
    [|intros _; now apply Hkept; [apply assign_no_steady_state|]].
  intros a2 s2 tr2 H2.
  pose proof (Hnormal _ _ _ _ _ _ _
                (assign_no_steady_state true) Htr1 H2) as Htr2.
  destruct (assign_is_bootstrapped_preserves _ _ _ _ _ _ H2)
    as (Happ2 & _ & Hmain2 & Hg2).
  apply trace_bind_cases;
    [|intros _; now apply Hkept; [apply phase2_no_steady_state|]].
  intros a3 s3 tr3 H3.
  pose proof (Hnormal _ _ _ _ _ _ _
                (phase2_no_steady_state w) Htr2 H3) as Htr3.
  destruct (phase2_preserves w _ _ _ _ _ H3 Hg2)
    as (Happ3 & _ & Hmain3 & _).
  apply phase3_4_steady_state; congruence.
Qed.

Lemma run_steady_state :
  steady_state_outcome w (steady_state_calls (trace (run w))).
Proof.
  unfold run, BallisticaMain.
  assert (Htry : steady_state_outcome w
                   (steady_state_calls
                      (trace (try_catch (bootstrap_and_run w)
                                (top_level_handler w) null_globals [])))).
  { unfold try_catch.
    pose proof (bootstrap_and_run_steady_state null_globals [] eq_refl)
      as Hb.
    destruct (bootstrap_and_run w null_globals [])
      as [a s' tr'|[what|] s' tr'|]; cbn [trace] in *; auto.
    now rewrite steady_state_calls_kept
      by apply top_level_handler_no_steady_state. }
  apply (trace_bind_cases
           (fun tr => steady_state_outcome w (steady_state_calls tr))).
  - intros a s' tr' Hn. rewrite Hn in Htry. cbn [trace] in Htry.
    now rewrite steady_state_calls_kept
      by apply exit_main_no_steady_state.
  - intros _. apply Htry.
Qed.

Lemma count_steady_state (kind : Event -> bool) tr :
  (forall e, kind e = true -> is_steady_state e = true) ->
  count kind (map event tr) = count kind (steady_state_calls tr).
Proof.
  intros Hk. unfold count, steady_state_calls.
  induction (map event tr) as [|e l IH]; cbn; [reflexivity|].
  destruct (kind e) eqn:He.
  - rewrite (Hk e He). cbn. rewrite He. cbn. now rewrite IH.
  - destruct (is_steady_state e); cbn; [rewrite He|]; exact IH.
Qed.

Lemma event_loop_is_steady_state e :
  is_event_loop e = true -> is_steady_state e = true.
Proof. now destruct e as [[]|]. Qed.

Lemma prime_event_pump_is_steady_state e :
  is_prime_event_pump e = true -> is_steady_state e = true.
Proof. now destruct e as [[]|]. Qed.

(** C7.  In every run of [BallisticaMain] at most one of the two
    steady-state branches is taken, and which one is fixed by the
    application's [UsesEventLoop()]: when it is true [PrimeEventPump()]
    is never called, when it is false the event loop is never entered;
    and once the query [UsesEventLoop()] has been made and has returned,
    the selected branch is taken exactly once (the main thread enters
    its event loop once, or [PrimeEventPump()] is called once) and the
    other not at all. *)
Theorem steady_state_one_branch :
  let calls := events (run w) in
  (UsesEventLoop (the_app w) = true ->
   count is_prime_event_pump calls = 0%nat
   /\ (count is_event_loop calls <= 1)%nat)
  /\ (UsesEventLoop (the_app w) = false ->
      count is_event_loop calls = 0%nat
      /\ (count is_prime_event_pump calls <= 1)%nat)
  /\ (In (Called App_UsesEventLoop) calls ->
      raises w App_UsesEventLoop = None ->
      if UsesEventLoop (the_app w)
      then count is_event_loop calls = 1%nat
           /\ count is_prime_event_pump calls = 0%nat
      else count is_prime_event_pump calls = 1%nat
           /\ count is_event_loop calls = 0%nat).
Proof.
  cbn zeta. unfold events.
  rewrite !(count_steady_state is_event_loop _ event_loop_is_steady_state).
  rewrite !(count_steady_state is_prime_event_pump _
              prime_event_pump_is_steady_state).
  assert (Hin : In (Called App_UsesEventLoop) (map event (trace (run w))) ->
                In (Called App_UsesEventLoop)
                  (steady_state_calls (trace (run w)))).
  { intros H. apply filter_In. now split. }
  destruct run_steady_state as [E|[[E Hr]|[E Hr]]]; rewrite E in *;
    unfold steady_state_branch; clear E.
  - repeat split; cbn; try lia. intros H. now apply Hin in H.
  - repeat split; cbn; try lia. intros _ H. congruence.
  - destruct (UsesEventLoop (the_app w)); cbn;
      repeat split; try lia; congruence.
Qed.

End SteadyStateTheorem.

(* ================================================================== *)
(** * Part 14: the fatal-error protocol *)
(* ================================================================== *)

Section ExitDecision.

Variable w : World.

(** The [catch] block when the handle step does not intercept. *)
Lemma top_level_handler_decision what s tr :
  let exit_cleanly :=
    negb (IsUnmodifiedBlessedBuild (build w) (state_at_decision w what s))
  in
  raises w (FatalError_ReportFatalError (unhandled_prefix ++ what) true)
  = None ->
  raises w (FatalError_HandleFatalError exit_cleanly true) = None ->
  handler w exit_cleanly true = Handled false ->
  fate (top_level_handler w what s tr)
  = if exit_cleanly then ProcessEnds (Exit 1)
    else Rethrows (StdException what).
Proof.
  cbn zeta. intros Hrep Hcall Hh.
  remember (top_level_handler w what s tr) as r eqn:Hr. symmetry in Hr.
  unfold_statements Hr.
  unfold state_at_decision, touched, unhandled_prefix in *.
  cbn in Hrep, Hcall, Hh.
  run_in Hr idtac
    ltac:(try (injection Hh as ->); cbn in *; congruence);
    subst r; reflexivity.
Qed.

(** C1, as the code has it.  When a failure reaches the top-level
    boundary of [BallisticaMain], is reported, and the handle step does
    not intercept it, the classifier decides with the polarity
    [exit_cleanly = !IsUnmodifiedBlessedBuild()]: on a blessed build the
    failure is re-raised, on any other build the process exits with
    [exit(1)]. *)
Theorem exit_decision_follows_classifier what s :
  unintercepted_failure w what s ->
  outcome (run w)
  = code_exit_decision
      (IsUnmodifiedBlessedBuild (build w) (state_at_decision w what s))
      what.
Proof.
  intros ((tr & Hbody) & Hrep & Hcall & Hh).
  pose proof (top_level_handler_decision what s tr Hrep Hcall Hh) as Hd.
  cbn zeta in Hd.
  unfold run, BallisticaMain, bind, try_catch. rewrite Hbody.
  unfold code_exit_decision.
  destruct (top_level_handler w what s tr);
    destruct (IsUnmodifiedBlessedBuild (build w)
                (state_at_decision w what s));
    cbn in *; congruence.
Qed.

End ExitDecision.

(** In the world where screen creation fails on a build with an embedded
    hash, the failure reaches the boundary on a blessed build and is not
    intercepted. *)
Lemma blessed_failure_unintercepted :
  let w := failing_world (Some "abc") false in
  unintercepted_failure w "screen creation"
    (final_globals (bootstrap_and_run w null_globals []))
  /\ IsUnmodifiedBlessedBuild (build w)
       (state_at_decision w "screen creation"
          (final_globals (bootstrap_and_run w null_globals []))) = true.
Proof.
  cbn zeta. split; [|vm_compute; reflexivity].
  split; [|vm_compute; auto].
  eexists. vm_compute. reflexivity.
Qed.

(** The spec's polarity fails: on that blessed build the failure is
    re-raised, it does not end in [exit(1)]. *)
Lemma exit_decision_counterexample :
  ~ claimed_exit_decision (failing_world (Some "abc") false).
Proof.
  intros Hclaim.
  destruct blessed_failure_unintercepted as [Hu Hb].
  specialize (Hclaim _ _ Hu). rewrite Hb in Hclaim.
  vm_compute in Hclaim. discriminate Hclaim.
Qed.

Lemma exit_decision_follows_classifier_witness :
  let w := failing_world (Some "abc") false in
  outcome (run w) = Throws (StdException "screen creation").
Proof.
  cbn zeta.
  pose proof (exit_decision_follows_classifier _ _ _
                (proj1 blessed_failure_unintercepted)) as H.
  rewrite (proj2 blessed_failure_unintercepted) in H. exact H.
Defined.

(** The other half: on this file's build, which is never blessed, the
    same failure ends in [exit(1)]. *)
Example unblessed_failure_exits :
  outcome (run (failing_world kBlessingHash false)) = Ends (Exit 1).
Proof. vm_compute. reflexivity. Qed.

Section NoEmbeddedHash.

Variable w : World.
Hypothesis no_hash : blessing_hash (build w) = kBlessingHash.

Lemma FatalError_exits_cleanly message :
  emits exits_cleanly_class (FatalError w message).
Proof.
  unfold FatalError, ReportFatalError.
  apply emits_bind; [now apply emits_call|]. intros _.
  apply emits_bind_gets. intros s.
  rewrite (unblessed_without_embedded_hash _ _ no_hash). cbn [negb].
  emits_block.
Qed.

Lemma top_level_handler_exits_cleanly what :
  emits exits_cleanly_class (top_level_handler w what).
Proof.
  unfold top_level_handler, ReportFatalError.
  apply emits_bind; [now apply emits_call|]. intros _.
  apply emits_bind_gets. intros s.
  rewrite (unblessed_without_embedded_hash _ _ no_hash). cbn [negb].
  emits_block.
Qed.

Lemma BallisticaMain_exits_cleanly :
  emits exits_cleanly_class (BallisticaMain w).
Proof.
  unfold BallisticaMain.
  apply emits_bind; [|intros _; emits_block].
  apply emits_try_catch; [|apply top_level_handler_exits_cleanly].
  unfold bootstrap_and_run.
  apply emits_bind.
  { unfold crash_test. apply emits_if_pointer. intros crashenv.
    apply emits_if_then. apply FatalError_exits_cleanly. }
  intros _. emits_block; destruct m; emits_block.
Qed.

Lemma emitted_exit_cleanly {A : Type} (m : M A) s ec top :
  emits exits_cleanly_class m ->
  In (Called (FatalError_HandleFatalError ec top)) (events (m s [])) ->
  ec = true.
Proof.
  intros Hm Hin. destruct (Hm s []) as (ext & Ht & Hc).
  unfold events in Hin. rewrite Ht in Hin. cbn [List.app] in Hin.
  apply in_map_iff in Hin as (e & He & Hin).
  rewrite forallb_forall in Hc. specialize (Hc e Hin).
  unfold exits_cleanly_class in Hc. now rewrite He in Hc.
Qed.

End NoEmbeddedHash.

(** C10.  The embedded reference hash of this file is null, so
    [IsUnmodifiedBlessedBuild()] is false in every state of every build of
    it (debug or release, whatever the user-command flag, the scripting
    directory or the computed hash are); and so both fatal-error paths,
    [FatalError(message)] from any state and the [catch] block of
    [BallisticaMain], and with them every run of [BallisticaMain], pass
    [exit_cleanly = true] whenever they call [HandleFatalError]. *)
Theorem never_blessed_always_exit_cleanly :
  (forall debug headless asserts s,
      IsUnmodifiedBlessedBuild (this_build debug headless asserts) s = false)
  /\ (forall w ec,
        blessing_hash (build w) = kBlessingHash ->
        (forall message s,
            passes_exit_cleanly ec (events (FatalError w message s [])) ->
            ec = true)
        /\ (forall what s,
              passes_exit_cleanly ec
                (events (top_level_handler w what s [])) ->
              ec = true)
        /\ (passes_exit_cleanly ec (events (run w)) -> ec = true)).
Proof.
  split.
  - intros. now apply unblessed_without_embedded_hash.
  - intros w ec Hh. repeat split.
    + intros message s [top Hin].
      eapply emitted_exit_cleanly;
        [apply (FatalError_exits_cleanly w Hh)|exact Hin].
    + intros what s [top Hin].
      eapply emitted_exit_cleanly;
        [apply (top_level_handler_exits_cleanly w Hh)|exact Hin].
    + intros [top Hin].
      eapply emitted_exit_cleanly;
        [apply (BallisticaMain_exits_cleanly w Hh)|exact Hin].
Qed.

Lemma never_blessed_always_exit_cleanly_witness :
  blessing_hash (build (failing_world kBlessingHash false)) = kBlessingHash
  /\ passes_exit_cleanly true
       (events (run (failing_world kBlessingHash false)))
  /\ true = true.
Proof.
  split; [reflexivity|]. split.
  - exists true. vm_compute. auto 30.
  - apply (proj2 never_blessed_always_exit_cleanly
             (failing_world kBlessingHash false) true eq_refl).
    exists true. vm_compute. auto 30.
Defined.

(* ================================================================== *)
(** * Part 15: the crash test *)
(* ================================================================== *)

Section CrashTest.

Variable w : World.

(** Unless the variable is exactly "1" the hook does nothing. *)
Lemma crash_test_skipped s tr :
  BA_CRASH_TEST w <> Some "1" -> crash_test w s tr = Normal tt s tr.
Proof.
  intros Hne. unfold crash_test, if_pointer, if_then.
  destruct (BA_CRASH_TEST w) as [crashenv|]; [|reflexivity].
  destruct (crashenv =? "1")%string eqn:E; [|reflexivity].
  apply String.eqb_eq in E. congruence.
Qed.

Lemma bind_extends {A B : Type} class (m : M A) (k : A -> M B) s tr :
  (forall a, emits class (k a)) ->
  exists ext, trace (bind m k s tr) = trace (m s tr) ++ ext.
Proof.
  intros Hk. unfold bind.
  destruct (m s tr) as [a s' tr'| |]; cbn [trace];
    [|exists []; now rewrite app_nil_r..].
  destruct (Hk a s' tr') as (ext & -> & _). now exists ext.
Qed.

Lemma try_catch_extends {A : Type} class (m : M A) handle s tr :
  (forall what, emits class (handle what)) ->
  exists ext, trace (try_catch m handle s tr) = trace (m s tr) ++ ext.
Proof.
  intros Hh. unfold try_catch.
  destruct (m s tr) as [a s' tr'|[what|] s' tr'|]; cbn [trace];
    try (exists []; now rewrite app_nil_r).
  destruct (Hh what s' tr') as (ext & -> & _). now exists ext.
Qed.

(** Without the crash test the first thing a run does is to construct
    the global state. *)
Lemma run_starts_with_AppGlobals :
  BA_CRASH_TEST w <> Some "1" ->
  exists rest, events (run w) = Called new_AppGlobals :: rest.
Proof.
  intros Hne. unfold events, run, BallisticaMain.
  destruct (bind_extends any_class
              (try_catch (bootstrap_and_run w) (top_level_handler w))
              (fun _ =>
                 bind (call_on w g_platform (Platform_WillExitMain false))
                   (fun _ => bind (deref g_app_globals)
                               (fun g => ret (return_value g))))
              null_globals [])
    as (ext3 & ->); [intros; emits_block|].
  destruct (try_catch_extends any_class (bootstrap_and_run w)
              (top_level_handler w) null_globals [])
    as (ext2 & ->); [intros; emits_block|].
  unfold bootstrap_and_run at 1. unfold bind at 1.
  rewrite (crash_test_skipped _ _ Hne).
  unfold provision_globals, new_AppGlobals_.
  do 3 match goal with
       | |- context [trace (bind ?m ?k ?s ?tr)] =>
           let ext := fresh "ext" in
           destruct (bind_extends any_class m k s tr) as (ext & ->);
           [intros; emits_block; try (destruct m; emits_block)|]
       end.
  unfold call. destruct (raises w new_AppGlobals); cbn; eauto.
Qed.

End CrashTest.

Section Composition.

Variable w : World.

Lemma bind_Normal {A B : Type} (m : M A) (k : A -> M B) s tr a s' tr' :
  m s tr = Normal a s' tr' -> bind m k s tr = k a s' tr'.
Proof. intros H. unfold bind. now rewrite H. Qed.

Lemma bind_Raised {A B : Type} (m : M A) (k : A -> M B) s tr e s' tr' :
  m s tr = Raised e s' tr' -> bind m k s tr = Raised e s' tr'.
Proof. intros H. unfold bind. now rewrite H. Qed.

Lemma bind_Ended {A B : Type} (m : M A) (k : A -> M B) s tr how s' tr' :
  m s tr = Ended how s' tr' -> bind m k s tr = Ended how s' tr'.
Proof. intros H. unfold bind. now rewrite H. Qed.

Lemma try_catch_Ended {A : Type} (m : M A) handle s tr how s' tr' :
  m s tr = Ended how s' tr' -> try_catch m handle s tr = Ended how s' tr'.
Proof. intros H. unfold try_catch. now rewrite H. Qed.

Lemma try_catch_Normal {A : Type} (m : M A) handle s tr a s' tr' :
  m s tr = Normal a s' tr' -> try_catch m handle s tr = Normal a s' tr'.
Proof. intros H. unfold try_catch. now rewrite H. Qed.

Lemma try_catch_Raised {A : Type} (m : M A) handle s tr what s' tr' :
  m s tr = Raised (StdException what) s' tr' ->
  try_catch m handle s tr = handle what s' tr'.
Proof. intros H. unfold try_catch. now rewrite H. Qed.

End Composition.

Section Outcomes.

Variable w : World.
Hypothesis no_foreign : forall c, raises w c <> Some OtherException.

(** Phase 1 never dereferences a null pointer; once the global state
    and the platform are constructed, a failure leaves both set. *)
Lemma provision_outcomes s tr :
  raises w new_AppGlobals = None ->
  raises w Platform_Create = None ->
  match provision_globals w s tr with
  | Normal _ s' _ => ready w s'
  | Raised (StdException _) s' _ => can_leave s'
  | Raised OtherException _ _ => False
  | Ended _ _ _ => False
  end.
Proof.
  intros Hag Hpf.
  remember (provision_globals w s tr) as r eqn:Hr. symmetry in Hr.
  unfold_statements Hr.
  run_in Hr idtac contradict_world; subst r; cbn;
    try match goal with
        | t : Thrown |- _ => destruct t; [|contradict_world]
        end;
    unfold ready, can_leave; cbn; repeat split; discriminate.
Qed.

(** Neither does the rest of the try block, started where phase 1
    ends. *)
Lemma activation_outcomes s tr :
  ready w s ->
  match bind (assign_is_bootstrapped true) (fun _ =>
          bind (phase2 w) (fun _ => phase3_4 w)) s tr with
  | Normal _ s' _ => can_leave s'
  | Raised (StdException _) s' _ => can_leave s'
  | Raised OtherException _ _ => False
  | Ended _ _ _ => False
  end.
Proof.
  intros (Happ & Hpf & Hmt & Hag & Hgame).
  destruct s as [[mt|] [g|] ap acc ut [game|] bg [pf|] gs ms aus nw];
    cbn in *; try congruence. subst ap.
  match goal with
  | |- match ?m with _ => _ end => remember m as r eqn:Hr
  end.
  symmetry in Hr. unfold_statements Hr.
  run_in Hr idtac contradict_world; subst r; cbn;
    try match goal with
        | t : Thrown |- _ => destruct t; [|contradict_world]
        end;
    unfold can_leave; cbn; repeat split; discriminate.
Qed.

(** The [catch] block when the handle step takes care of the failure. *)
Lemma top_level_handler_handled what s tr :
  (forall m b, raises w (FatalError_ReportFatalError m b) = None) ->
  (forall e b, raises w (FatalError_HandleFatalError e b) = None) ->
  (forall e, handler w e true = Handled true) ->
  can_leave s ->
  exists s' tr',
    top_level_handler w what s tr = Normal tt s' tr' /\ can_leave s'.
Proof.
  intros Hrep Hcall Hh (Hpf & Hag).
  destruct s as [mt [g|] ap acc ut game bg [pf|] gs ms aus nw];
    cbn in *; try congruence.
  remember (top_level_handler w what _ tr) as r eqn:Hr. symmetry in Hr.
  unfold_statements Hr.
  run_in Hr ltac:(rewrite ?Hh in Hr) contradict_world; subst r;
    do 2 eexists; (split; [reflexivity|]);
    unfold can_leave; cbn; split; discriminate.
Qed.

(** The exit notification and the return. *)
Lemma exit_main_leaves s tr :
  raises w (Platform_WillExitMain false) = None ->
  can_leave s ->
  exists v s' tr',
    bind (call_on w g_platform (Platform_WillExitMain false)) (fun _ =>
      bind (deref g_app_globals) (fun g => ret (return_value g))) s tr
    = Normal v s' tr'
    /\ map event tr' = map event tr ++ [Called (Platform_WillExitMain false)].
Proof.
  intros Hexit (Hpf & Hag).
  destruct s as [mt [g|] ap acc ut game bg [pf|] gs ms aus nw];
    cbn in *; try congruence.
  match goal with
  | |- exists v s' tr', ?m = _ /\ _ => remember m as r eqn:Hr
  end.
  symmetry in Hr. unfold_statements Hr.
  run_in Hr idtac contradict_world; subst r.
  do 3 eexists. split; [reflexivity|]. now rewrite map_app.
Qed.

End Outcomes.

Section QuietRuns.

Variable w : World.
Hypothesis quiet : forall c, raises w c = None.

Lemma quiet_no_foreign c : raises w c <> Some OtherException.
Proof. rewrite quiet. discriminate. Qed.

Lemma provision_quiet s tr :
  exists s' tr', provision_globals w s tr = Normal tt s' tr'.
Proof.
  remember (provision_globals w s tr) as r eqn:Hr. symmetry in Hr.
  unfold_statements Hr.
  run_in Hr idtac contradict_world; subst r; eauto.
Qed.

Lemma activation_quiet s tr :
  ready w s ->
  exists s' tr',
    bind (assign_is_bootstrapped true) (fun _ =>
      bind (phase2 w) (fun _ => phase3_4 w)) s tr = Normal tt s' tr'
    /\ map event tr' = map event tr ++ activation_events w
    /\ can_leave s'.
Proof.
  intros (Happ & Hpf & Hmt & Hag & Hgame).
  destruct s as [[mt|] [g|] ap acc ut [game|] bg [pf|] gs ms aus nw];
    cbn in *; try congruence. subst ap.
  match goal with
  | |- exists s' tr', ?m = _ /\ _ => remember m as r eqn:Hr
  end.
  symmetry in Hr. unfold_statements Hr.
  unfold activation_events, steady_state_branch.
  run_in Hr idtac contradict_world; subst r;
    do 2 eexists; (split; [reflexivity|]);
    rewrite <- ?app_assoc, map_app; cbn;
    (split; [reflexivity|]); unfold can_leave; cbn; split; discriminate.
Qed.

(** The whole run when nothing disturbs it. *)
Lemma undisturbed_run :
  BA_CRASH_TEST w <> Some "1" ->
  events (run w) = undisturbed_events w
  /\ exists v, outcome (run w) = Returns v.
Proof.
  intros Hne.
  destruct (provision_quiet null_globals []) as (s1 & tr1 & E1).
  pose proof (provision_globals_complete w _ _ _ _ _ E1) as Hev1.
  pose proof (provision_outcomes w quiet_no_foreign
                null_globals [] (quiet _) (quiet _)) as Hready.
  rewrite E1 in Hready.
  destruct (activation_quiet s1 tr1 Hready) as (s2 & tr2 & E2 & Hev2 & Hl2).
  destruct (exit_main_leaves w s2 tr2 (quiet _) Hl2)
    as (v & s3 & tr3 & E3 & Hev3).
  assert (E : run w = Normal v s3 tr3).
  { unfold run, BallisticaMain.
    rewrite (bind_Normal _ _ _ _ tt s2 tr2); [exact E3|].
    apply try_catch_Normal. unfold bootstrap_and_run.
    rewrite (bind_Normal _ _ _ _ _ _ _ (crash_test_skipped w _ _ Hne)).
    now rewrite (bind_Normal _ _ _ _ _ _ _ E1). }
  rewrite E. split; [|now exists v].
  unfold events, undisturbed_events. cbn [trace].
  now rewrite Hev3, Hev2, Hev1, app_assoc.
Qed.

(** The whole run when the crash test fires and the handle step brings
    the process down: a report, the handle step, and nothing else. *)
Lemma crash_test_run exit_cleanly :
  BA_CRASH_TEST w = Some "1" ->
  negb (IsUnmodifiedBlessedBuild (build w) null_globals) = exit_cleanly ->
  reporter_brings_down w exit_cleanly ->
  events (run w) = crash_test_events exit_cleanly
  /\ outcome (run w) = Ends (if exit_cleanly then Exit 1 else Abort)
  /\ final_globals (run w) = null_globals.
Proof.
  intros Henv Hec ((intercepts & Hh & Hi) & Hrep & Hcall).
  assert (E : crash_test w null_globals []
              = Ended (if exit_cleanly then Exit 1 else Abort) null_globals
                  (map (fun e => mkEntry e false)
                     (crash_test_events exit_cleanly))).
  { unfold crash_test, if_pointer, if_then. rewrite Henv.
    unfold FatalError, ReportFatalError, HandleFatalError, bind, call,
      touched, gets, crash_test_message, null_globals in *.
    rewrite Hrep.
    cbv beta iota delta
      [set_g_app_globals option_map g_main_thread g_app_globals g_app
       g_account g_utils g_game g_bg_dynamics_server g_platform
       g_graphics_server g_media_server g_audio_server
       g_network_write_module].
    rewrite Hec, Hcall.
    rewrite Hh. unfold spec_handler. rewrite Hi.
    now destruct exit_cleanly. }
  assert (R : run w
              = Ended (if exit_cleanly then Exit 1 else Abort) null_globals
                  (map (fun e => mkEntry e false)
                     (crash_test_events exit_cleanly))).
  { unfold run, BallisticaMain. apply bind_Ended, try_catch_Ended.
    unfold bootstrap_and_run. now apply bind_Ended. }
  rewrite R. destruct exit_cleanly; repeat split; reflexivity.
Qed.

End QuietRuns.

(** C5.  On this file's build, when [BA_CRASH_TEST] is exactly "1" at
    entry (and the handle step of the spec brings the process down without
    intercepting), a run of [BallisticaMain] consists of one fatal-error
    report with the message "Fatal-Error-Test" followed by the handle step:
    nothing has been constructed, every global is still null, and the
    process exits with code 1.  For any other value, or without the
    variable, the run starts with the construction of the global state, and
    if no collaborator throws it is the whole bootstrap, without any
    fatal-error report. *)
Theorem crash_test_hook (w : World) :
  (BA_CRASH_TEST w = Some "1" ->
   blessing_hash (build w) = kBlessingHash ->
   reporter_brings_down w true ->
   events (run w) = crash_test_events true
   /\ outcome (run w) = Ends (Exit 1)
   /\ final_globals (run w) = null_globals)
  /\ (BA_CRASH_TEST w <> Some "1" ->
      (exists rest, events (run w) = Called new_AppGlobals :: rest)
      /\ ((forall c, raises w c = None) ->
          events (run w) = undisturbed_events w
          /\ count is_fatal_report (events (run w)) = 0%nat)).
Proof.
  split.
  - intros Henv Hhash Hdown.
    apply (crash_test_run w true Henv); [|assumption].
    now rewrite (unblessed_without_embedded_hash _ _ Hhash).
  - intros Hne. split; [now apply run_starts_with_AppGlobals|].
    intros Hquiet.
    destruct (undisturbed_run w Hquiet Hne) as [-> _].
    split; [reflexivity|].
    unfold undisturbed_events, steady_state_branch.
    now destruct (UsesEventLoop (the_app w)).
Qed.

Lemma crash_test_hook_witness :
  (events (run (quiet_world (Some "1") true)) = crash_test_events true
   /\ outcome (run (quiet_world (Some "1") true)) = Ends (Exit 1)
   /\ final_globals (run (quiet_world (Some "1") true)) = null_globals)
  /\ (exists rest,
         events (run (quiet_world (Some "0") true))
         = Called new_AppGlobals :: rest).
Proof.
  split.
  - apply (proj1 (crash_test_hook (quiet_world (Some "1") true)));
      [reflexivity|reflexivity|].
    split; [|split; reflexivity].
    exists (fun _ _ => false). split; reflexivity.
  - apply (proj2 (crash_test_hook (quiet_world (Some "0") true))).
    discriminate.
Defined.

(** The crash test counts one report. *)
Example crash_test_reports_once :
  count is_fatal_report (crash_test_events true) = 1%nat.
Proof. reflexivity. Qed.

(** If the handle step returns instead of bringing the process down, the
    code of this file goes on with the bootstrap. *)
Example crash_test_then_bootstrap :
  let w := mkWorld (this_build false false false) (Some "1") nothing_raises
             nothing_touched (fun _ _ => Handled true) sample_app_globals
             (mkPlatform false) (mkApp true) sample_threads in
  events (run w) = crash_test_events true ++ undisturbed_events w.
Proof. vm_compute. reflexivity. Qed.

(* ================================================================== *)
(** * Part 16: leaving BallisticaMain *)
(* ================================================================== *)

Section Leaving.

Variable w : World.

(** The last two statements of [BallisticaMain]. *)
Lemma exit_main_returns s tr v s' tr' :
  bind (call_on w g_platform (Platform_WillExitMain false)) (fun _ =>
    bind (deref g_app_globals) (fun g => ret (return_value g))) s tr
  = Normal v s' tr' ->
  (exists stamp,
      tr' = tr ++ [mkEntry (Called (Platform_WillExitMain false)) stamp])
  /\ exists g, g_app_globals s' = Some g /\ v = return_value g.
Proof.
  intros H. destruct s as [mt g ap acc ut game bg pf gs ms aus nw].
  unfold_statements H. run H.
  injection H as <- <- <-. cbn. eauto.
Qed.

Lemma run_returns v :
  outcome (run w) = Returns v ->
  (exists before,
      events (run w) = before ++ [Called (Platform_WillExitMain false)])
  /\ exists g,
       g_app_globals (final_globals (run w)) = Some g
       /\ v = return_value g.
Proof.
  unfold run, BallisticaMain.
  destruct (try_catch (bootstrap_and_run w) (top_level_handler w)
              null_globals []) as [a s tr|e s tr|how s tr] eqn:Etry.
  - rewrite (bind_Normal _ _ _ _ _ _ _ Etry).
    match goal with
    | |- outcome ?r = _ -> _ => destruct r as [v' s' tr'| |] eqn:E
    end; [|discriminate..].
    intros [= ->].
    destruct (exit_main_returns _ _ _ _ _ E)
      as ((stamp & ->) & g & Hg & ->).
    split; [|now exists g].
    exists (map event tr). unfold events. cbn. now rewrite map_app.
  - rewrite (bind_Raised _ _ _ _ _ _ _ Etry). discriminate.
  - rewrite (bind_Ended _ _ _ _ _ _ _ Etry). discriminate.
Qed.

(** Once the global state and the platform exist, a run comes back
    whether the bootstrap succeeds or fails with a [std::exception] that
    the handle step takes care of. *)
Lemma run_comes_back :
  failures_are_handled w -> exists v, outcome (run w) = Returns v.
Proof.
  intros (Hne & Hag & Hpf & Hstd & Hrep & Hcall & Hexit & Hh).
  assert (Htry : exists s tr,
             try_catch (bootstrap_and_run w) (top_level_handler w)
               null_globals [] = Normal tt s tr
             /\ can_leave s).
  { unfold bootstrap_and_run.
    pose proof (provision_outcomes w Hstd null_globals [] Hag Hpf) as H1.
    destruct (provision_globals w null_globals [])
      as [[] s1 tr1|[what|] s1 tr1|] eqn:E1; try contradiction.
    - pose proof (activation_outcomes w Hstd s1 tr1 H1) as H2.
      destruct (bind (assign_is_bootstrapped true) _ s1 tr1)
        as [[] s2 tr2|[what|] s2 tr2|] eqn:E2; try contradiction.
      + exists s2, tr2. split; [|assumption].
        apply try_catch_Normal.
        rewrite (bind_Normal _ _ _ _ _ _ _ (crash_test_skipped w _ _ Hne)).
        now rewrite (bind_Normal _ _ _ _ _ _ _ E1).
      + destruct (top_level_handler_handled w what s2 tr2 Hrep Hcall Hh H2)
          as (s3 & tr3 & E3 & H3).
        exists s3, tr3. split; [|assumption].
        rewrite <- E3. apply try_catch_Raised.
        rewrite (bind_Normal _ _ _ _ _ _ _ (crash_test_skipped w _ _ Hne)).
        now rewrite (bind_Normal _ _ _ _ _ _ _ E1).
    - destruct (top_level_handler_handled w what s1 tr1 Hrep Hcall Hh H1)
        as (s3 & tr3 & E3 & H3).
      exists s3, tr3. split; [|assumption].
      rewrite <- E3. apply try_catch_Raised.
      rewrite (bind_Normal _ _ _ _ _ _ _ (crash_test_skipped w _ _ Hne)).
      now apply bind_Raised. }
  destruct Htry as (s & tr & Etry & Hleave).
  destruct (exit_main_leaves w s tr Hexit Hleave)
    as (v & s' & tr' & E & _).
  exists v. unfold run, BallisticaMain.
  rewrite (bind_Normal _ _ _ _ _ _ _ Etry). now rewrite E.
Qed.

End Leaving.

(** C9.  Whenever [BallisticaMain] returns, whether the bootstrap-and-run
    sequence succeeded or a caught failure was reported and handled, the
    last thing it did before was to call the platform's
    [WillExitMain(false)], and the value it returns is the [return_value]
    that the global state holds at that moment.  And it does return in
    both cases: once the global state and the platform exist, when nothing
    fails and when a [std::exception] thrown anywhere in the bootstrap is
    reported and the handle step takes care of it. *)
Theorem exit_notification_and_return_code (w : World) :
  (forall v,
      outcome (run w) = Returns v ->
      (exists before,
          events (run w) = before ++ [Called (Platform_WillExitMain false)])
      /\ exists g,
           g_app_globals (final_globals (run w)) = Some g
           /\ v = return_value g)
  /\ (failures_are_handled w -> exists v, outcome (run w) = Returns v).
Proof.
  split; [apply run_returns|apply run_comes_back].
Qed.

Lemma handled_failure_world_handles :
  failures_are_handled handled_failure_world.
Proof.
  unfold failures_are_handled. cbn.
  repeat split; try reflexivity; try discriminate.
  intros []; discriminate.
Qed.

Lemma exit_notification_and_return_code_witness :
  outcome (run handled_failure_world) = Returns 7
  /\ (exists before,
         events (run handled_failure_world)
         = before ++ [Called (Platform_WillExitMain false)])
  /\ count is_fatal_report (events (run handled_failure_world)) = 1%nat
  /\ exists v, outcome (run handled_failure_world) = Returns v.
Proof.
  assert (H : outcome (run handled_failure_world) = Returns 7)
    by (vm_compute; reflexivity).
  split; [exact H|]. split; [|split; [vm_compute; reflexivity|]].
  - apply (proj1 (exit_notification_and_return_code handled_failure_world)
             7 H).
  - apply (proj2 (exit_notification_and_return_code handled_failure_world)
             handled_failure_world_handles).
Defined.

(** A failure before the platform exists that the handle step reports as
    handled does not come back: the exit notification dereferences the
    null [g_platform]. *)
Example early_failure_handled :
  outcome (run early_failure_world) = Ends NullPointerFault.
Proof. vm_compute. reflexivity. Qed.

(* ================================================================== *)
(** * Part 17: the theorems at work *)
(* ================================================================== *)

(** The run of a release build of this file in which nothing goes wrong,
    on a platform with an event loop. *)
Example undisturbed_run_sample :
  events (run (quiet_world None true))
  = undisturbed_events (quiet_world None true)
  /\ outcome (run (quiet_world None true)) = Returns 0.
Proof. split; vm_compute; reflexivity. Qed.

Lemma IsUnmodifiedBlessedBuild_policy_witness :
  let cfg := mkBuildConfig false false false (Some "abc") in
  let s := set_g_app_globals (Some sample_app_globals) null_globals in
  IsUnmodifiedBlessedBuild cfg s = true.
Proof.
  cbn zeta.
  apply (proj2 (proj2 (proj2
           (IsUnmodifiedBlessedBuild_policy
              (mkBuildConfig false false false (Some "abc"))
              (set_g_app_globals (Some sample_app_globals) null_globals))))
           "abc" eq_refl eq_refl).
  right. reflexivity.
Defined.

Lemma thread_affinity_predicates_witness :
  let s := final_globals (run (quiet_world None true)) in
  designated_thread PInGameThread s = Some 4%nat
  /\ run_predicate PInGameThread (this_build false false false)
       null_globals 4%nat = Value false.
Proof.
  cbn zeta. split.
  - apply (proj1 (proj2
             (thread_affinity_predicates PInGameThread
                (this_build false false false)
                (final_globals (run (quiet_world None true))) 4%nat))).
    vm_compute. reflexivity.
  - apply (proj1 (proj2 (proj2
             (thread_affinity_predicates PInGameThread
                (this_build false false false) null_globals 4%nat)))).
    reflexivity.
Defined.

Lemma bootstrap_order_witness :
  let tr := trace (run (quiet_world None true)) in
  let nowhere := mkEntry (Assigned_is_bootstrapped false) false in
  (incl creation_events (map event (firstn 18 tr))
   /\ (forall e, In e (firstn 18 tr) ->
                 is_cross_thread_message (event e) = false)
   /\ (forall e, In e (skipn 19 tr) ->
                 is_thread_or_module (event e) = false))
  /\ bootstrapped_then (nth 19 tr nowhere) = true.
Proof.
  cbn zeta. split.
  - apply (proj1 (bootstrap_order (quiet_world None true))
             (firstn 18 (trace (run (quiet_world None true))))
             (nth 18 (trace (run (quiet_world None true)))
                (mkEntry (Assigned_is_bootstrapped false) false))
             (skipn 19 (trace (run (quiet_world None true)))));
      vm_compute; reflexivity.
  - apply (proj2 (bootstrap_order (quiet_world None true))
             (firstn 19 (trace (run (quiet_world None true))))
             (nth 19 (trace (run (quiet_world None true)))
                (mkEntry (Assigned_is_bootstrapped false) false))
             (skipn 20 (trace (run (quiet_world None true)))));
      vm_compute; reflexivity.
Defined.

Lemma steady_state_one_branch_witness :
  (count is_event_loop (events (run (quiet_world None true))) = 1%nat
   /\ count is_prime_event_pump (events (run (quiet_world None true)))
      = 0%nat)
  /\ (count is_prime_event_pump (events (run (quiet_world None false)))
      = 1%nat
      /\ count is_event_loop (events (run (quiet_world None false)))
         = 0%nat).
Proof.
  split.
  - apply (proj2 (proj2 (steady_state_one_branch (quiet_world None true))));
      [vm_compute; auto 30|reflexivity].
  - apply (proj2 (proj2 (steady_state_one_branch (quiet_world None false))));
      [vm_compute; auto 30|reflexivity].
Defined.

(* ================================================================== *)
(** * Part 18: more on the clock tracker *)
(* ================================================================== *)

Section ClockMore.

Import Int64Clock.

Implicit Types (t : millisecs_t) (g : AppGlobals).

(** X1.  Reading the same raw tick again changes nothing: the second call
    returns the value of the first and leaves the globals record as the
    first left it. *)
Theorem GetRealTime_same_tick t g :
  GetRealTime t (snd (GetRealTime t g))
  = (fst (GetRealTime t g), snd (GetRealTime t g)).
Proof.
  unfold GetRealTime at 1.
  assert (Hlast : last_real_time_ticks (snd (GetRealTime t g)) = t).
  { unfold GetRealTime.
    destruct (negb (t =? last_real_time_ticks g)) eqn:E; cbn [snd].
    - apply last_ticks_set_clock.
    - apply negb_false_iff, Z.eqb_eq in E. congruence. }
  rewrite Hlast, Z.eqb_refl. cbn [negb].
  now rewrite <- GetRealTime_returns_accumulator.
Qed.

Lemma GetRealTime_records_tick t g :
  last_real_time_ticks (snd (GetRealTime t g)) = t.
Proof.
  unfold GetRealTime.
  destruct (negb (t =? last_real_time_ticks g)) eqn:E; cbn [snd].
  - apply last_ticks_set_clock.
  - apply negb_false_iff, Z.eqb_eq in E. congruence.
Qed.

Lemma GetRealTime_outside_clock t g :
  outside_clock (snd (GetRealTime t g)) = outside_clock g.
Proof.
  unfold GetRealTime.
  destruct (negb (t =? last_real_time_ticks g)) eqn:E; cbn [snd].
  - now destruct g.
  - reflexivity.
Qed.

(** X2.  A call records the raw tick it read as the last one seen, even
    when the delta was clamped, and writes nothing else than the two clock
    fields of the globals record. *)
Theorem GetRealTime_frame t g :
  last_real_time_ticks (snd (GetRealTime t g)) = t
  /\ outside_clock (snd (GetRealTime t g)) = outside_clock g.
Proof.
  split; [apply GetRealTime_records_tick|apply GetRealTime_outside_clock].
Qed.

Lemma last_cons_default {A : Type} (l : list A) (x d : A) :
  last (x :: l) d = last l x.
Proof.
  revert x d. induction l as [|y l IH]; intros x d; [reflexivity|].
  change (last (x :: y :: l) d) with (last (y :: l) d).
  now rewrite (IH y d), (IH y x).
Qed.

Lemma GetRealTime_state_cons t ticks g :
  GetRealTime_state (t :: ticks) g
  = GetRealTime_state ticks (snd (GetRealTime t g)).
Proof. reflexivity. Qed.

(** The clamped delta in closed form, for an accumulator that has room
    for it. *)
Lemma GetRealTime_delta t g :
  min_signed <= real_time g <= max_signed - 250 ->
  real_time (snd (GetRealTime t g)) - real_time g
  = Z.min 250 (Z.max 0 (wrap (t - last_real_time_ticks g))).
Proof.
  intros Hroom. unfold GetRealTime.
  destruct (negb (t =? last_real_time_ticks g)) eqn:E; cbn [snd].
  - rewrite real_time_set_clock.
    set (d := wrap (t - last_real_time_ticks g)).
    pose proof (Int64ClockFacts.clamp_bounds d) as Hd.
    rewrite Int64ClockFacts.wrap_small
      by (unfold in_range, min_signed, max_signed in *; lia).
    destruct (d <? 0) eqn:Hneg.
    + apply Z.ltb_lt in Hneg. lia.
    + apply Z.ltb_ge in Hneg.
      destruct (d >? 250) eqn:Hbig.
      * rewrite Z.gtb_ltb in Hbig. apply Z.ltb_lt in Hbig. lia.
      * rewrite Z.gtb_ltb in Hbig. apply Z.ltb_ge in Hbig. lia.
  - apply negb_false_iff, Z.eqb_eq in E. rewrite E, !Z.sub_diag.
    reflexivity.
Qed.

(** A raw delta that is not negative is never counted for more than it
    is, however the 64-bit subtraction comes out. *)
Lemma clamped_wrap_below d :
  0 <= d -> 0 <= Z.min 250 (Z.max 0 (wrap d)) <= d.
Proof.
  intros Hd. destruct (Z.le_gt_cases 250 d) as [Hbig|Hsmall]; [lia|].
  rewrite Int64ClockFacts.wrap_small
    by (unfold in_range, min_signed, max_signed; lia).
  lia.
Qed.

(** X3.  While the raw clock behaves (it never goes back and never jumps
    by more than 250 between two readings) and the accumulator has room
    for 250 per call below [2^63], the tracker follows the raw clock
    exactly: after any number of calls the accumulator has advanced by the
    raw time elapsed since the last reading before them. *)
Theorem GetRealTime_follows_steady_clock (ticks : list millisecs_t) g :
  steady_ticks 250 (last_real_time_ticks g) ticks ->
  min_signed <= real_time g ->
  real_time g + 250 * Z.of_nat (length ticks) <= max_signed ->
  real_time (GetRealTime_state ticks g) - real_time g
  = last ticks (last_real_time_ticks g) - last_real_time_ticks g.
Proof.
  revert g. induction ticks as [|t ticks IH]; intros g H Hlo Hroom.
  - cbn. lia.
  - destruct H as [Ht Hrest]. rewrite GetRealTime_state_cons.
    cbn [length] in Hroom.
    pose proof (GetRealTime_delta t g ltac:(lia)) as Hd.
    rewrite Int64ClockFacts.wrap_small in Hd
      by (unfold in_range, min_signed, max_signed; lia).
    pose proof (GetRealTime_records_tick t g) as Hlast.
    specialize (IH (snd (GetRealTime t g))). rewrite Hlast in IH.
    specialize (IH Hrest ltac:(lia) ltac:(lia)).
    rewrite last_cons_default. lia.
Qed.

Lemma GetRealTime_follows_steady_clock_witness :
  steady_ticks 250 (last_real_time_ticks sample_app_globals) [10; 10; 260]
  /\ real_time (GetRealTime_state [10; 10; 260] sample_app_globals)
     - real_time sample_app_globals = 260 - 0.
Proof.
  split; [cbn; lia|].
  apply (GetRealTime_follows_steady_clock [10; 10; 260] sample_app_globals).
  - cbn. lia.
  - unfold min_signed. cbn. lia.
  - unfold max_signed. cbn. lia.
Defined.

(** X4.  The tracker never runs ahead of a raw clock that does not go
    back: as long as the accumulator has room for 250 per call below
    [2^63], after any number of calls it has advanced by at most the raw
    time elapsed, and it has not gone back. *)
Theorem GetRealTime_never_ahead (ticks : list millisecs_t) g :
  forward_ticks (last_real_time_ticks g) ticks ->
  min_signed <= real_time g ->
  real_time g + 250 * Z.of_nat (length ticks) <= max_signed ->
  0 <= real_time (GetRealTime_state ticks g) - real_time g
    <= last ticks (last_real_time_ticks g) - last_real_time_ticks g.
Proof.
  revert g. induction ticks as [|t ticks IH]; intros g H Hlo Hroom.
  - cbn. lia.
  - destruct H as [Ht Hrest]. rewrite GetRealTime_state_cons.
    cbn [length] in Hroom.
    pose proof (GetRealTime_delta t g ltac:(lia)) as Hd.
    pose proof (clamped_wrap_below (t - last_real_time_ticks g)
                  ltac:(lia)) as Hc.
    pose proof (GetRealTime_records_tick t g) as Hlast.
    specialize (IH (snd (GetRealTime t g))). rewrite Hlast in IH.
    specialize (IH Hrest ltac:(lia) ltac:(lia)).
    rewrite last_cons_default. lia.
Qed.

Lemma GetRealTime_never_ahead_witness :
  forward_ticks (last_real_time_ticks sample_app_globals) [100; 5000]
  /\ 0 <= real_time (GetRealTime_state [100; 5000] sample_app_globals)
          - real_time sample_app_globals
       <= 5000 - 0.
Proof.
  split; [cbn; lia|].
  apply (GetRealTime_never_ahead [100; 5000] sample_app_globals).
  - cbn. lia.
  - unfold min_signed. cbn. lia.
  - unfold max_signed. cbn. lia.
Defined.

(** A sleep of the machine is the case in which the tracker falls behind:
    of the 4900 raw milliseconds, 250 are counted. *)
Example sleep_is_not_counted :
  real_time (GetRealTime_state [100; 5000] sample_app_globals) = 350.
Proof. reflexivity. Qed.

(** Without the room the tracker does go back, on a raw clock that
    behaves. *)
Example accumulator_wraps :
  steady_ticks 250 (last_real_time_ticks near_limit_globals) [250]
  /\ real_time (GetRealTime_state [250] near_limit_globals)
     - real_time near_limit_globals = 250 - 2 ^ 64.
Proof. split; [cbn; lia|reflexivity]. Qed.

(** X5.  The values returned by successive calls never decrease and
    never grow by more than 250 from one call to the next, whatever raw
    ticks are read (even ones whose 64-bit difference to the last reading
    overflows), as long as the accumulator has room for 250 per call. *)
Theorem GetRealTime_monotone_with_headroom (ticks : list millisecs_t)
  (g : AppGlobals) :
  min_signed <= real_time g ->
  real_time g + 250 * Z.of_nat (length ticks) <= max_signed ->
  steps_within 250 (GetRealTime_calls ticks g).
Proof.
  revert g. induction ticks as [|t ticks IH]; intros g Hlo Hroom n Hn.
  - cbn in Hn. lia.
  - rewrite GetRealTime_calls_cons in *. cbn [length] in Hn, Hroom.
    assert (Hstep : real_time g <= real_time (snd (GetRealTime t g))
                    <= real_time g + 250).
    { rewrite <- GetRealTime_returns_accumulator.
      apply GetRealTime_advance. lia. }
    destruct n as [|n].
    + cbn [nth]. rewrite GetRealTime_calls_length in Hn.
      destruct ticks as [|u ticks]; [cbn in Hn; lia|].
      rewrite GetRealTime_calls_cons. cbn [nth].
      rewrite GetRealTime_returns_accumulator.
      pose proof (GetRealTime_advance u (snd (GetRealTime t g))) as Hu.
      cbn [length] in Hroom. lia.
    + cbn [nth]. apply IH; lia.
Qed.

Lemma GetRealTime_monotone_with_headroom_witness :
  let g := mkAppGlobals false [] 1%nat 100 (- 2 ^ 63) false "" 0 in
  wrap (2 ^ 63 - 1 - last_real_time_ticks g) = -1
  /\ GetRealTime_calls [2 ^ 63 - 1; - 2 ^ 63 + 5] g = [100; 106]
  /\ steps_within 250 (GetRealTime_calls [2 ^ 63 - 1; - 2 ^ 63 + 5] g).
Proof.
  cbn zeta. split; [reflexivity|]. split; [reflexivity|].
  apply (GetRealTime_monotone_with_headroom [2 ^ 63 - 1; - 2 ^ 63 + 5]
           (mkAppGlobals false [] 1%nat 100 (- 2 ^ 63) false "" 0)).
  - cbn. unfold min_signed. lia.
  - cbn. unfold max_signed. lia.
Defined.

(** X6.  [GetRealTime] computes what the spec describes on exact
    integers: for raw ticks from -2^62 up to 2^62 - 1 and an accumulator
    that starts non-negative and has room for 250 per call, the two return
    the same values call after call. *)
Theorem GetRealTime_agrees_with_exact (ticks : list millisecs_t)
  (g : AppGlobals) :
  Forall small_tick (last_real_time_ticks g :: ticks) ->
  0 <= real_time g ->
  real_time g + 250 * Z.of_nat (length ticks) <= max_signed ->
  GetRealTime_calls ticks g = GetRealTime_exact_calls ticks g.
Proof.
  revert g. induction ticks as [|t ticks IH]; intros g Hsmall Hlo Hroom.
  - reflexivity.
  - rewrite GetRealTime_calls_cons, GetRealTime_exact_calls_cons.
    cbn [length] in Hroom.
    inversion Hsmall as [|? ? Hlast Hticks]; subst.
    inversion Hticks as [|? ? Ht Hrest]; subst.
    assert (E : GetRealTime t g = GetRealTime_exact t g).
    { apply GetRealTime_agrees.
      - unfold small_tick, in_range, min_signed, max_signed in *. lia.
      - lia. }
    rewrite <- E. f_equal.
    pose proof (GetRealTime_advance t g ltac:(unfold min_signed; lia))
      as Hadv.
    rewrite GetRealTime_returns_accumulator in Hadv.
    pose proof (GetRealTime_records_tick t g) as Hl.
    unfold millisecs_t in *. apply IH.
    + rewrite Hl. now constructor.
    + lia.
    + lia.
Qed.

Lemma GetRealTime_agrees_with_exact_witness :
  GetRealTime_calls sample_ticks sample_app_globals
  = GetRealTime_exact_calls sample_ticks sample_app_globals.
Proof.
  apply (GetRealTime_agrees_with_exact sample_ticks sample_app_globals).
  - repeat constructor; unfold small_tick; cbn; lia.
  - cbn. lia.
  - cbn. unfold max_signed. lia.
Defined.

End ClockMore.

(* ================================================================== *)
(** * Part 19: more on the classifier *)
(* ================================================================== *)

(** X7.  As long as the globals record does not exist the classifier
    answers without touching the null pointer, and what it answers is
    decided by the build and the platform alone: a release build with an
    embedded hash and no custom script directory counts as blessed, the
    runtime hash being "not yet computed". *)
Theorem IsUnmodifiedBlessedBuild_before_bootstrap (cfg : BuildConfig)
  (s : Globals) :
  g_app_globals s = None ->
  IsUnmodifiedBlessedBuild cfg s
  = negb (debug_build cfg)
    && negb (ptr_and (g_platform s) using_custom_app_python_dir)
    && match blessing_hash cfg with Some _ => true | None => false end.
Proof.
  intros Hnull. unfold IsUnmodifiedBlessedBuild, blessing_verdict.
  rewrite Hnull. cbn [ptr_and].
  destruct (debug_build cfg); [reflexivity|].
  destruct (ptr_and (g_platform s) using_custom_app_python_dir);
    [reflexivity|].
  now destruct (blessing_hash cfg).
Qed.

Lemma IsUnmodifiedBlessedBuild_before_bootstrap_witness :
  IsUnmodifiedBlessedBuild (mkBuildConfig false false false (Some "0a1b"))
    platform_ready
  = true.
Proof.
  exact (IsUnmodifiedBlessedBuild_before_bootstrap
           (mkBuildConfig false false false (Some "0a1b")) platform_ready
           eq_refl).
Defined.

(** X8.  Reading the clock never changes the verdict of the
    classifier. *)
Theorem IsUnmodifiedBlessedBuild_ignores_clock (cfg : BuildConfig)
  (t : millisecs_t) (s : Globals) :
  IsUnmodifiedBlessedBuild cfg (with_clock_read t s)
  = IsUnmodifiedBlessedBuild cfg s.
Proof.
  unfold IsUnmodifiedBlessedBuild, blessing_verdict, with_clock_read.
  destruct s as [mt [g|] ap acc ut game bg pf gs ms aus nw]; cbn;
    [|reflexivity].
  pose proof (GetRealTime_outside_clock t g) as Hf.
  unfold outside_clock in Hf. injection Hf as _ _ _ Hcmd Hhash _.
  now rewrite Hcmd, Hhash.
Qed.

(* ================================================================== *)
(** * Part 20: more on BallisticaMain *)
(* ================================================================== *)

Section TryBlock.

Variable w : World.

Lemma bootstrap_and_run_inside_try :
  emits inside_try_class (bootstrap_and_run w).
Proof. emits_block; try (destruct m; emits_block). Qed.

Lemma emits_In {A : Type} class (m : M A) s e :
  emits class m -> In e (trace (m s [])) -> class e = true.
Proof.
  intros Hm Hin. destruct (Hm s []) as (ext & Ht & Hc).
  rewrite Ht in Hin. cbn [List.app] in Hin.
  rewrite forallb_forall in Hc. auto.
Qed.

(** X9.  An exception that is not a [std::exception] passes the [catch]
    clause of [BallisticaMain]: it leaves the function as it was thrown,
    without any top-level report and without the exit notification. *)
Theorem foreign_exception_escapes s tr :
  bootstrap_and_run w null_globals [] = Raised OtherException s tr ->
  outcome (run w) = Throws OtherException
  /\ count is_top_level_report (events (run w)) = 0%nat
  /\ count is_exit_notification (events (run w)) = 0%nat.
Proof.
  intros Hbody.
  assert (R : run w = Raised OtherException s tr).
  { unfold run, BallisticaMain. apply bind_Raised.
    unfold try_catch. now rewrite Hbody. }
  rewrite R. split; [reflexivity|].
  assert (Hclass : forallb inside_try_class tr = true).
  { destruct (bootstrap_and_run_inside_try null_globals []) as (ext & Ht & Hc).
    rewrite Hbody in Ht. cbn in Ht. now subst. }
  unfold events, count. cbn [trace].
  clear -Hclass. induction tr as [|e tr IH]; [split; reflexivity|].
  cbn in Hclass. apply andb_prop in Hclass as [He Htr].
  unfold inside_try_class in He. apply andb_prop in He as [H1 H2].
  apply negb_true_iff in H1, H2. cbn. rewrite H1, H2. now apply IH.
Qed.

End TryBlock.

Lemma foreign_exception_escapes_witness :
  outcome (run foreign_failure_world) = Throws OtherException
  /\ count is_top_level_report (events (run foreign_failure_world)) = 0%nat
  /\ count is_exit_notification (events (run foreign_failure_world))
     = 0%nat.
Proof.
  apply (foreign_exception_escapes foreign_failure_world
           (final_globals
              (bootstrap_and_run foreign_failure_world null_globals []))
           (trace
              (bootstrap_and_run foreign_failure_world null_globals []))).
  vm_compute. reflexivity.
Defined.

Section Reports.

Variable w : World.

Lemma count_app kind (l1 l2 : list Event) :
  count kind (l1 ++ l2) = (count kind l1 + count kind l2)%nat.
Proof. unfold count. now rewrite filter_app, length_app. Qed.

Lemma count_none kind (class : Entry -> bool) (tr : Trace) :
  (forall e, class e = true -> kind (event e) = false) ->
  forallb class tr = true ->
  count kind (map event tr) = 0%nat.
Proof.
  intros Hk. unfold count.
  induction tr as [|e tr IH]; cbn; [reflexivity|].
  intros H. apply andb_prop in H as [He Htr].
  rewrite (Hk e He). auto.
Qed.

Lemma inside_try_no_report e :
  inside_try_class e = true -> is_top_level_report (event e) = false.
Proof.
  unfold inside_try_class. intros H. apply andb_prop in H as [H _].
  now apply negb_true_iff.
Qed.

Lemma inside_try_no_exit e :
  inside_try_class e = true -> is_exit_notification (event e) = false.
Proof.
  unfold inside_try_class. intros H. apply andb_prop in H as [_ H].
  now apply negb_true_iff.
Qed.

(** The [catch] block reports first, once, with the fixed prefix in front
    of [what()]. *)
Lemma top_level_handler_reports what s tr :
  exists stamp ext,
    trace (top_level_handler w what s tr)
    = tr ++ mkEntry (Called (FatalError_ReportFatalError
                               (unhandled_prefix ++ what) true)) stamp
            :: ext
    /\ forallb inside_try_class ext = true.
Proof.
  remember (top_level_handler w what s tr) as r eqn:Hr. symmetry in Hr.
  unfold_statements Hr. run Hr; subst r; cbn [trace];
    rewrite <- ?app_assoc; cbn [List.app];
    do 2 eexists; (split; [reflexivity|reflexivity]).
Qed.

Lemma exit_main_no_report :
  emits no_top_level_report_class
    (bind (call_on w g_platform (Platform_WillExitMain false)) (fun _ =>
     bind (deref g_app_globals) (fun g => ret (return_value g)))).
Proof. emits_block. Qed.

(** X10.  A run of [BallisticaMain] makes at most one top-level report,
    and makes one only for a [std::exception] that left the try block; its
    message is "Unhandled exception in BallisticaMain(): " followed by the
    exception's [what()]. *)
Theorem top_level_report_once :
  (count is_top_level_report (events (run w)) <= 1)%nat
  /\ forall message,
       In (Called (FatalError_ReportFatalError message true))
         (events (run w)) ->
       exists what s tr,
         bootstrap_and_run w null_globals []
         = Raised (StdException what) s tr
         /\ message
            = ("Unhandled exception in BallisticaMain(): " ++ what)%string.
Proof.
  assert (Hbody := bootstrap_and_run_inside_try w null_globals []).
  destruct Hbody as (ext0 & Ht0 & Hc0). cbn [List.app] in Ht0.
  assert (Htail : forall s tr,
             exists ext,
               trace (bind (try_catch (bootstrap_and_run w)
                              (top_level_handler w))
                        (fun _ =>
                           bind (call_on w g_platform
                                   (Platform_WillExitMain false))
                             (fun _ => bind (deref g_app_globals)
                                         (fun g => ret (return_value g))))
                        s tr)
               = trace (try_catch (bootstrap_and_run w)
                          (top_level_handler w) s tr) ++ ext
               /\ forallb no_top_level_report_class ext = true).
  { intros s tr. unfold bind at 1.
    destruct (try_catch _ _ s tr) as [a s' tr'| |]; cbn [trace];
      [|exists []; now rewrite app_nil_r..].
    destruct (exit_main_no_report s' tr') as (ext & -> & Hc). now exists ext. }
  destruct (Htail null_globals []) as (ext2 & Ht2 & Hc2).
  unfold events, run, BallisticaMain. rewrite Ht2. clear Ht2 Htail.
  assert (H2 : count is_top_level_report (map event ext2) = 0%nat).
  { apply (count_none _ no_top_level_report_class); [|assumption].
    intros e He. now apply negb_true_iff. }
  assert (H0 : count is_top_level_report (map event ext0) = 0%nat).
  { apply (count_none _ inside_try_class); [|assumption].
    apply inside_try_no_report. }
  assert (Hin2 : forall message,
             ~ In (Called (FatalError_ReportFatalError message true))
                 (map event ext2)).
  { intros message Hin. apply in_map_iff in Hin as (e & He & Hin).
    rewrite forallb_forall in Hc2. specialize (Hc2 e Hin).
    unfold no_top_level_report_class in Hc2. now rewrite He in Hc2. }
  assert (Hin0 : forall message (l : Trace),
             forallb inside_try_class l = true ->
             ~ In (Called (FatalError_ReportFatalError message true))
                 (map event l)).
  { intros message l Hl Hin. apply in_map_iff in Hin as (e & He & Hin).
    rewrite forallb_forall in Hl. specialize (Hl e Hin).
    apply inside_try_no_report in Hl. now rewrite He in Hl. }
  unfold try_catch.
  destruct (bootstrap_and_run w null_globals [])
    as [a s tr|[what|] s tr|how s tr] eqn:Hbody; cbn [trace] in *; subst.
  - rewrite map_app, count_app, H0, H2. split; [lia|].
    intros message Hin. apply in_app_or in Hin as [Hin|Hin];
      [now apply Hin0 in Hin|now apply Hin2 in Hin].
  - destruct (top_level_handler_reports what s ext0)
      as (stamp & ext1 & -> & Hc1).
    rewrite !map_app, !count_app. cbn [map]. rewrite H0, H2.
    change (count is_top_level_report
              (event {| event := Called (FatalError_ReportFatalError
                                           (unhandled_prefix ++ what) true);
                        bootstrapped_then := stamp |} :: map event ext1))
      with (S (count is_top_level_report (map event ext1))).
    rewrite (count_none _ inside_try_class _ inside_try_no_report Hc1).
    split; [lia|].
    intros message Hin. exists what, s, ext0. split; [reflexivity|].
    apply in_app_or in Hin as [Hin|Hin]; [|now apply Hin2 in Hin].
    apply in_app_or in Hin as [Hin|Hin]; [now apply Hin0 in Hin|].
    destruct Hin as [Hin|Hin]; [now injection Hin as <-|].
    now apply Hin0 in Hin.
  - rewrite map_app, count_app, H0, H2. split; [lia|].
    intros message Hin. apply in_app_or in Hin as [Hin|Hin];
      [now apply Hin0 in Hin|now apply Hin2 in Hin].
  - rewrite map_app, count_app, H0, H2. split; [lia|].
    intros message Hin. apply in_app_or in Hin as [Hin|Hin];
      [now apply Hin0 in Hin|now apply Hin2 in Hin].
Qed.

End Reports.

Lemma top_level_report_once_witness :
  exists what s tr,
    bootstrap_and_run handled_failure_world null_globals []
    = Raised (StdException what) s tr
    /\ ("Unhandled exception in BallisticaMain(): screen creation")%string
       = ("Unhandled exception in BallisticaMain(): " ++ what)%string.
Proof.
  apply (proj2 (top_level_report_once handled_failure_world)).
  vm_compute. auto 40.
Defined.

(* ------------------------------------------------------------------ *)
(** ** The flag and the exit notification in a run *)

Section FlagWrites.

Variable w : World.

Lemma BallisticaMain_never_resets :
  emits never_reset_class (BallisticaMain w).
Proof. emits_block; try (destruct m; emits_block). Qed.

Lemma before_never_reset_no_write l :
  forallb before_class l = true ->
  forallb never_reset_class l = true ->
  count is_flag_write (map event l) = 0%nat
  /\ forall b, In (Assigned_is_bootstrapped b) (map event l) -> False.
Proof.
  unfold count.
  induction l as [|e l IH]; cbn; [intros _ _; split; [reflexivity|tauto]|].
  intros Hb Hn.
  apply andb_prop in Hb as [Hb Hbl]. apply andb_prop in Hn as [Hn Hnl].
  destruct (IH Hbl Hnl) as [IH1 IH2].
  unfold before_class in Hb. unfold never_reset_class in Hn.
  destruct (event e) as [c|[|]] eqn:He; cbn in *; try discriminate.
  split; [assumption|]. intros b [Hin|Hin]; [discriminate|eauto].
Qed.

Lemma after_never_reset_no_write l :
  forallb after_class l = true ->
  forallb never_reset_class l = true ->
  count is_flag_write (map event l) = 0%nat
  /\ forall b, In (Assigned_is_bootstrapped b) (map event l) -> False.
Proof.
  unfold count.
  induction l as [|e l IH]; cbn; [intros _ _; split; [reflexivity|tauto]|].
  intros Hb Hn.
  apply andb_prop in Hb as [Hb Hbl]. apply andb_prop in Hn as [Hn Hnl].
  destruct (IH Hbl Hnl) as [IH1 IH2].
  unfold after_class in Hb. unfold never_reset_class in Hn.
  destruct (event e) as [c|[|]] eqn:He; cbn in *;
    rewrite ?andb_false_r in Hb; try discriminate.
  split; [assumption|]. intros b [Hin|Hin]; [discriminate|eauto].
Qed.

(** X11.  In any run of [BallisticaMain], whatever fails and however the
    run ends, the code of this file executes its assignment to
    [is_bootstrapped] at most once, and the value it assigns is [true].
    (What the collaborators write into the flag is not recorded as an
    assignment and is not part of this statement.) *)
Theorem is_bootstrapped_assigned_once :
  (count is_flag_write (events (run w)) <= 1)%nat
  /\ forall b, In (Assigned_is_bootstrapped b) (events (run w)) -> b = true.
Proof.
  destruct (BallisticaMain_never_resets null_globals []) as (ext & Ht & Hn).
  cbn [List.app] in Ht.
  pose proof (run_ordered w) as Ho.
  unfold events. unfold run in *. rewrite Ht in *. clear Ht.
  destruct Ho as [Hb|(pre & flag & aft & -> & Hpre & _ & Hflag & Haft)].
  - destruct (before_never_reset_no_write ext Hb Hn) as [Hc Hin].
    rewrite Hc. split; [lia|]. intros b H. now apply Hin in H.
  - rewrite forallb_app in Hn. apply andb_prop in Hn as [Hn1 Hn2].
    cbn in Hn2. apply andb_prop in Hn2 as [_ Hn2].
    destruct (before_never_reset_no_write pre Hpre Hn1) as [Hc1 Hin1].
    destruct (after_never_reset_no_write aft Haft Hn2) as [Hc2 Hin2].
    rewrite map_app, count_app. cbn [map].
    change (count is_flag_write (event flag :: map event aft))
      with (length (filter is_flag_write (event flag :: map event aft))).
    cbn [filter]. rewrite Hflag. cbn [is_flag_write length].
    fold (count is_flag_write (map event aft)). rewrite Hc1, Hc2.
    split; [lia|].
    intros b H. apply in_app_or in H as [H|[H|H]].
    + now apply Hin1 in H.
    + congruence.
    + now apply Hin2 in H.
Qed.

End FlagWrites.

Section ExitNotification.

Variable w : World.

Lemma try_catch_before_exit :
  emits before_exit_class
    (try_catch (bootstrap_and_run w) (top_level_handler w)).
Proof. emits_block; try (destruct m; emits_block). Qed.

(** The exit notification and the return append the notification, or
    nothing when the platform pointer is null. *)
Lemma exit_main_trace s tr :
  let leave :=
    bind (call_on w g_platform (Platform_WillExitMain false)) (fun _ =>
      bind (deref g_app_globals) (fun g => ret (return_value g))) in
  map event (trace (leave s tr)) = map event tr
  \/ map event (trace (leave s tr))
     = map event tr ++ [Called (Platform_WillExitMain false)].
Proof.
  cbn zeta.
  match goal with
  | |- map event (trace ?m) = _ \/ _ => remember m as r eqn:Hr
  end.
  symmetry in Hr. unfold_statements Hr.
  run Hr; subst r; cbn [trace]; rewrite ?map_app; cbn [map event]; auto.
Qed.

Lemma before_exit_count l :
  forallb before_exit_class l = true ->
  count is_exit_notification (map event l) = 0%nat.
Proof.
  apply (count_none is_exit_notification before_exit_class).
  intros e He. now apply negb_true_iff.
Qed.

Lemma before_exit_not_In l c :
  forallb before_exit_class l = true ->
  ~ In (Called (Platform_WillExitMain c)) (map event l).
Proof.
  intros Hl Hin. apply in_map_iff in Hin as (e & He & Hin).
  rewrite forallb_forall in Hl. specialize (Hl e Hin).
  unfold before_exit_class in Hl. now rewrite He in Hl.
Qed.

Lemma before_exit_no_split l l1 e l2 :
  forallb before_exit_class l = true ->
  map event l = l1 ++ e :: l2 ->
  is_exit_notification e = true -> False.
Proof.
  intros Hl Heq He.
  assert (Hin : In e (map event l)) by (rewrite Heq; apply in_elt).
  destruct e as [[]|]; try discriminate.
  now apply before_exit_not_In in Hin.
Qed.

(** X12.  [WillExitMain] is called at most once in a run, always with
    [false], and nothing is recorded after it; it is called only when the
    [try]/[catch] statement was left normally, so never after [exit(1)],
    an abort or an exception that leaves [BallisticaMain]. *)
Theorem exit_notification_last :
  (count is_exit_notification (events (run w)) <= 1)%nat
  /\ forall l1 e l2,
       events (run w) = l1 ++ e :: l2 ->
       is_exit_notification e = true ->
       e = Called (Platform_WillExitMain false)
       /\ l2 = []
       /\ exists s tr,
            try_catch (bootstrap_and_run w) (top_level_handler w)
              null_globals []
            = Normal tt s tr
            /\ map event tr = l1.
Proof.
  destruct (try_catch_before_exit null_globals []) as (ext & Ht & Hc).
  cbn [List.app] in Ht.
  unfold events, run.
  change (BallisticaMain w null_globals [])
    with (match try_catch (bootstrap_and_run w) (top_level_handler w)
                  null_globals [] with
          | Normal _ s' tr' =>
              bind (call_on w g_platform (Platform_WillExitMain false))
                (fun _ => bind (deref g_app_globals)
                            (fun g => ret (return_value g))) s' tr'
          | Raised e s' tr' => Raised e s' tr'
          | Ended how s' tr' => Ended how s' tr'
          end).
  destruct (try_catch (bootstrap_and_run w) (top_level_handler w)
              null_globals []) as [[] s tr|e s tr|how s tr] eqn:Htry;
    cbn [trace] in Ht; subst tr.
  - pose proof (exit_main_trace s ext) as Hleave. cbn zeta in Hleave.
    destruct Hleave as [-> | ->].
    + rewrite (before_exit_count _ Hc); split; [lia|].
      intros l1 e' l2 Heq He'. exfalso.
      exact (before_exit_no_split _ _ _ _ Hc Heq He').
    + rewrite count_app, (before_exit_count _ Hc). split; [cbn; lia|].
      intros l1 e' l2 Heq He'.
      assert (Hl2 : l2 = []).
      { destruct l2 as [|x l2 _] using rev_ind; [reflexivity|]. exfalso.
        change (l1 ++ e' :: l2 ++ [x]) with (l1 ++ (e' :: l2) ++ [x]) in Heq.
        rewrite app_assoc in Heq. apply app_inj_tail in Heq as [Heq _].
        exact (before_exit_no_split _ _ _ _ Hc Heq He'). }
      subst l2. apply app_inj_tail in Heq as [Heq <-].
      split; [reflexivity|]. split; [reflexivity|].
      exists s, ext. now split.
  - cbn [trace]. rewrite (before_exit_count _ Hc); split; [lia|].
    intros l1 e' l2 Heq He'. exfalso.
    exact (before_exit_no_split _ _ _ _ Hc Heq He').
  - cbn [trace]. rewrite (before_exit_count _ Hc); split; [lia|].
    intros l1 e' l2 Heq He'. exfalso.
    exact (before_exit_no_split _ _ _ _ Hc Heq He').
Qed.

End ExitNotification.

Lemma exit_notification_last_witness :
  Called (Platform_WillExitMain false) = Called (Platform_WillExitMain false)
  /\ @nil Event = []
  /\ exists s tr,
       try_catch (bootstrap_and_run handled_failure_world)
         (top_level_handler handled_failure_world) null_globals []
       = Normal tt s tr
       /\ map event tr
          = removelast (events (run handled_failure_world)).
Proof.
  apply (proj2 (exit_notification_last handled_failure_world)
           (removelast (events (run handled_failure_world)))
           (Called (Platform_WillExitMain false)) []);
    vm_compute; reflexivity.
Defined.

(* ------------------------------------------------------------------ *)
(** ** Phase 1 *)

Ltac close_prefix n :=
  exists n;
  split; [cbn; lia|];
  split; [rewrite <- ?app_assoc, ?map_app; reflexivity|];
  split;
  [ let c := fresh "c" in
    let Hin := fresh "Hin" in
    intros c Hin; cbn in Hin;
    repeat (destruct Hin as [<-|Hin]; [assumption|]); contradiction
  | first
      [ split;
        [ reflexivity
        | let c := fresh "c" in
          let Hin := fresh "Hin" in
          intros c Hin; cbn in Hin;
          repeat (destruct Hin as [<-|Hin]; [assumption|]); contradiction ]
      | eexists; split; [reflexivity|assumption] ] ].

Section PhaseOne.

Variable w : World.

(** X13.  From any state, phase 1 makes the calls of
    [provisioning_calls] in the order of the text and stops at the first
    one that throws, whose exception it passes on; it never ends the
    process, because every global it dereferences it has assigned
    before. *)
Theorem provision_globals_stops_at_first_failure s tr :
  exists n,
    (n <= length provisioning_calls)%nat
    /\ map event (trace (provision_globals w s tr))
       = map event tr ++ map Called (firstn n provisioning_calls)
    /\ (forall c,
          In c (firstn (pred n) provisioning_calls) -> raises w c = None)
    /\ match provision_globals w s tr with
       | Normal _ _ _ =>
           n = length provisioning_calls
           /\ forall c, In c provisioning_calls -> raises w c = None
       | Raised e _ _ =>
           exists c,
             nth_error provisioning_calls (pred n) = Some c
             /\ raises w c = Some e
       | Ended _ _ _ => False
       end.
Proof.
  remember (provision_globals w s tr) as r eqn:Hr. symmetry in Hr.
  unfold_statements Hr.
  run Hr; subst r; cbn [trace];
  first
    [ close_prefix 0%nat
    | close_prefix 1%nat
    | close_prefix 2%nat
    | close_prefix 3%nat
    | close_prefix 4%nat
    | close_prefix 5%nat
    | close_prefix 6%nat
    | close_prefix 7%nat
    | close_prefix 8%nat
    | close_prefix 9%nat
    | close_prefix 10%nat
    | close_prefix 11%nat
    | close_prefix 12%nat
    | close_prefix 13%nat
    | close_prefix 14%nat
    | close_prefix 15%nat
    | close_prefix 16%nat
    | close_prefix 17%nat
    | close_prefix 18%nat ].
Qed.

End PhaseOne.

(* ------------------------------------------------------------------ *)
(** ** The crash test when the handle step comes back *)

Section CrashFallThrough.

Variable w : World.

(** The crash test when the handle step comes back. *)
Lemma crash_test_comes_back h :
  BA_CRASH_TEST w = Some "1" ->
  let ec := negb (IsUnmodifiedBlessedBuild (build w) null_globals) in
  raises w (FatalError_ReportFatalError crash_test_message false) = None ->
  raises w (FatalError_HandleFatalError ec false) = None ->
  handler w ec false = Handled h ->
  let tr :=
    map (fun e => mkEntry e false)
      [ Called (FatalError_ReportFatalError crash_test_message false);
        Called (FatalError_HandleFatalError ec false) ] in
  crash_test w null_globals []
  = if asserts_enabled (build w) && negb h
    then Ended Abort null_globals tr
    else Normal tt null_globals tr.
Proof.
  cbn zeta. intros Henv Hrep Hcall Hh.
  unfold crash_test, if_pointer, if_then. rewrite Henv.
  unfold FatalError, ReportFatalError, HandleFatalError, bind, call,
    touched, gets, assert, crash_test_message, null_globals in *.
  rewrite Hrep.
  cbv beta iota delta
    [set_g_app_globals option_map g_main_thread g_app_globals g_app
     g_account g_utils g_game g_bg_dynamics_server g_platform
     g_graphics_server g_media_server g_audio_server
     g_network_write_module].
  rewrite Hcall, Hh.
  now destruct (asserts_enabled (build w) && negb h).
Qed.

(** X14.  With [BA_CRASH_TEST=1], when the handle step of [FatalError]
    comes back instead of ending the process, the only thing left to stop
    the program is [assert(handled)]: with assertions compiled in and the
    error not handled the process aborts after the two reporter calls;
    otherwise [FatalError] returns and [BallisticaMain] goes on to
    construct the global state. *)
Theorem crash_test_falls_through h :
  BA_CRASH_TEST w = Some "1" ->
  let ec := negb (IsUnmodifiedBlessedBuild (build w) null_globals) in
  raises w (FatalError_ReportFatalError "Fatal-Error-Test" false) = None ->
  raises w (FatalError_HandleFatalError ec false) = None ->
  handler w ec false = Handled h ->
  if asserts_enabled (build w) && negb h
  then outcome (run w) = Ends Abort
       /\ events (run w)
          = [ Called (FatalError_ReportFatalError "Fatal-Error-Test" false);
              Called (FatalError_HandleFatalError ec false) ]
  else exists rest,
      events (run w)
      = Called (FatalError_ReportFatalError "Fatal-Error-Test" false)
          :: Called (FatalError_HandleFatalError ec false)
          :: Called new_AppGlobals :: rest.
Proof.
  cbn zeta. intros Henv Hrep Hcall Hh.
  pose proof (crash_test_comes_back h Henv Hrep Hcall Hh) as E.
  cbn zeta in E.
  destruct (asserts_enabled (build w) && negb h).
  - assert (R : run w = Ended Abort null_globals
                  (map (fun e => mkEntry e false)
                     [ Called (FatalError_ReportFatalError
                                 crash_test_message false);
                       Called (FatalError_HandleFatalError
                                 (negb (IsUnmodifiedBlessedBuild (build w)
                                          null_globals)) false) ])).
    { unfold run, BallisticaMain. apply bind_Ended, try_catch_Ended.
      unfold bootstrap_and_run. now apply bind_Ended. }
    rewrite R. split; reflexivity.
  - unfold events, run, BallisticaMain.
    destruct (bind_extends any_class
                (try_catch (bootstrap_and_run w) (top_level_handler w))
                (fun _ =>
                   bind (call_on w g_platform (Platform_WillExitMain false))
                     (fun _ => bind (deref g_app_globals)
                                 (fun g => ret (return_value g))))
                null_globals [])
      as (ext3 & ->); [intros; emits_block|].
    destruct (try_catch_extends any_class (bootstrap_and_run w)
                (top_level_handler w) null_globals [])
      as (ext2 & ->); [intros; emits_block|].
    unfold bootstrap_and_run at 1. unfold bind at 1. rewrite E.
    unfold provision_globals, new_AppGlobals_.
    do 3 match goal with
         | |- context [trace (bind ?m ?k ?s ?tr)] =>
             let ext := fresh "ext" in
             destruct (bind_extends any_class m k s tr) as (ext & ->);
             [intros; emits_block; try (destruct m; emits_block)|]
         end.
    unfold call. destruct (raises w new_AppGlobals); cbn; eauto.
Qed.

End CrashFallThrough.

Lemma crash_test_falls_through_witness :
  exists rest,
    events (run returning_handler_world)
    = Called (FatalError_ReportFatalError "Fatal-Error-Test" false)
        :: Called (FatalError_HandleFatalError true false)
        :: Called new_AppGlobals :: rest.
Proof.
  exact (crash_test_falls_through returning_handler_world false
           eq_refl eq_refl eq_refl eq_refl).
Defined.

(* ------------------------------------------------------------------ *)
(** ** The pausable threads *)

Section Pausable.

Variable w : World.

Lemma pausable_push_back t g :
  pausable_threads (push_back_pausable t g) = pausable_threads g ++ [t].
Proof. now destruct g. Qed.

Lemma in_order_skip {A : Type} (l1 m l2 : list A) :
  in_order l1 l2 -> in_order l1 (m ++ l2).
Proof.
  destruct l1 as [|x rest]; [trivial|].
  intros (a & b & -> & Hrest). exists (m ++ a), b.
  now rewrite <- app_assoc.
Qed.

Lemma in_order_here {A : Type} (x : A) (rest l2 : list A) :
  in_order rest l2 -> in_order (x :: rest) ([x] ++ l2).
Proof. intros H. now exists [], l2. Qed.

(** X15.  When phase 1 completes, the list of pausable threads holds the
    four worker threads in the order media, audio, game, network-write,
    provided the collaborators only ever add to the list; when they leave
    it alone it is exactly the initial list followed by these four: this
    file never makes the main thread pausable. *)
Theorem pausable_threads_after_phase1 s tr a s' tr' :
  appends_pausable_threads w ->
  provision_globals w s tr = Normal a s' tr' ->
  exists g,
    g_app_globals s' = Some g
    /\ in_order (worker_threads w) (pausable_threads g)
    /\ ((forall c g', pausable_threads (touches w c g') = pausable_threads g')
        -> pausable_threads g
           = pausable_threads (the_app_globals w) ++ worker_threads w).
Proof.
  intros Happ H.
  unfold_statements H. run H.
  all: injection H as _ <- _; cbn [g_app_globals]; eexists;
    (split; [reflexivity|]); split.
  all: try (intros Hkeep;
            repeat (rewrite Hkeep || rewrite pausable_push_back);
            rewrite <- !app_assoc; reflexivity).
  all: repeat first
         [ rewrite pausable_push_back
         | match goal with
           | |- context [pausable_threads (touches w ?c ?g)] =>
               let more := fresh "more" in
               destruct (Happ c g) as (more & ->)
           end ];
       rewrite <- !app_assoc; unfold worker_threads;
       repeat first [apply in_order_here | apply in_order_skip]; exact I.
Qed.

End Pausable.

Lemma quiet_world_appends crashenv event_loop :
  appends_pausable_threads (quiet_world crashenv event_loop).
Proof. intros c g. exists []. cbn. now rewrite app_nil_r. Qed.

Lemma pausable_threads_after_phase1_witness :
  exists g,
    g_app_globals
      (final_globals (provision_globals (quiet_world None true)
                        null_globals []))
    = Some g
    /\ in_order (worker_threads (quiet_world None true))
         (pausable_threads g)
    /\ ((forall c g',
            pausable_threads (touches (quiet_world None true) c g')
            = pausable_threads g')
        -> pausable_threads g
           = pausable_threads (the_app_globals (quiet_world None true))
               ++ worker_threads (quiet_world None true)).
Proof.
  apply (pausable_threads_after_phase1 (quiet_world None true)
           null_globals [] tt _
           (trace (provision_globals (quiet_world None true)
                     null_globals []))
           (quiet_world_appends None true)).
  vm_compute. reflexivity.
Defined.

(* ------------------------------------------------------------------ *)
(** ** The flag once it is set *)

Section Stays.

Variable w : World.
Hypothesis survives : flag_survives w.

Lemma IsBootstrapped_true s :
  IsBootstrapped s = Value true <-> bootstrapped_now s = true.
Proof.
  unfold IsBootstrapped, bootstrapped_now, arrow, ptr_and.
  destruct (g_app_globals s) as [g|]; split; intros H;
    try discriminate; [now injection H|now rewrite H].
Qed.

Lemma stays_nothing {A : Type} (m : M A) :
  (forall s tr, trace (m s tr) = tr /\ final_globals (m s tr) = s) ->
  stays_bootstrapped m.
Proof.
  intros H s tr Hs. destruct (H s tr) as [Ht Hf].
  exists []. now rewrite Ht, Hf, app_nil_r.
Qed.

Lemma stays_ret {A : Type} (a : A) : stays_bootstrapped (ret a).
Proof. now apply stays_nothing. Qed.

Lemma stays_gets {A : Type} (f : Globals -> A) : stays_bootstrapped (gets f).
Proof. now apply stays_nothing. Qed.

Lemma stays_deref {A : Type} (p : Globals -> option A) :
  stays_bootstrapped (deref p).
Proof.
  apply stays_nothing. intros s tr. unfold deref. now destruct (p s).
Qed.

Lemma stays_exit {A : Type} code : stays_bootstrapped (@exit A code).
Proof. now apply stays_nothing. Qed.

Lemma stays_throw {A : Type} e : stays_bootstrapped (@throw A e).
Proof. now apply stays_nothing. Qed.

Lemma stays_assert b : stays_bootstrapped (assert w b).
Proof.
  apply stays_nothing. intros s tr. unfold assert.
  now destruct (asserts_enabled (build w) && negb b).
Qed.

Lemma stays_call c : stays_bootstrapped (call w c).
Proof.
  intros s tr Hs. exists [mkEntry (Called c) (bootstrapped_now s)].
  split; [unfold call; now destruct (raises w c)|].
  split.
  - cbn. apply IsBootstrapped_true in Hs. now rewrite Hs.
  - assert (Hf : final_globals (call w c s tr) = touched w c s)
      by (unfold call; now destruct (raises w c)).
    rewrite Hf. unfold IsBootstrapped, touched, arrow in *.
    destruct s as [mt [g|] ap acc ut game bg pf gs ms aus nw];
      cbn in *; [|discriminate].
    injection Hs as Hs. now rewrite (survives c g Hs).
Qed.

Lemma stays_bind {A B : Type} (m : M A) (k : A -> M B) :
  stays_bootstrapped m -> (forall a, stays_bootstrapped (k a)) ->
  stays_bootstrapped (bind m k).
Proof.
  intros Hm Hk s tr Hs. unfold bind.
  destruct (Hm s tr Hs) as (ext1 & H1 & Hok1 & Hf1).
  destruct (m s tr) as [a s' tr'| |]; cbn in H1, Hf1; subst;
    [|exists ext1; now repeat split..].
  destruct (Hk a s' (tr ++ ext1) Hf1) as (ext2 & H2 & Hok2 & Hf2).
  exists (ext1 ++ ext2). rewrite H2, app_assoc. split; [reflexivity|].
  rewrite forallb_app. now rewrite Hok1, Hok2.
Qed.

Lemma stays_try_catch {A : Type} (body : M A) handle :
  stays_bootstrapped body ->
  (forall what, stays_bootstrapped (handle what)) ->
  stays_bootstrapped (try_catch body handle).
Proof.
  intros Hb Hh s tr Hs. unfold try_catch.
  destruct (Hb s tr Hs) as (ext1 & H1 & Hok1 & Hf1).
  destruct (body s tr) as [a s' tr'|[what|] s' tr'|]; cbn in H1, Hf1; subst;
    [exists ext1; now repeat split| |exists ext1; now repeat split..].
  destruct (Hh what s' (tr ++ ext1) Hf1) as (ext2 & H2 & Hok2 & Hf2).
  exists (ext1 ++ ext2). rewrite H2, app_assoc. split; [reflexivity|].
  rewrite forallb_app. now rewrite Hok1, Hok2.
Qed.

Lemma stays_if_then b m :
  stays_bootstrapped m -> stays_bootstrapped (if_then b m).
Proof.
  intros Hm s tr Hs. unfold if_then. destruct b; [now apply Hm|].
  exists []. now rewrite app_nil_r.
Qed.

Lemma stays_if_then_else {A : Type} b (m1 m2 : M A) :
  stays_bootstrapped m1 -> stays_bootstrapped m2 ->
  stays_bootstrapped (if_then_else b m1 m2).
Proof.
  intros H1 H2 s tr. unfold if_then_else. destruct b; [apply H1|apply H2].
Qed.

Lemma stays_HandleFatalError exit_cleanly top :
  stays_bootstrapped (HandleFatalError w exit_cleanly top).
Proof.
  unfold HandleFatalError. apply stays_bind.
  - apply stays_call.
  - intros _. apply stays_nothing. intros s tr.
    now destruct (handler w exit_cleanly top).
Qed.

End Stays.

Ltac stays_block :=
  unfold leave_main, after_flag, phase2, phase3_4, top_level_handler,
    ReportFatalError, call_on;
  repeat first
    [ apply stays_HandleFatalError | apply stays_call
    | apply stays_ret | apply stays_gets
    | apply stays_deref | apply stays_exit | apply stays_throw
    | apply stays_assert | apply stays_try_catch | apply stays_if_then_else
    | apply stays_if_then | apply stays_bind
    | lazymatch goal with |- forall _, _ => intro end
    | assumption ].

Section FlagStays.

Variable w : World.
Hypothesis survives : flag_survives w.

Lemma after_flag_stays : stays_bootstrapped (after_flag w).
Proof. stays_block. Qed.

Lemma top_level_handler_stays what :
  stays_bootstrapped (top_level_handler w what).
Proof. stays_block. Qed.

Lemma leave_main_stays : stays_bootstrapped (leave_main w).
Proof. stays_block. Qed.

Lemma before_flag_no_write : emits no_flag_write_class (before_flag w).
Proof. unfold before_flag. emits_block; try (destruct m; emits_block). Qed.

Lemma top_level_handler_no_write what :
  emits no_flag_write_class (top_level_handler w what).
Proof. emits_block. Qed.

Lemma leave_main_no_write : emits no_flag_write_class (leave_main w).
Proof. unfold leave_main. emits_block. Qed.

(** The try block, cut at the assignment of the flag. *)
Lemma bootstrap_and_run_cut s tr :
  bootstrap_and_run w s tr
  = bind (before_flag w) (fun _ =>
      bind (assign_is_bootstrapped true) (fun _ => after_flag w)) s tr.
Proof.
  unfold bootstrap_and_run, before_flag, after_flag, bind.
  now destruct (crash_test w s tr).
Qed.

Lemma run_cut :
  run w
  = bind (try_catch
            (bind (before_flag w) (fun _ =>
               bind (assign_is_bootstrapped true) (fun _ => after_flag w)))
            (top_level_handler w))
      (fun _ => leave_main w) null_globals [].
Proof.
  unfold run, BallisticaMain, leave_main, bind at 1, try_catch.
  rewrite bootstrap_and_run_cut. reflexivity.
Qed.

(** The assignment itself. *)
Lemma assign_is_bootstrapped_sets s tr :
  (g_app_globals s = None
   /\ assign_is_bootstrapped true s tr = Ended NullPointerFault s tr)
  \/ exists s',
       assign_is_bootstrapped true s tr
       = Normal tt s' (tr ++ [mkEntry (Assigned_is_bootstrapped true) true])
       /\ IsBootstrapped s' = Value true.
Proof.
  unfold assign_is_bootstrapped, bind, deref, modify, log.
  destruct s as [mt [[b th mn rt lt uc ch rv]|] ap acc ut game bg pf gs ms
                   aus nw]; cbn;
    [right|left; now split].
  eexists. unfold bootstrapped_now, IsBootstrapped. cbn.
  split; reflexivity.
Qed.

(** Where the flag is written, if it is: the trace up to the write, and
    what the run records from there with the flag set. *)
Lemma run_around_flag :
  (forallb no_flag_write_class (trace (run w)) = true)
  \/ exists pre aft,
       trace (run w)
       = pre ++ mkEntry (Assigned_is_bootstrapped true) true :: aft
       /\ forallb no_flag_write_class pre = true
       /\ forallb after_flag_class aft = true
       /\ IsBootstrapped (final_globals (run w)) = Value true.
Proof.
  rewrite run_cut.
  destruct (before_flag_no_write null_globals []) as (pre & Hpre & Hc).
  cbn [List.app] in Hpre.
  assert (Hquiet : forall (r : Res unit),
             trace r = pre ->
             match r with Normal _ _ _ => False | _ => True end ->
             forallb no_flag_write_class
               (trace (bind (try_catch (fun _ _ => r) (top_level_handler w))
                         (fun _ => leave_main w) null_globals [])) = true).
  { intros r Hr Hnot. unfold bind, try_catch.
    destruct r as [a s tr|[what|] s tr|how s tr]; cbn [trace] in Hr |- *;
      subst tr; try assumption; [contradiction|].
    destruct (top_level_handler_no_write what s pre) as (ext1 & H1 & Hc1).
    destruct (top_level_handler w what s pre)
      as [a s1 tr1|e1 s1 tr1|h1 s1 tr1];
      cbn [trace] in H1 |- *; subst tr1;
      try (now rewrite forallb_app, Hc, Hc1).
    destruct (leave_main_no_write s1 (pre ++ ext1)) as (ext2 & -> & Hc2).
    now rewrite !forallb_app, Hc, Hc1, Hc2. }
  destruct (before_flag w null_globals []) as [[] s1 tr1|e s1 tr1|how s1 tr1]
    eqn:Hbefore; cbn [trace] in Hpre; subst tr1.
  2: { left.
       specialize (Hquiet (Raised e s1 pre) eq_refl I).
       unfold bind, try_catch in *. now rewrite Hbefore. }
  2: { left.
       specialize (Hquiet (Ended how s1 pre) eq_refl I).
       unfold bind, try_catch in *. now rewrite Hbefore. }
  destruct (assign_is_bootstrapped_sets s1 pre)
    as [[_ Hassign]|(s2 & Hassign & Hs2)].
  { left.
    specialize (Hquiet (Ended NullPointerFault s1 pre) eq_refl I).
    unfold bind, try_catch in *. now rewrite Hbefore, Hassign. }
  right. exists pre.
  set (tr2 := pre ++ [mkEntry (Assigned_is_bootstrapped true) true]) in *.
  assert (Hrest : stays_bootstrapped
                    (bind (try_catch (after_flag w) (top_level_handler w))
                       (fun _ => leave_main w))).
  { apply stays_bind; [apply stays_try_catch|intros _].
    - apply after_flag_stays.
    - apply top_level_handler_stays.
    - apply leave_main_stays. }
  destruct (Hrest s2 tr2 Hs2) as (aft & Ht & Hc2 & Hf).
  exists aft.
  assert (E : bind (try_catch
                      (bind (before_flag w) (fun _ =>
                         bind (assign_is_bootstrapped true)
                           (fun _ => after_flag w)))
                      (top_level_handler w))
                (fun _ => leave_main w) null_globals []
              = bind (try_catch (after_flag w) (top_level_handler w))
                  (fun _ => leave_main w) s2 tr2).
  { unfold bind, try_catch. now rewrite Hbefore, Hassign. }
  rewrite E, Ht. unfold tr2. rewrite <- app_assoc. now repeat split.
Qed.

(** X16.  Once [is_bootstrapped] has been set it stays set for the rest
    of the run, as long as no collaborator clears it: the write and every
    entry recorded after it see the flag set, and [IsBootstrapped()]
    answers [true] where [BallisticaMain] is left, whether it returns,
    throws or ends the process. *)
Theorem is_bootstrapped_stays_set l1 flag l2 :
  trace (run w) = l1 ++ flag :: l2 ->
  event flag = Assigned_is_bootstrapped true ->
  bootstrapped_then flag = true
  /\ (forall e, In e l2 -> bootstrapped_then e = true)
  /\ IsBootstrapped (final_globals (run w)) = Value true.
Proof.
  intros Hsplit Hflag.
  assert (Hwrite : is_flag_write (event flag) = true) by now rewrite Hflag.
  destruct run_around_flag as [Hnone|(pre & aft & Ht & Hpre & Haft & Hf)].
  - exfalso. rewrite Hsplit, forallb_app in Hnone.
    apply andb_prop in Hnone as [_ Hnone]. cbn in Hnone.
    apply andb_prop in Hnone as [Hnone _].
    unfold no_flag_write_class in Hnone. now rewrite Hwrite in Hnone.
  - rewrite Hsplit in Ht. symmetry in Ht.
    destruct (split_at_unique (fun e => is_flag_write (event e))
                pre _ aft l1 flag l2 Ht Hpre) as (-> & -> & ->);
      [|assumption|].
    + apply (forallb_weaken after_flag_class); [|assumption].
      intros e He. unfold after_flag_class in He.
      now apply andb_prop in He as [_ He].
    + split; [reflexivity|]. split; [|assumption].
      intros e Hin. rewrite forallb_forall in Haft.
      specialize (Haft e Hin). unfold after_flag_class in Haft.
      now apply andb_prop in Haft as [Haft _].
Qed.

End FlagStays.

Lemma quiet_world_flag_survives crashenv event_loop :
  flag_survives (quiet_world crashenv event_loop).
Proof. intros c g H. exact H. Qed.

Lemma is_bootstrapped_stays_set_witness :
  bootstrapped_then
    (nth 18 (trace (run (quiet_world None true)))
       (mkEntry (Called new_AppGlobals) false)) = true
  /\ (forall e,
        In e (skipn 19 (trace (run (quiet_world None true)))) ->
        bootstrapped_then e = true)
  /\ IsBootstrapped (final_globals (run (quiet_world None true)))
     = Value true.
Proof.
  apply (is_bootstrapped_stays_set (quiet_world None true)
           (quiet_world_flag_survives None true)
           (firstn 18 (trace (run (quiet_world None true)))));
    vm_compute; reflexivity.
Defined.

(* ------------------------------------------------------------------ *)
(** ** The fields BallisticaMain leaves alone *)

Section Frames.

Variable w : World.
Hypothesis keep : collaborators_keep w.

Lemma frames_still {A : Type} (V : A -> Prop) (m : M A) :
  (forall s tr, final_globals (m s tr) = s) ->
  (forall s tr a s' tr', m s tr = Normal a s' tr' -> V a) ->
  frames w V m.
Proof.
  intros Hf HV s tr Hs. rewrite Hf. split; [assumption|]. apply HV.
Qed.

Lemma frames_ret {A : Type} (a : A) : frames w anything (ret a).
Proof. now apply frames_still. Qed.

Lemma frames_gets {A : Type} (f : Globals -> A) : frames w anything (gets f).
Proof. now apply frames_still. Qed.

Lemma frames_log e : frames w anything (log e).
Proof. now apply frames_still. Qed.

Lemma frames_exit {A : Type} (V : A -> Prop) code : frames w V (exit code).
Proof. apply frames_still; [reflexivity|discriminate]. Qed.

Lemma frames_throw {A : Type} (V : A -> Prop) e : frames w V (throw e).
Proof. apply frames_still; [reflexivity|discriminate]. Qed.

Lemma frames_assert b : frames w anything (assert w b).
Proof.
  apply frames_still; [|easy]. intros s tr. unfold assert.
  now destruct (asserts_enabled (build w) && negb b).
Qed.

Lemma frames_deref {A : Type} (p : Globals -> option A) :
  frames w anything (deref p).
Proof.
  apply frames_still; [|easy]. intros s tr. unfold deref.
  now destruct (p s).
Qed.

(** The record read through [g_app_globals] has its fields as
    constructed. *)
Lemma frames_deref_g_app_globals :
  frames w (fun g => kept_fields g = kept_fields (the_app_globals w))
    (deref g_app_globals).
Proof.
  intros s tr Hs. unfold deref.
  destruct (g_app_globals s) as [g|] eqn:Hg; cbn [final_globals].
  - split; [assumption|]. intros a s' tr' H. injection H as <- _ _.
    now apply Hs.
  - split; [assumption|discriminate].
Qed.

Lemma frames_modify f :
  (forall s, as_constructed w s -> as_constructed w (f s)) ->
  frames w anything (modify f).
Proof. intros Hf s tr Hs. split; [now apply Hf|easy]. Qed.

Lemma frames_call c : frames w anything (call w c).
Proof.
  intros s tr Hs. split; [|easy].
  assert (Hf : final_globals (call w c s tr) = touched w c s)
    by (unfold call; now destruct (raises w c)).
  rewrite Hf. intros g Hg. unfold touched in Hg. cbn in Hg.
  destruct (g_app_globals s) as [g0|] eqn:Hg0; [|discriminate].
  cbn in Hg. injection Hg as <-. rewrite keep. now apply Hs.
Qed.

Lemma frames_bind {A B : Type} (V : A -> Prop) (V' : B -> Prop)
  (m : M A) (k : A -> M B) :
  frames w V m -> (forall a, V a -> frames w V' (k a)) ->
  frames w V' (bind m k).
Proof.
  intros Hm Hk s tr Hs. unfold bind.
  destruct (Hm s tr Hs) as [Hf HV].
  destruct (m s tr) as [a s' tr'| |]; cbn [final_globals] in *;
    [|split; [assumption|discriminate]..].
  apply (Hk a (HV a s' tr' eq_refl) s' tr' Hf).
Qed.

Lemma frames_try_catch {A : Type} (V : A -> Prop) (body : M A) handle :
  frames w V body -> (forall what, frames w V (handle what)) ->
  frames w V (try_catch body handle).
Proof.
  intros Hb Hh s tr Hs. unfold try_catch.
  destruct (Hb s tr Hs) as [Hf HV].
  destruct (body s tr) as [a s' tr'|[what|] s' tr'|];
    cbn [final_globals] in *;
    [split; [assumption|]; intros a' s'' tr'' H; injection H as <- _ _;
     now apply (HV a s' tr')
    | now apply Hh
    | split; [assumption|discriminate]..].
Qed.

Lemma frames_if_then b m :
  frames w anything m -> frames w anything (if_then b m).
Proof.
  intros Hm s tr Hs. unfold if_then. destruct b; [now apply Hm|].
  split; [assumption|easy].
Qed.

Lemma frames_if_then_else {A : Type} (V : A -> Prop) b (m1 m2 : M A) :
  frames w V m1 -> frames w V m2 -> frames w V (if_then_else b m1 m2).
Proof.
  intros H1 H2 s tr. unfold if_then_else. destruct b; [apply H1|apply H2].
Qed.

Lemma frames_if_pointer {A : Type} (p : option A) m :
  (forall a, frames w anything (m a)) ->
  frames w anything (if_pointer p m).
Proof.
  intros Hm s tr Hs. unfold if_pointer. destruct p; [now apply Hm|].
  split; [assumption|easy].
Qed.

Lemma frames_HandleFatalError exit_cleanly top :
  frames w anything (HandleFatalError w exit_cleanly top).
Proof.
  unfold HandleFatalError. apply (frames_bind anything).
  - apply frames_call.
  - intros _ _. apply frames_still; [|easy]. intros s tr.
    now destruct (handler w exit_cleanly top).
Qed.

(** [new AppGlobals()] yields the record of the world. *)
Lemma frames_new_AppGlobals_ :
  frames w (fun ag => ag = the_app_globals w) (new_AppGlobals_ w).
Proof.
  intros s tr Hs. unfold new_AppGlobals_, bind, ret.
  destruct (frames_call new_AppGlobals s tr Hs) as [Hf _].
  destruct (call w new_AppGlobals s tr) as [a s' tr'| |];
    cbn [final_globals] in *; split; try assumption; try discriminate.
  intros a' s'' tr'' H. now injection H as <- _ _.
Qed.

Lemma frames_Platform_Create_ : frames w anything (Platform_Create_ w).
Proof.
  unfold Platform_Create_. apply (frames_bind anything);
    [apply frames_call|intros; apply frames_ret].
Qed.

Lemma frames_new_Thread_ id ty : frames w anything (new_Thread_ w id ty).
Proof.
  unfold new_Thread_. apply (frames_bind anything);
    [apply frames_call|intros; apply frames_ret].
Qed.

End Frames.

(** The writes of this file keep the fields. *)
Ltac frames_write :=
  let s := fresh "s" in
  let Hs := fresh "Hs" in
  let g := fresh "g" in
  let Hg := fresh "Hg" in
  cbn beta in *; subst;
  intros s Hs g Hg; cbn in Hg;
  first
    [ exact (Hs g Hg)
    | injection Hg as <-;
      first
        [ reflexivity
        | match goal with
          | H : kept_fields ?g0 = _ |- _ =>
              rewrite <- H; destruct g0; reflexivity
          end ] ].

Ltac frames_block :=
  unfold bootstrap_and_run, crash_test, provision_globals,
    phase2, phase3_4, top_level_handler, FatalError,
    ReportFatalError, AddModule, register_module, CreateApp,
    CreateAuxiliaryModules, push_back_pausable_thread,
    assign_is_bootstrapped, call_on;
  repeat first
    [ apply frames_new_AppGlobals_ | apply frames_Platform_Create_
    | apply frames_new_Thread_ | apply frames_HandleFatalError
    | apply frames_call | apply frames_log
    | apply frames_ret | apply frames_gets
    | apply frames_deref_g_app_globals | apply frames_deref
    | apply frames_exit | apply frames_throw
    | apply frames_assert | apply frames_try_catch
    | apply frames_if_then_else
    | apply frames_if_then | apply frames_if_pointer
    | apply frames_modify; frames_write
    | lazymatch goal with
      | |- frames _ _ (bind _ _) => eapply frames_bind
      end
    | lazymatch goal with |- forall _, _ => intro end
    | assumption ].

Section FramesMain.

Variable w : World.
Hypothesis keep : collaborators_keep w.

Lemma bootstrap_and_run_frames : frames w anything (bootstrap_and_run w).
Proof. frames_block. Qed.

Lemma top_level_handler_frames what :
  frames w anything (top_level_handler w what).
Proof. frames_block. Qed.

Lemma BallisticaMain_frames :
  frames w (fun v => v = return_value (the_app_globals w))
    (BallisticaMain w).
Proof.
  unfold BallisticaMain.
  apply (frames_bind w anything).
  { apply frames_try_catch.
    - apply bootstrap_and_run_frames.
    - apply top_level_handler_frames. }
  intros _ _. apply (frames_bind w anything); [frames_block|].
  intros _ _.
  apply (frames_bind w
           (fun g => kept_fields g = kept_fields (the_app_globals w)));
    [apply frames_deref_g_app_globals|].
  intros g Hg. apply frames_still; [reflexivity|].
  intros s tr a s' tr' H. injection H as <- _ _.
  unfold kept_fields in Hg. now injection Hg.
Qed.

(** X17.  Of the globals record [BallisticaMain] itself writes only
    [is_bootstrapped] and [pausable_threads]: when the collaborators
    leave the other fields alone, they are as the constructor left them
    wherever the function is left, and the value it returns is the
    [return_value] the constructor chose. *)
Theorem BallisticaMain_keeps_fields :
  as_constructed w (final_globals (run w))
  /\ forall v,
       outcome (run w) = Returns v -> v = return_value (the_app_globals w).
Proof.
  assert (Hnull : as_constructed w null_globals) by (intros g H; discriminate H).
  destruct (BallisticaMain_frames null_globals [] Hnull) as [Hf HV].
  split; [exact Hf|].
  intros v Hv. unfold run in *.
  destruct (BallisticaMain w null_globals []) as [a s' tr'| |] eqn:E;
    try discriminate.
  cbn in Hv. injection Hv as <-. exact (HV a s' tr' eq_refl).
Qed.

End FramesMain.

Lemma quiet_world_keeps crashenv event_loop :
  collaborators_keep (quiet_world crashenv event_loop).
Proof. intros c g. reflexivity. Qed.

Lemma BallisticaMain_keeps_fields_witness :
  as_constructed (quiet_world None false)
    (final_globals (run (quiet_world None false)))
  /\ forall v,
       outcome (run (quiet_world None false)) = Returns v ->
       v = return_value (the_app_globals (quiet_world None false)).
Proof.
  exact (BallisticaMain_keeps_fields (quiet_world None false)
           (quiet_world_keeps None false)).
Defined.

(* ================================================================== *)
(** * Part 21: GetUniqueSessionIdentifier *)
(* ================================================================== *)

Section DecimalDigits.

Import Decimal.










End DecimalDigits.

Section SessionIdentifier.

Lemma GetUniqueSessionIdentifier_cached cfg env s st :
  have_session_id st = true ->
  GetUniqueSessionIdentifier cfg env s st
  = SessionReturns (session_id st) st [].
Proof.
  intros H. unfold GetUniqueSessionIdentifier. now rewrite H.
Qed.

Lemma GetUniqueSessionIdentifier_caches cfg env s st id st' calls :
  GetUniqueSessionIdentifier cfg env s st = SessionReturns id st' calls ->
  have_session_id st' = true /\ session_id st' = id.
Proof.
  unfold GetUniqueSessionIdentifier.
  destruct (have_session_id st) eqn:Hhave; cbn.
  - intros H. injection H as <- <- _. auto.
  - destruct (g_platform s); [|discriminate].
    intros H. injection H as <- <- _. auto.
Qed.

(** X18.  The session identifier is made once.  In any sequence of
    calls, after the first call that returns every later call returns the
    same identifier and calls nothing: the generator is not reseeded, the
    platform is not asked again and the warning is not repeated, whatever
    the clock, the generator, the platform or [g_platform] have become;
    a later call cannot end the process either. *)
Theorem session_identifier_made_once cfg env s asks st id calls rest :
  session_calls cfg ((env, s) :: asks) st = (id, calls) :: rest ->
  rest = map (fun _ => (id, [])) asks.
Proof.
  cbn [session_calls].
  destruct (GetUniqueSessionIdentifier cfg env s st) as [id' st' calls'|]
    eqn:Hfirst; [|discriminate].
  intros H. injection H as -> -> <-.
  apply GetUniqueSessionIdentifier_caches in Hfirst as [Hhave Hid].
  clear -Hhave Hid. induction asks as [|[env' s'] asks IH]; [reflexivity|].
  cbn [session_calls map].
  rewrite (GetUniqueSessionIdentifier_cached cfg env' s' st' Hhave), Hid.
  now rewrite IH.
Qed.



(** X20.  [GetUniqueSessionIdentifier] ends the process exactly when it
    is called without a cached identifier while [g_platform] is null,
    after it has reseeded the generator: by [assert(g_platform)] when
    assertions are compiled in, by the call through the null pointer
    otherwise.  Once phase 1 of [BallisticaMain] has completed this cannot
    happen. *)
Theorem session_identifier_needs_platform cfg env s st :
  (forall how calls,
      GetUniqueSessionIdentifier cfg env s st = SessionEnds how calls ->
      have_session_id st = false /\ g_platform s = None
      /\ how = (if asserts_enabled cfg then Abort else NullPointerFault)
      /\ calls = [ Platform_GetCurrentMilliseconds;
                   srand (to_uint32 (current_milliseconds env)); rand ])
  /\ (have_session_id st = false -> g_platform s = None ->
      exists how calls,
        GetUniqueSessionIdentifier cfg env s st = SessionEnds how calls)
  /\ (forall w s0 tr a tr',
        provision_globals w s0 tr = Normal a s tr' ->
        exists id st' calls,
          GetUniqueSessionIdentifier cfg env s st
          = SessionReturns id st' calls).
Proof.
  unfold GetUniqueSessionIdentifier. repeat split.
  - destruct (have_session_id st); [discriminate H|reflexivity].
  - destruct (have_session_id st); [discriminate H|].
    cbn in H. now destruct (g_platform s).
  - destruct (have_session_id st); [discriminate H|].
    cbn in H. destruct (g_platform s); [discriminate H|].
    now injection H as <- _.
  - destruct (have_session_id st); [discriminate H|].
    cbn in H. destruct (g_platform s); [discriminate H|].
    now injection H as _ <-.
  - intros -> ->. cbn. eauto.
  - intros w s0 tr a tr' Hp.
    apply provision_globals_establishes in Hp as (_ & -> & _).
    destruct (have_session_id st); cbn; eauto.
Qed.

End SessionIdentifier.

Example session_identifier_sample :
  session_calls (this_build false false true)
    [ (sample_session_env, platform_ready);
      (later_session_env, null_globals) ] initial_statics
  = [ ("device-1234-498274029",
       [ Platform_GetCurrentMilliseconds; srand 3487918203; rand;
         Platform_GetUniqueDeviceIdentifier ]);
      ("device-1234-498274029", []) ].
Proof. vm_compute. reflexivity. Qed.

Lemma session_identifier_made_once_witness :
  [ ("device-1234-498274029", @nil SessionCall) ]
  = map (fun _ => ("device-1234-498274029", []))
      [ (later_session_env, null_globals) ].
Proof.
  apply (session_identifier_made_once (this_build false false true)
           sample_session_env platform_ready
           [ (later_session_env, null_globals) ] initial_statics
           "device-1234-498274029"
           [ Platform_GetCurrentMilliseconds; srand 3487918203; rand;
             Platform_GetUniqueDeviceIdentifier ]).
  vm_compute. reflexivity.
Defined.


Lemma session_identifier_needs_platform_witness :
  exists how calls,
    GetUniqueSessionIdentifier (this_build false false true)
      sample_session_env null_globals initial_statics
    = SessionEnds how calls.
Proof.
  apply (proj1 (proj2 (session_identifier_needs_platform
                         (this_build false false true) sample_session_env
                         null_globals initial_statics)));
    reflexivity.
Defined.
